(** * AI Caption Coach: the [/api/captions] route handler

    A shallow embedding of [src/app/api/captions/route.ts] (the request
    handler [POST], the provider gateway [callOpenAI], the two payload
    parsers and the fallback catalog) together with the part of the
    JavaScript runtime the handler relies on, followed by the properties
    the specification states about them.

    Conventions.
    - A JavaScript string is the list of its UTF-16 code units.
    - A JavaScript number is an IEEE-754 double, kept as the rational it
      denotes; the sign of zero is not tracked (no branch of the handler
      observes it).
    - Effects (provider calls, back-off sleeps, the mutable [mode]
      variable of [POST]) are threaded through a state-and-exception monad
      whose state survives a [throw], as in JavaScript. *)

From Stdlib Require Import List ZArith QArith Qabs Bool Ascii String Lia.
From Stdlib Require Import DecimalString.
Import ListNotations.

#[local] Set Warnings "-register-all".

(* ================================================================== *)
(** * Part I. The JavaScript runtime used by the handler               *)
(* ================================================================== *)

(** ** Strings *)

Module JsString.

(** UTF-16 code units. *)
Definition t := list Z.

Definition eqb (a b : t) : bool :=
  if list_eq_dec Z.eq_dec a b then true else false.

(** The bytes of a source literal. *)
Definition bytes (s : string) : list Z :=
  map (fun c => Z.of_nat (nat_of_ascii c)) (list_ascii_of_string s).

(** One code point as one code unit or a surrogate pair. *)
Definition units (cp : Z) : list Z :=
  if (cp <? 65536)%Z then [cp]
  else [(55296 + Z.shiftr (cp - 65536) 10)%Z;
        (56320 + Z.land (cp - 65536) 1023)%Z].

(** Continuation bits of a UTF-8 byte. *)
Definition cont (b : Z) : Z := Z.land b 63.

(** The source file is UTF-8; its literals are read back as UTF-16. *)
Fixpoint decode (l : list Z) : t :=
  match l with
  | [] => []
  | b1 :: r1 =>
      if (b1 <? 128)%Z then b1 :: decode r1
      else match r1 with
      | [] => [b1]
      | b2 :: r2 =>
          if (b1 <? 224)%Z then
            units (Z.shiftl (Z.land b1 31) 6 + cont b2) ++ decode r2
          else match r2 with
          | [] => [b1; b2]
          | b3 :: r3 =>
              if (b1 <? 240)%Z then
                units (Z.shiftl (Z.land b1 15) 12
                       + Z.shiftl (cont b2) 6 + cont b3) ++ decode r3
              else match r3 with
              | [] => [b1; b2; b3]
              | b4 :: r4 =>
                  units (Z.shiftl (Z.land b1 7) 18
                         + Z.shiftl (cont b2) 12
                         + Z.shiftl (cont b3) 6 + cont b4) ++ decode r4
              end
          end
      end
  end.

(** A string literal of the source. *)
Definition lit (s : string) : t := decode (bytes s).

(** [s.length] *)
Definition length (s : t) : Z := Z.of_nat (List.length s).

(** WhiteSpace and LineTerminator code units (ECMAScript 12.2, 12.3):
    the characters [String.prototype.trim] strips. *)
Definition isWhiteSpace (c : Z) : bool :=
  ((9 <=? c) && (c <=? 13) || (c =? 32) || (c =? 160) || (c =? 5760)
   || (8192 <=? c) && (c <=? 8202) || (c =? 8232) || (c =? 8233)
   || (c =? 8239) || (c =? 8287) || (c =? 12288) || (c =? 65279))%Z.

Fixpoint trimStart (s : t) : t :=
  match s with
  | c :: r => if isWhiteSpace c then trimStart r else s
  | [] => []
  end.

Definition trimEnd (s : t) : t := rev (trimStart (rev s)).

(** [s.trim()] *)
Definition trim (s : t) : t := trimEnd (trimStart s).

Definition lowerUnit (c : Z) : Z :=
  if ((65 <=? c) && (c <=? 90))%Z then (c + 32)%Z else c.

Definition upperUnit (c : Z) : Z :=
  if ((97 <=? c) && (c <=? 122))%Z then (c - 32)%Z else c.

(** [s.toLowerCase()] and [s.toUpperCase()], on the Basic Latin letters.
    The handler only tests the lower-cased tone for membership in four
    all-ASCII words, and upper-cases the first letter of such a word;
    no character outside Basic Latin lower-cases to a letter of those
    words, so both tests agree with the full Unicode mapping. *)
Definition toLowerCase (s : t) : t := map lowerUnit s.
Definition toUpperCase (s : t) : t := map upperUnit s.

(** [s.charAt(0)] *)
Definition charAt0 (s : t) : t := firstn 1 s.

(** [s.slice(1)] *)
Definition slice1 (s : t) : t := skipn 1 s.

(** [parts.join(sep)] *)
Fixpoint join (sep : t) (parts : list t) : t :=
  match parts with
  | [] => []
  | [p] => p
  | p :: rest => p ++ sep ++ join sep rest
  end.

(** [arr.includes(s)] on an array of strings. *)
Definition includes (arr : list t) (s : t) : bool :=
  existsb (eqb s) arr.

(** Truthiness of a string: non-empty. *)
Definition truthy (s : t) : bool :=
  match s with [] => false | _ => true end.

(** What follows the first character of [s], when that character is [c]. *)
Definition expect (c : Z) (s : t) : option t :=
  match s with
  | x :: r => if (x =? c)%Z then Some r else None
  | [] => None
  end.

(** Decimal rendering of an integer. *)
Definition ofZ (z : Z) : t :=
  bytes (NilEmpty.string_of_int (Z.to_int z)).

End JsString.

Definition jsstring : Type := JsString.t.

(** [js "..."]: a string literal of the source. *)
Definition js (s : string) : jsstring := JsString.lit s.

Arguments js s%_string : simpl never.

(** ** Numbers *)

Module JsNumber.

Inductive t :=
| NaN
| Infinity (negative : bool)
| Finite (q : Q).

(** 2^e as a rational. *)
Definition pow2 (e : Z) : Q :=
  if (0 <=? e)%Z then inject_Z (2 ^ e)
  else Qmake 1 (Z.to_pos (2 ^ (- e))).

(** 10^e as a rational. *)
Definition pow10 (e : Z) : Q :=
  if (0 <=? e)%Z then inject_Z (10 ^ e)
  else Qmake 1 (Z.to_pos (10 ^ (- e))).

(** floor (log2 a) for a > 0 *)
Definition floorLog2 (a : Q) : Z :=
  let e := (Z.log2 (Qnum a) - Z.log2 (Zpos (Qden a)))%Z in
  if Qle_bool (pow2 e) a then e else (e - 1)%Z.

(** Nearest integer to a >= 0, ties to even. *)
Definition roundHalfEven (a : Q) : Z :=
  let n := Qnum a in
  let d := Zpos (Qden a) in
  let fl := (n / d)%Z in
  let r := (n mod d)%Z in
  match (2 * r ?= d)%Z with
  | Lt => fl
  | Gt => (fl + 1)%Z
  | Eq => if Z.even fl then fl else (fl + 1)%Z
  end.

(** The double nearest to a real (round to nearest, ties to even,
    53-bit significand, exponents -1022..1023, overflow to Infinity). *)
Definition roundToDouble (q : Q) : t :=
  if Qeq_bool q 0 then Finite 0
  else
    let a := Qabs q in
    let e := Z.max (floorLog2 a) (-1022) in
    let p := (e - 52)%Z in
    let k := roundHalfEven (a / pow2 p) in
    let v := Qred (inject_Z k * pow2 p) in
    if Qle_bool (pow2 1024) v then Infinity (negb (Qle_bool 0 q))
    else Finite (if Qle_bool 0 q then v else Qred (- v)).

Definition ofZ (z : Z) : t := roundToDouble (inject_Z z).

(** [Number.isInteger(x)] *)
Definition isInteger (x : t) : bool :=
  match x with
  | Finite q => (Z.rem (Qnum q) (Zpos (Qden q)) =? 0)%Z
  | _ => false
  end.

(** [Number.isFinite(x)] *)
Definition isFinite (x : t) : bool :=
  match x with Finite _ => true | _ => false end.

(** [x < y] *)
Definition ltb (x y : t) : bool :=
  match x, y with
  | NaN, _ | _, NaN => false
  | Infinity true, Infinity true => false
  | Infinity true, _ => true
  | _, Infinity true => false
  | Infinity false, _ => false
  | Finite _, Infinity false => true
  | Finite a, Finite b => negb (Qle_bool b a)
  end.

(** [x > y] *)
Definition gtb (x y : t) : bool := ltb y x.

(** [x * y] *)
Definition mul (x y : t) : t :=
  match x, y with
  | NaN, _ | _, NaN => NaN
  | Finite a, Finite b => roundToDouble (a * b)
  | Finite a, Infinity s | Infinity s, Finite a =>
      if Qeq_bool a 0 then NaN
      else Infinity (if Qle_bool 0 a then s else negb s)
  | Infinity s1, Infinity s2 => Infinity (xorb s1 s2)
  end.

(** Truthiness: neither zero nor NaN. *)
Definition truthy (x : t) : bool :=
  match x with
  | NaN => false
  | Infinity _ => true
  | Finite q => negb (Qeq_bool q 0)
  end.

(** The integer an integral double denotes. *)
Definition toZ (x : t) : Z :=
  match x with
  | Finite q => (Qnum q / Zpos (Qden q))%Z
  | _ => 0%Z
  end.

(** [String(x)] for an integral double below 10^21 in magnitude, for NaN
    and for the infinities.  The handler renders a number only after it
    has checked it to be an integer between 40 and 220 (see
    [maxCharsRejected]); the fractional case is never reached and is
    rendered by its integer part. *)
Definition toString (x : t) : jsstring :=
  match x with
  | NaN => js "NaN"
  | Infinity false => js "Infinity"
  | Infinity true => js "-Infinity"
  | Finite _ => JsString.ofZ (toZ x)
  end.

(** *** Numeric literals in strings *)

(** Value of a digit in a radix up to 16, if it is one. *)
Definition digitValue (radix c : Z) : option Z :=
  let v :=
    if ((48 <=? c) && (c <=? 57))%Z then (c - 48)%Z
    else if ((97 <=? c) && (c <=? 102))%Z then (c - 87)%Z
    else if ((65 <=? c) && (c <=? 70))%Z then (c - 55)%Z
    else 99%Z in
  if (v <? radix)%Z then Some v else None.

(** Leading digits of [s] in [radix], accumulated onto [acc]:
    the value, the number of digits read, and the rest. *)
Fixpoint digits (radix : Z) (acc : Z) (n : Z) (s : jsstring)
  : Z * Z * jsstring :=
  match s with
  | c :: r =>
      match digitValue radix c with
      | Some v => digits radix (acc * radix + v)%Z (n + 1)%Z r
      | None => (acc, n, s)
      end
  | [] => (acc, n, [])
  end.

(** Does [s] start with [p]? The rest if so. *)
Fixpoint stripPrefix (p s : jsstring) : option jsstring :=
  match p, s with
  | [], _ => Some s
  | a :: p', b :: s' => if (a =? b)%Z then stripPrefix p' s' else None
  | _ :: _, [] => None
  end.

(** An optional sign: [true] when negative. *)
Definition sign (s : jsstring) : bool * jsstring :=
  match JsString.expect 43 s, JsString.expect 45 s with
  | Some r, _ => (false, r)
  | None, Some r => (true, r)
  | None, None => (false, s)
  end.

(** ExponentPart, if one starts [s]: its value and the rest. *)
Definition exponentPart (s : jsstring) : Z * jsstring :=
  match JsString.expect 101 s, JsString.expect 69 s with
  | Some r, _ | None, Some r =>
      let '(neg, r1) := sign r in
      let '(v, n, r2) := digits 10 0 0 r1 in
      if (n =? 0)%Z then (0%Z, s)
      else ((if neg then - v else v)%Z, r2)
  | None, None => (0%Z, s)
  end.

(** The longest prefix of [s] that is a StrDecimalLiteral
    (ECMAScript 7.1.4.1.1): its value and the rest of [s]. *)
Definition strDecimalLiteral (s : jsstring) : option (t * jsstring) :=
  let '(neg, s1) := sign s in
  match stripPrefix (js "Infinity") s1 with
  | Some r => Some (Infinity neg, r)
  | None =>
      let '(i, ni, s2) := digits 10 0 0 s1 in
      let '(m, nf, s3) :=
        match JsString.expect 46 s2 with
        | Some r =>
            let '(m, nf, r') := digits 10 i 0 r in
            if ((ni =? 0) && (nf =? 0))%Z then (i, 0%Z, s2)
            else (m, nf, r')
        | None => (i, 0%Z, s2)
        end in
      if ((ni =? 0) && (nf =? 0))%Z then None
      else
        let '(e, s4) := exponentPart s3 in
        let v := (inject_Z m * pow10 (e - nf))%Q in
        Some (roundToDouble (if neg then - v else v), s4)
  end.

(** A NonDecimalIntegerLiteral: [0x], [0o] or [0b] and digits. *)
Definition nonDecimalIntegerLiteral (s : jsstring) : option t :=
  match JsString.expect 48 s with
  | Some (c :: r) =>
      let radix :=
        if ((c =? 120) || (c =? 88))%Z then 16%Z
        else if ((c =? 111) || (c =? 79))%Z then 8%Z
        else if ((c =? 98) || (c =? 66))%Z then 2%Z
        else 0%Z in
      if (radix =? 0)%Z then None
      else
        match digits radix 0 0 r with
        | (v, n, []) => if (n =? 0)%Z then None else Some (ofZ v)
        | _ => None
        end
  | _ => None
  end.

(** [Number(s)] on a string (StringToNumber, ECMAScript 7.1.4.1.1). *)
Definition ofString (s : jsstring) : t :=
  let s' := JsString.trim s in
  match s' with
  | [] => Finite 0
  | _ =>
      match nonDecimalIntegerLiteral s' with
      | Some v => v
      | None =>
          match strDecimalLiteral s' with
          | Some (v, []) => v
          | _ => NaN
          end
      end
  end.

(** [Number.parseFloat(s)] (ECMAScript 19.2.4). *)
Definition parseFloat (s : jsstring) : t :=
  match strDecimalLiteral (JsString.trimStart s) with
  | Some (v, _) => v
  | None => NaN
  end.

End JsNumber.

Definition number : Type := JsNumber.t.

Arguments JsNumber.roundToDouble q : simpl never.
Arguments JsNumber.ofZ z : simpl never.
Arguments JsNumber.mul x y : simpl never.
Arguments JsNumber.ofString s : simpl never.
Arguments JsNumber.parseFloat s : simpl never.

(** ** JSON values and [JSON.parse] *)

Module JSON.

Inductive t :=
| JNull
| JBool (b : bool)
| JNumber (n : number)
| JString (s : jsstring)
| JArray (elements : list t)
| JObject (members : list (jsstring * t)).

(** JSON whitespace: space, tab, line feed, carriage return. *)
Definition isWs (c : Z) : bool :=
  ((c =? 32) || (c =? 9) || (c =? 10) || (c =? 13))%Z.

Fixpoint skipWs (s : jsstring) : jsstring :=
  match s with
  | c :: r => if isWs c then skipWs r else s
  | [] => []
  end.

(** The character a single-letter escape stands for. *)
Definition escape (c : Z) : option Z :=
  if (c =? 34)%Z then Some 34%Z            (* quotation mark *)
  else if (c =? 92)%Z then Some 92%Z       (* reverse solidus *)
  else if (c =? 47)%Z then Some 47%Z       (* solidus *)
  else if (c =? 98)%Z then Some 8%Z        (* b: backspace *)
  else if (c =? 102)%Z then Some 12%Z      (* f: form feed *)
  else if (c =? 110)%Z then Some 10%Z      (* n: line feed *)
  else if (c =? 114)%Z then Some 13%Z      (* r: carriage return *)
  else if (c =? 116)%Z then Some 9%Z       (* t: tab *)
  else None.

Definition hex4 (a b c d : Z) : option Z :=
  match JsNumber.digitValue 16 a, JsNumber.digitValue 16 b,
        JsNumber.digitValue 16 c, JsNumber.digitValue 16 d with
  | Some x, Some y, Some z, Some w =>
      Some (((x * 16 + y) * 16 + z) * 16 + w)%Z
  | _, _, _, _ => None
  end.

(** The characters of a string literal, read after its opening quote,
    and what follows its closing quote. *)
Fixpoint stringBody (s : jsstring) : option (jsstring * jsstring) :=
  match s with
  | [] => None
  | c :: r =>
      if (c =? 34)%Z then Some ([], r)
      else if (c =? 92)%Z then
        match r with
        | [] => None
        | e :: r1 =>
            if (e =? 117)%Z then
              match r1 with
              | h1 :: h2 :: h3 :: h4 :: r2 =>
                  match hex4 h1 h2 h3 h4, stringBody r2 with
                  | Some u, Some (str, rest) => Some (u :: str, rest)
                  | _, _ => None
                  end
              | _ => None
              end
            else
              match escape e, stringBody r1 with
              | Some u, Some (str, rest) => Some (u :: str, rest)
              | _, _ => None
              end
        end
      else if (c <? 32)%Z then None
      else
        match stringBody r with
        | Some (str, rest) => Some (c :: str, rest)
        | None => None
        end
  end.

(** A JSON number: an optional minus sign; a zero, or digits that do
    not begin with a zero; optionally a point and digits; optionally an
    exponent.  Returns its value and what follows it. *)
Definition numberToken (s : jsstring) : option (number * jsstring) :=
  let '(neg, s1) :=
    match JsString.expect 45 s with
    | Some r => (true, r)
    | None => (false, s)
    end in
  let '(i, ni, s2) :=
    match JsString.expect 48 s1 with
    | Some r => (0%Z, 1%Z, r)
    | None => JsNumber.digits 10 0 0 s1
    end in
  if (ni =? 0)%Z then None
  else
    let '(m, nf, s3) :=
      match JsString.expect 46 s2 with
      | Some r =>
          let '(m, nf, r') := JsNumber.digits 10 i 0 r in
          if (nf =? 0)%Z then (i, 0%Z, s2) else (m, nf, r')
      | None => (i, 0%Z, s2)
      end in
    let '(e, s4) := JsNumber.exponentPart s3 in
    let v := (inject_Z m * JsNumber.pow10 (e - nf))%Q in
    Some (JsNumber.roundToDouble (if neg then - v else v), s4).

(** A value that is neither a string, an array nor an object: one of the
    three literals, or a number. *)
Definition scalar (s : jsstring) : option (t * jsstring) :=
  match JsNumber.stripPrefix (js "true") s,
        JsNumber.stripPrefix (js "false") s,
        JsNumber.stripPrefix (js "null") s with
  | Some rest, _, _ => Some (JBool true, rest)
  | None, Some rest, _ => Some (JBool false, rest)
  | None, None, Some rest => Some (JNull, rest)
  | None, None, None =>
      match numberToken s with
      | Some (n, rest) => Some (JNumber n, rest)
      | None => None
      end
  end.

(** Recursive descent; every call spends one unit of [fuel]. *)
Fixpoint value (fuel : nat) (s : jsstring) : option (t * jsstring) :=
  match fuel with
  | O => None
  | S f =>
      match JsString.expect 34 (skipWs s),
            JsString.expect 91 (skipWs s),
            JsString.expect 123 (skipWs s) with
      | Some r, _, _ =>                                   (* a string *)
          match stringBody r with
          | Some (str, rest) => Some (JString str, rest)
          | None => None
          end
      | None, Some r, _ =>                                (* an array *)
          match JsString.expect 93 (skipWs r) with
          | Some rest => Some (JArray [], rest)
          | None =>
              match elements f (skipWs r) with
              | Some (l, rest) => Some (JArray l, rest)
              | None => None
              end
          end
      | None, None, Some r =>                             (* an object *)
          match JsString.expect 125 (skipWs r) with
          | Some rest => Some (JObject [], rest)
          | None =>
              match members f (skipWs r) with
              | Some (l, rest) => Some (JObject l, rest)
              | None => None
              end
          end
      | None, None, None => scalar (skipWs s)
      end
  end

(** The elements of an array after its opening bracket, up to and with
    its closing bracket. *)
with elements (fuel : nat) (s : jsstring) : option (list t * jsstring) :=
  match fuel with
  | O => None
  | S f =>
      match value f s with
      | Some (v, r) =>
          match JsString.expect 44 (skipWs r),
                JsString.expect 93 (skipWs r) with
          | Some r', _ =>
              match elements f r' with
              | Some (l, rest) => Some (v :: l, rest)
              | None => None
              end
          | None, Some rest => Some ([v], rest)
          | None, None => None
          end
      | None => None
      end
  end

(** The members of an object after its opening brace, up to and with its
    closing brace. *)
with members (fuel : nat) (s : jsstring)
  : option (list (jsstring * t) * jsstring) :=
  match fuel with
  | O => None
  | S f =>
      match JsString.expect 34 (skipWs s) with
      | Some r =>
          match stringBody r with
          | Some (key, r1) =>
              match JsString.expect 58 (skipWs r1) with
              | Some r2 =>
                  match value f r2 with
                  | Some (v, r3) =>
                      match JsString.expect 44 (skipWs r3),
                            JsString.expect 125 (skipWs r3) with
                      | Some r4, _ =>
                          match members f r4 with
                          | Some (l, rest) => Some ((key, v) :: l, rest)
                          | None => None
                          end
                      | None, Some rest => Some ([(key, v)], rest)
                      | None, None => None
                      end
                  | None => None
                  end
              | None => None
              end
          | None => None
          end
      | None => None
      end
  end.

(** [JSON.parse(text)]: [None] when it throws a SyntaxError.  The fuel is
    never what makes it fail: see [parse_complete]. *)
Definition parse (text : jsstring) : option t :=
  match value (2 * List.length text + 2) text with
  | Some (v, rest) =>
      match skipWs rest with
      | [] => Some v
      | _ => None
      end
  | None => None
  end.

(** Own property [key] of a parsed value ([undefined] is [None]).  In an
    object literal with a repeated key the last occurrence wins.  The
    property names the handler reads ([items], [text], [hashtags]) exist
    on no prototype, so reading them off a string, number, boolean or
    array gives [undefined]. *)
Definition get (v : t) (key : jsstring) : option t :=
  match v with
  | JObject members =>
      fold_left
        (fun acc kv => if JsString.eqb (fst kv) key then Some (snd kv) else acc)
        members None
  | _ => None
  end.

(** Truthiness of a value. *)
Definition truthy (v : t) : bool :=
  match v with
  | JNull => false
  | JBool b => b
  | JNumber n => JsNumber.truthy n
  | JString s => JsString.truthy s
  | JArray _ | JObject _ => true
  end.

End JSON.

Definition json : Type := JSON.t.

(** ** The request: multipart form data, files, the environment *)

Module Web.

(** A [File]: its MIME type, its size in bytes and its content. *)
Record File := { type : jsstring; size : Z; arrayBuffer : list Z }.

(** [FormDataEntryValue]: a string or a file. *)
Inductive FormDataEntryValue :=
| EntryString (s : jsstring)
| EntryFile (f : File).

Definition FormData : Type := list (jsstring * FormDataEntryValue).

(** [formData.get(name)]: the first entry of that name, or [null]. *)
Fixpoint get (formData : FormData) (name : jsstring)
  : option FormDataEntryValue :=
  match formData with
  | [] => None
  | (k, v) :: rest => if JsString.eqb k name then Some v else get rest name
  end.

(** [value === literal] for what [formData.get] returned. *)
Definition isString (value : option FormDataEntryValue) (literal : jsstring)
  : bool :=
  match value with
  | Some (EntryString s) => JsString.eqb s literal
  | _ => false
  end.

Definition base64Digit (i : Z) : Z :=
  if (i <? 26)%Z then (65 + i)%Z
  else if (i <? 52)%Z then (97 + (i - 26))%Z
  else if (i <? 62)%Z then (48 + (i - 52))%Z
  else if (i =? 62)%Z then 43%Z
  else 47%Z.

(** [Buffer.from(bytes).toString("base64")] *)
Fixpoint base64 (bytes : list Z) : jsstring :=
  match bytes with
  | [] => []
  | [a] =>
      [base64Digit (Z.shiftr a 2);
       base64Digit (Z.shiftl (Z.land a 3) 4); 61%Z; 61%Z]
  | [a; b] =>
      [base64Digit (Z.shiftr a 2);
       base64Digit (Z.lor (Z.shiftl (Z.land a 3) 4) (Z.shiftr b 4));
       base64Digit (Z.shiftl (Z.land b 15) 2); 61%Z]
  | a :: b :: c :: rest =>
      [base64Digit (Z.shiftr a 2);
       base64Digit (Z.lor (Z.shiftl (Z.land a 3) 4) (Z.shiftr b 4));
       base64Digit (Z.lor (Z.shiftl (Z.land b 15) 2) (Z.shiftr c 6));
       base64Digit (Z.land c 63)] ++ base64 rest
  end.

(** What [NextResponse.json(body, { status })] answers. *)
Record Response := { status : Z; body : json }.

End Web.

(** ** The provider client *)

Module OpenAI.

(** *** Chat messages *)

Inductive Role := system | user | assistant.

Inductive ContentPart :=
| text_part (text : jsstring)
| image_url_part (url : jsstring).

Inductive MessageContent :=
| content_string (s : jsstring)
| content_parts (parts : list ContentPart).

Record ChatCompletionMessageParam :=
  { role : Role; content : MessageContent }.

(** *** Thrown values *)

(** The class of a thrown error.  [RateLimitError] extends [APIError];
    the other subclasses of [APIError] are told apart by [status]. *)
Inductive ErrorClass :=
| PlainError | TypeError | SyntaxError | APIError | RateLimitError.

(** An error: its class, its message, its [status] property if it has
    one, and what [headers?.get?.("retry-after")] gives on it. *)
Record JsError :=
  { cls : ErrorClass;
    message : jsstring;
    status : option Z;
    retryAfter : option jsstring }.

(** [new Error(message)] *)
Definition newError (message : jsstring) : JsError :=
  {| cls := PlainError; message := message;
     status := None; retryAfter := None |}.

(** [error instanceof OpenAI.APIError] *)
Definition instanceofAPIError (e : JsError) : bool :=
  match cls e with APIError | RateLimitError => true | _ => false end.

(** [error instanceof OpenAI.RateLimitError] *)
Definition instanceofRateLimitError (e : JsError) : bool :=
  match cls e with RateLimitError => true | _ => false end.

(** [error.status === n] *)
Definition statusIs (e : JsError) (n : Z) : bool :=
  match status e with Some s => (s =? n)%Z | None => false end.

(** *** Replies *)

(** An element of an array-valued content. *)
Inductive Part :=
| PartString (s : jsstring)
| PartObject (text : option jsstring).

(** The value of [response.choices[0]?.message?.content]. *)
Inductive Content :=
| Nullish                                  (* undefined or null *)
| Str (s : jsstring)
| Arr (parts : list Part)
| Other (truthy : bool) (rendered : jsstring).
                        (* any other value and what [String] makes of it *)

(** One provider attempt resolves with a reply or rejects. *)
Inductive Outcome :=
| Resolved (content : Content)
| Rejected (error : JsError).

(** What the handler does to the outside world, in order. *)
Inductive Event :=
| Create (messages : list ChatCompletionMessageParam)
| Sleep (durationMs : number).

(** The provider: its reply to a request may depend on everything that
    happened before. *)
Definition Provider : Type :=
  list Event -> list ChatCompletionMessageParam -> Outcome.

End OpenAI.

Import OpenAI.

(* ================================================================== *)
(** * Part II. Effects                                                 *)
(* ================================================================== *)

(** How a computation ends. *)
Inductive Completion (A : Type) :=
| Normal (a : A)
| Throw (e : JsError).

Arguments Normal {A} a.
Arguments Throw {A} e.

(** The state a request runs in: the [mode] variable of [POST] (assigned
    inside its [try], read inside its [catch]) and the events so far. *)
Record State := { mode : option jsstring; events : list Event }.

Definition initial : State := {| mode := None; events := [] |}.

Definition M (A : Type) : Type := State -> Completion A * State.

Definition ret {A} (a : A) : M A := fun st => (Normal a, st).

Definition throw {A} (e : JsError) : M A := fun st => (Throw e, st).

Definition bind {A B} (m : M A) (k : A -> M B) : M B :=
  fun st =>
    match m st with
    | (Normal a, st') => k a st'
    | (Throw e, st') => (Throw e, st')
    end.

(** [try { m } catch (error) { handler }] *)
Definition try_catch {A} (m : M A) (handler : JsError -> M A) : M A :=
  fun st =>
    match m st with
    | (Normal a, st') => (Normal a, st')
    | (Throw e, st') => handler e st'
    end.

Definition lift {A} (c : Completion A) : M A := fun st => (c, st).

Definition getMode : M (option jsstring) := fun st => (Normal (mode st), st).

Definition setMode (m : option jsstring) : M unit :=
  fun st => (Normal tt, {| mode := m; events := events st |}).

Definition emit (ev : Event) : M unit :=
  fun st => (Normal tt, {| mode := mode st; events := events st ++ [ev] |}).

Declare Scope js_scope.
Delimit Scope js_scope with js.
Notation "x <- m ;; k" := (bind m (fun x => k))
  (at level 61, m at next level, right associativity) : js_scope.
Notation "m ;; k" := (bind m (fun _ => k))
  (at level 61, right associativity) : js_scope.
Notation "'try' m 'catch' h" := (try_catch m h)
  (at level 60, m at level 61, h at level 61) : js_scope.
Open Scope js_scope.

(* ================================================================== *)
(** * Part III. The route [src/app/api/captions/route.ts]              *)
(* ================================================================== *)

Import JSON.

Module CaptionItem.
Record t := { text : jsstring; hashtags : jsstring }.
End CaptionItem.

Module BioItem.
Record t := { text : jsstring }.
End BioItem.

Definition allowedTones : list jsstring :=
  [js "funny"; js "poetic"; js "classy"; js "branded"].

Definition systemPrompt : jsstring :=
  js "You are Caption Coach, a sharp and safe social media copywriter. You write concise, engaging, brand-safe captions or short bios. Keep everything family-friendly and culturally respectful. Avoid medical/financial claims, controversial topics, and disallowed hashtags.".

Definition maxCaptionGuidanceLength : Z := 280.
Definition minBioGuidanceLength : Z := 10.
Definition maxBioGuidanceLength : Z := 400.
Definition maxCharsMin : Z := 40.
Definition maxCharsMax : Z := 220.

Definition MAX_OPENAI_ATTEMPTS : nat := 3.

(** ** The provider gateway *)

Section Gateway.

Variable provider : Provider.

(** [await openai.chat.completions.create({ ..., messages })], reduced
    to the content of the first choice. *)
Definition create (messages : list ChatCompletionMessageParam)
  : M Content :=
  fun st =>
    let st' := {| mode := mode st;
                  events := events st ++ [Create messages] |} in
    match provider (events st) messages with
    | Resolved content => (Normal content, st')
    | Rejected error => (Throw error, st')
    end.

(** [await sleep(durationMs)] *)
Definition sleep (durationMs : number) : M unit := emit (Sleep durationMs).

(** [!content] *)
Definition emptyContent (content : Content) : bool :=
  match content with
  | Nullish => true
  | Str s => negb (JsString.truthy s)
  | Arr _ => false
  | Other truthy _ => negb truthy
  end.

(** The text of one element of an array-valued content. *)
Definition partText (part : Part) : jsstring :=
  match part with
  | PartString s => s
  | PartObject (Some t) => if JsString.truthy t then t else []
  | PartObject None => []
  end.

(** What the attempt returns for a non-empty content: the string, the
    joined parts of an array, or [String(content)], trimmed. *)
Definition contentText (content : Content) : jsstring :=
  match content with
  | Str s => JsString.trim s
  | Arr parts => JsString.trim (JsString.join [10%Z] (map partText parts))
  | Other _ rendered => JsString.trim rendered
  | Nullish => JsString.trim (js "null")   (* not reached: it is empty *)
  end.

(** The [try] block of one attempt. *)
Definition attemptBody (messages : list ChatCompletionMessageParam)
  : M jsstring :=
  content <- create messages ;;
  if emptyContent content then
    throw (newError (js "Empty response from model"))
  else ret (contentText content).

(** The rate-limit test of the [catch] block. *)
Definition isRateLimit (error : JsError) : bool :=
  instanceofRateLimitError error || statusIs error 429.

(** The back-off the [catch] block computes, in seconds. *)
Definition waitSeconds (error : JsError) : number :=
  let retryAfterHeader := retryAfter error in
  let retryAfterSeconds :=
    match retryAfterHeader with
    | Some h => if JsString.truthy h then JsNumber.parseFloat h
                else JsNumber.NaN
    | None => JsNumber.NaN
    end in
  if JsNumber.isFinite retryAfterSeconds
     && JsNumber.gtb retryAfterSeconds (JsNumber.ofZ 0)
  then retryAfterSeconds
  else JsNumber.ofZ 20.

(** How one iteration of the attempt loop leaves the loop body. *)
Inductive Iteration :=
| Returned (raw : jsstring)          (* [return] out of the function *)
| Broke (lastError : JsError)        (* [break] *)
| Continued (lastError : JsError).   (* [continue] *)

(** One iteration: the [try] block and its [catch]. *)
Definition iteration (attempt : nat)
           (messages : list ChatCompletionMessageParam) : M Iteration :=
  try (raw <- attemptBody messages ;; ret (Returned raw))
  catch (fun error =>
    (* lastError = error *)
    if isRateLimit error then
      let wait := waitSeconds error in
      if Nat.eqb attempt MAX_OPENAI_ATTEMPTS then ret (Broke error)
      else
        sleep (JsNumber.mul wait (JsNumber.ofZ 1000)) ;;
        ret (Continued error)
    else throw error).

(** [throw lastError ?? new Error("OpenAI request failed")] *)
Definition throwLast {A} (lastError : option JsError) : M A :=
  match lastError with
  | Some e => throw e
  | None => throw (newError (js "OpenAI request failed"))
  end.

(** The [for] loop over the attempt numbers still to run. *)
Fixpoint attempts (numbers : list nat) (lastError : option JsError)
         (messages : list ChatCompletionMessageParam) : M jsstring :=
  match numbers with
  | [] => throwLast lastError
  | attempt :: rest =>
      step <- iteration attempt messages ;;
      match step with
      | Returned raw => ret raw
      | Broke error => throwLast (Some error)
      | Continued error => attempts rest (Some error) messages
      end
  end.

(** [for (let attempt = 1; attempt <= MAX_OPENAI_ATTEMPTS; attempt += 1)] *)
Definition callOpenAI (messages : list ChatCompletionMessageParam)
  : M jsstring :=
  attempts (seq 1 MAX_OPENAI_ATTEMPTS) None messages.

End Gateway.

(** ** The response parsers *)

(** [JSON.parse(raw)], throwing a SyntaxError (whose message is the
    engine's; nothing reads it). *)
Definition JSON_parse (raw : jsstring) : Completion json :=
  match JSON.parse raw with
  | Some v => Normal v
  | None =>
      Throw {| cls := SyntaxError; message := js "Unexpected token";
               status := None; retryAfter := None |}
  end.

(** [typeof v === "string"] for a property read off a parsed value. *)
Definition asString (v : option json) : option jsstring :=
  match v with
  | Some (JString s) => Some s
  | _ => None
  end.

(** [!parsed?.items || !Array.isArray(parsed.items) ||
     parsed.items.length !== n]: the array when the test is false. *)
Definition itemsOfLength (parsed : json) (n : nat) : option (list json) :=
  match JSON.get parsed (js "items") with
  | None => None
  | Some items =>
      if negb (JSON.truthy items) then None
      else
        match items with
        | JArray l => if Nat.eqb (List.length l) n then Some l else None
        | _ => None
        end
  end.

(** [items.map(f)] for an [f] that may throw: the first throw wins. *)
Fixpoint mapThrowing {A B} (f : A -> Completion B) (l : list A)
  : Completion (list B) :=
  match l with
  | [] => Normal []
  | x :: rest =>
      match f x with
      | Throw e => Throw e
      | Normal y =>
          match mapThrowing f rest with
          | Throw e => Throw e
          | Normal ys => Normal (y :: ys)
          end
      end
  end.

(** The callback of [parseCaptionsPayload]. *)
Definition captionItem (item : json) : Completion CaptionItem.t :=
  if negb (JSON.truthy item) then
    Throw (newError (js "Invalid caption item"))
  else
    match asString (JSON.get item (js "text")),
          asString (JSON.get item (js "hashtags")) with
    | Some t, Some h =>
        Normal {| CaptionItem.text := JsString.trim t;
                  CaptionItem.hashtags := JsString.trim h |}
    | _, _ => Throw (newError (js "Invalid caption item"))
    end.

Definition parseCaptionsPayload (raw : jsstring)
  : Completion (list CaptionItem.t) :=
  match JSON_parse raw with
  | Throw e => Throw e
  | Normal parsed =>
      match itemsOfLength parsed 5 with
      | None => Throw (newError (js "Invalid captions payload"))
      | Some items => mapThrowing captionItem items
      end
  end.

(** The callback of [parseBioPayload]. *)
Definition bioItem (item : json) : Completion BioItem.t :=
  if negb (JSON.truthy item) then Throw (newError (js "Invalid bio item"))
  else
    match asString (JSON.get item (js "text")) with
    | Some t => Normal {| BioItem.text := JsString.trim t |}
    | None => Throw (newError (js "Invalid bio item"))
    end.

Definition parseBioPayload (raw : jsstring) : Completion (list BioItem.t) :=
  match JSON_parse raw with
  | Throw e => Throw e
  | Normal parsed =>
      match itemsOfLength parsed 3 with
      | None => Throw (newError (js "Invalid bio payload"))
      | Some items => mapThrowing bioItem items
      end
  end.

(** ** The fallback catalog *)

Definition buildFallbackCaptions : list CaptionItem.t :=
  [ {| CaptionItem.text := js "Fresh perspective coming your way—stay tuned for the full story behind this shot.";
       CaptionItem.hashtags := js "#behindthescenes #brandmoments #staytuned #socialready #captioncoach #storyteaser #creativepulse #shareworthy" |};
    {| CaptionItem.text := js "Setting the scene with style while we polish the perfect caption for your feed.";
       CaptionItem.hashtags := js "#freshcaption #feedgoals #styleinspo #captioncoach #brandvibes #contentcrew #socialspark #stayready" |};
    {| CaptionItem.text := js "A dose of personality is on deck—your tailored caption will land the moment the coach is ready.";
       CaptionItem.hashtags := js "#captionscoming #brandvoice #socialenergy #captioncoach #contentmagic #creativeflow #onbrand #watchthisspace" |};
    {| CaptionItem.text := js "We are lining up details that hit the right tone—this placeholder keeps the post warm.";
       CaptionItem.hashtags := js "#tonecheck #brandready #captioncoach #socialsuite #creativeprep #marketingmadeeasy #contentqueue #comingsoon" |};
    {| CaptionItem.text := js "This space is saving your prime caption real estate while the coach finalizes the perfect copy.";
       CaptionItem.hashtags := js "#captioncoach #socialcaption #brandspotlight #contentstudio #marketingflow #creativeprep #stayposted #copyinprogress" |} ].

Definition buildFallbackBios : list BioItem.t :=
  [ {| BioItem.text := js "Creating feel-good moments while celebrating the details that make this story unique." |};
    {| BioItem.text := js "Sharing the highlights with warmth, purpose, and a spark of personality in every line." |};
    {| BioItem.text := js "Telling the brand story with heart, clarity, and a voice that feels true to you." |} ].

(** ** Prompts *)

(** The empty string, an empty line of a prompt. *)
Definition emptyLine : jsstring := [].

(** A double-quoted word inside a prompt line. *)
Definition quoted (s : jsstring) : jsstring := [34%Z] ++ s ++ [34%Z].

(** [`${tone.charAt(0).toUpperCase()}${tone.slice(1)}`] *)
Definition capitalized (tone : jsstring) : jsstring :=
  JsString.toUpperCase (JsString.charAt0 tone) ++ JsString.slice1 tone.

(** [`${maxChars ?? "none"}`] *)
Definition maxCharsOrNone (maxChars : option number) : jsstring :=
  match maxChars with
  | Some n => JsNumber.toString n
  | None => js "none"
  end.

Definition captionsInstruction (tone : jsstring) (maxChars : option number)
           (guidance : jsstring) : jsstring :=
  JsString.join [10%Z]
    [ js "Task: Create exactly FIVE distinct, platform-ready captions for the provided image with the chosen tone and optional character limit. If guidance is provided, weave it naturally.";
      emptyLine;
      js "Parameters:";
      js "- Tone: " ++ capitalized tone;
      js "- Max characters: " ++ maxCharsOrNone maxChars;
      js "- Guidance (optional): "
        ++ (if JsString.truthy guidance then guidance else js "none");
      emptyLine;
      js "Constraints for each caption:";
      js "- One sentence only. If Max characters is set, do not exceed it.";
      js "- Avoid emoji unless Tone=Funny (max 2).";
      js "- No brand claims or sensitive content.";
      js "- Make the five captions meaningfully different in angle (humor, vibe, CTA).";
      js "- If Guidance is provided, incorporate it naturally in at least two captions.";
      emptyLine;
      js "Hashtags:";
      js "- After each caption, create one line with 8–12 relevant hashtags.";
      js "- Lowercase; no spammy/banned tags; avoid repetition.";
      emptyLine;
      js "Output EXACTLY in JSON:";
      js "{";
      js "  " ++ quoted (js "items") ++ js ": [";
      js "    { " ++ quoted (js "text") ++ js ": " ++ quoted (js "caption #1")
        ++ js ", " ++ quoted (js "hashtags") ++ js ": "
        ++ quoted (js "#tag1 #tag2 #tag3 ...") ++ js " },";
      js "    { " ++ quoted (js "text") ++ js ": " ++ quoted (js "caption #2")
        ++ js ", " ++ quoted (js "hashtags") ++ js ": "
        ++ quoted (js "...") ++ js " },";
      js "    { " ++ quoted (js "text") ++ js ": " ++ quoted (js "caption #3")
        ++ js ", " ++ quoted (js "hashtags") ++ js ": "
        ++ quoted (js "...") ++ js " },";
      js "    { " ++ quoted (js "text") ++ js ": " ++ quoted (js "caption #4")
        ++ js ", " ++ quoted (js "hashtags") ++ js ": "
        ++ quoted (js "...") ++ js " },";
      js "    { " ++ quoted (js "text") ++ js ": " ++ quoted (js "caption #5")
        ++ js ", " ++ quoted (js "hashtags") ++ js ": "
        ++ quoted (js "...") ++ js " }";
      js "  ]";
      js "}" ].

Definition bioInstruction (effectiveTone : jsstring)
           (maxChars : option number) (guidance : jsstring) : jsstring :=
  JsString.join [10%Z]
    [ js "Task: Create exactly THREE concise, polished bios/captions crafted from the user's About text.";
      js "If a tone is provided, match it. Optionally respect a character limit.";
      emptyLine;
      js "Parameters:";
      js "- Tone (optional): " ++ capitalized effectiveTone;
      js "- Max characters: " ++ maxCharsOrNone maxChars;
      js "- About: " ++ guidance;
      emptyLine;
      js "Constraints:";
      js "- Each output is one to two short sentences.";
      js "- If Max characters is set, do not exceed it.";
      js "- Keep it brand-safe, inclusive, and specific to the provided About text.";
      js "- Vary the three options in angle (professional, personable, playful) while respecting Tone.";
      emptyLine;
      js "Output EXACTLY in JSON:";
      js "{";
      js "  " ++ quoted (js "items") ++ js ": [";
      js "    { " ++ quoted (js "text") ++ js ": " ++ quoted (js "bio #1")
        ++ js " },";
      js "    { " ++ quoted (js "text") ++ js ": " ++ quoted (js "bio #2")
        ++ js " },";
      js "    { " ++ quoted (js "text") ++ js ": " ++ quoted (js "bio #3")
        ++ js " }";
      js "  ]";
      js "}" ].

(** The first request of captions mode: the system prompt, then the
    instruction with the image attached as a data URL. *)
Definition captionsMessages (tone : jsstring) (maxChars : option number)
           (guidance : jsstring) (image : Web.File)
  : list ChatCompletionMessageParam :=
  let base64Image := Web.base64 (Web.arrayBuffer image) in
  let dataUrl :=
    js "data:" ++ Web.type image ++ js ";base64," ++ base64Image in
  let instruction := captionsInstruction tone maxChars guidance in
  [ {| role := system; content := content_string systemPrompt |};
    {| role := user;
       content := content_parts [text_part instruction;
                                 image_url_part dataUrl] |} ].

(** The corrective request of captions mode. *)
Definition captionsRetryMessages
           (messages : list ChatCompletionMessageParam) (raw : jsstring)
  : list ChatCompletionMessageParam :=
  messages ++
  [ {| role := assistant; content := content_string raw |};
    {| role := user;
       content := content_parts
         [text_part (js "The previous reply was invalid. Respond again with VALID JSON matching the exact schema. Include no commentary.")] |} ].

(** The first request of bio mode. *)
Definition bioMessages (effectiveTone : jsstring) (maxChars : option number)
           (guidance : jsstring) : list ChatCompletionMessageParam :=
  let instruction := bioInstruction effectiveTone maxChars guidance in
  [ {| role := system; content := content_string systemPrompt |};
    {| role := user; content := content_string instruction |} ].

(** The corrective request of bio mode. *)
Definition bioRetryMessages
           (messages : list ChatCompletionMessageParam) (raw : jsstring)
  : list ChatCompletionMessageParam :=
  messages ++
  [ {| role := assistant; content := content_string raw |};
    {| role := user;
       content := content_string (js "The previous reply was invalid. Respond again with VALID JSON matching the schema. Include no commentary.") |} ].

(** ** Responses *)

Definition Response : Type := Web.Response.

(** [NextResponse.json(body, { status })] *)
Definition NextResponse_json (body : json) (status : Z) : Response :=
  {| Web.status := status; Web.body := body |}.

Definition errorBody (message : jsstring) : json :=
  JObject [(js "error", JString message)].

Definition captionItemJson (item : CaptionItem.t) : json :=
  JObject [(js "text", JString (CaptionItem.text item));
           (js "hashtags", JString (CaptionItem.hashtags item))].

Definition bioItemJson (item : BioItem.t) : json :=
  JObject [(js "text", JString (BioItem.text item))].

(** [{ mode, items }] for caption items. *)
Definition captionsBody (mode : jsstring) (items : list CaptionItem.t)
  : json :=
  JObject [(js "mode", JString mode);
           (js "items", JArray (map captionItemJson items))].

(** [{ mode, items }] for bio items. *)
Definition biosBody (mode : jsstring) (items : list BioItem.t) : json :=
  JObject [(js "mode", JString mode);
           (js "items", JArray (map bioItemJson items))].

Definition invalidInput : Response :=
  NextResponse_json (errorBody (js "Invalid input")) 400.

(** ** The request *)

(** A request: its multipart form, or [None] when the body is not one. *)
Record Request := { form : option Web.FormData }.

(** [await request.formData()]: resolves with the form, or rejects with a
    TypeError when the body cannot be read as one. *)
Definition formData (request : Request) : Completion Web.FormData :=
  match form request with
  | Some fd => Normal fd
  | None =>
      Throw {| cls := TypeError; message := js "Failed to parse body as FormData.";
               status := None; retryAfter := None |}
  end.

(** [typeof value === "string"] for what [formData.get] returned. *)
Definition entryString (value : option Web.FormDataEntryValue)
  : option jsstring :=
  match value with
  | Some (Web.EntryString s) => Some s
  | _ => None
  end.

(** [value instanceof File] for what [formData.get] returned. *)
Definition entryFile (value : option Web.FormDataEntryValue)
  : option Web.File :=
  match value with
  | Some (Web.EntryFile f) => Some f
  | _ => None
  end.

(** [tone]: the lower-cased field, or [undefined]. *)
Definition toneOf (fd : Web.FormData) : option jsstring :=
  match entryString (Web.get fd (js "tone")) with
  | Some toneRaw => Some (JsString.toLowerCase toneRaw)
  | None => None
  end.

(** [guidance]: the trimmed field, or the empty string. *)
Definition guidanceOf (fd : Web.FormData) : jsstring :=
  match entryString (Web.get fd (js "guidance")) with
  | Some guidanceRaw => JsString.trim guidanceRaw
  | None => []
  end.

(** [maxChars]: [Number] of the field when it is a non-empty string. *)
Definition maxCharsOf (fd : Web.FormData) : option number :=
  match entryString (Web.get fd (js "maxChars")) with
  | Some maxCharsRaw =>
      if (JsString.length maxCharsRaw >? 0)%Z
      then Some (JsNumber.ofString maxCharsRaw)
      else None
  | None => None
  end.

(** [maxChars !== undefined && (!Number.isInteger(maxChars) ||
     maxChars < maxCharsMin || maxChars > maxCharsMax)] *)
Definition maxCharsRejected (maxChars : option number) : bool :=
  match maxChars with
  | None => false
  | Some n =>
      negb (JsNumber.isInteger n)
      || JsNumber.ltb n (JsNumber.ofZ maxCharsMin)
      || JsNumber.gtb n (JsNumber.ofZ maxCharsMax)
  end.

(** [!tone] *)
Definition noTone (tone : option jsstring) : bool :=
  match tone with
  | Some s => negb (JsString.truthy s)
  | None => true
  end.

(** [allowedTones.includes(tone)] *)
Definition toneAllowed (tone : option jsstring) : bool :=
  match tone with
  | Some s => JsString.includes allowedTones s
  | None => false
  end.

(** [tone && allowedTones.includes(tone) ? tone : "classy"] *)
Definition effectiveToneOf (tone : option jsstring) : jsstring :=
  match tone with
  | Some s =>
      if JsString.truthy s && JsString.includes allowedTones s then s
      else js "classy"
  | None => js "classy"
  end.

(** ** The handler *)

Section Handler.

(** [process.env.OPENAI_API_KEY], and the provider behind the client
    [openai] the module builds when it is loaded: what the handler sees of
    it is [openai.chat.completions.create]. *)
Variable OPENAI_API_KEY : option jsstring.
Variable provider : Provider.

(** [!process.env.OPENAI_API_KEY] *)
Definition noApiKey : bool :=
  match OPENAI_API_KEY with
  | Some key => negb (JsString.truthy key)
  | None => true
  end.

(** Captions mode from the first provider call to the response:
    generate, parse, and on a parse failure one corrective cycle. *)
Definition captionsGeneration (mode : jsstring)
           (messages : list ChatCompletionMessageParam) : M Response :=
  raw <- callOpenAI provider messages ;;
  items <-
    (try lift (parseCaptionsPayload raw)
     catch (fun _ =>
       let retryMessages := captionsRetryMessages messages raw in
       try (raw' <- callOpenAI provider retryMessages ;;
            lift (parseCaptionsPayload raw'))
       catch (fun _ => ret buildFallbackCaptions))) ;;
  ret (NextResponse_json (captionsBody mode items) 200).

(** Captions mode, from the tone check on. *)
Definition captionsMode (mode : jsstring) (fd : Web.FormData)
           (tone : option jsstring) (guidance : jsstring)
           (maxChars : option number) : M Response :=
  if noTone tone || negb (toneAllowed tone) then ret invalidInput
  else if (JsString.length guidance >? maxCaptionGuidanceLength)%Z
  then ret invalidInput
  else
    match entryFile (Web.get fd (js "image")) with
    | None => ret invalidInput
    | Some image =>
        if negb (JsString.includes [js "image/png"; js "image/jpeg"]
                                   (Web.type image))
        then ret invalidInput
        else if (Web.size image >? 3 * 1024 * 1024)%Z
        then ret invalidInput
        else
          let messages :=
            captionsMessages (match tone with Some t => t | None => [] end)
                             maxChars guidance image in
          captionsGeneration mode messages
    end.

(** Bio mode from the first provider call to the response. *)
Definition bioGeneration (mode : jsstring)
           (messages : list ChatCompletionMessageParam) : M Response :=
  raw <- callOpenAI provider messages ;;
  items <-
    (try lift (parseBioPayload raw)
     catch (fun _ =>
       let retryMessages := bioRetryMessages messages raw in
       try (raw' <- callOpenAI provider retryMessages ;;
            lift (parseBioPayload raw'))
       catch (fun _ => ret buildFallbackBios))) ;;
  ret (NextResponse_json (biosBody mode items) 200).

(** Bio mode, from the guidance check on. *)
Definition bioMode (mode : jsstring) (tone : option jsstring)
           (guidance : jsstring) (maxChars : option number) : M Response :=
  if ((JsString.length guidance <? minBioGuidanceLength)
      || (JsString.length guidance >? maxBioGuidanceLength))%Z
  then ret invalidInput
  else if negb (noTone tone) && negb (toneAllowed tone)
  then ret invalidInput
  else
    let effectiveTone := effectiveToneOf tone in
    let messages := bioMessages effectiveTone maxChars guidance in
    bioGeneration mode messages.

(** The [try] block of [POST]. *)
Definition tryBlock (request : Request) : M Response :=
  fd <- lift (formData request) ;;
  let modeValue := Web.get fd (js "mode") in
  if negb (Web.isString modeValue (js "captions"))
     && negb (Web.isString modeValue (js "bio"))
  then ret invalidInput
  else
    let mode := match entryString modeValue with
                | Some m => m
                | None => []
                end in
    setMode (Some mode) ;;
    if noApiKey then
      if JsString.eqb mode (js "captions")
      then ret (NextResponse_json (captionsBody mode buildFallbackCaptions) 200)
      else ret (NextResponse_json (biosBody mode buildFallbackBios) 200)
    else
      let tone := toneOf fd in
      let guidance := guidanceOf fd in
      let maxChars := maxCharsOf fd in
      if maxCharsRejected maxChars then ret invalidInput
      else if JsString.eqb mode (js "captions")
      then captionsMode mode fd tone guidance maxChars
      else bioMode mode tone guidance maxChars.

(** [fallback] in the [catch] block of [POST]. *)
Definition fallbackOf (mode : option jsstring) : option json :=
  match mode with
  | Some m =>
      if JsString.eqb m (js "captions")
      then Some (captionsBody (js "captions") buildFallbackCaptions)
      else if JsString.eqb m (js "bio")
      then Some (biosBody (js "bio") buildFallbackBios)
      else None
  | None => None
  end.

(** The [catch] block of [POST]. *)
Definition catchBlock (error : JsError) : M Response :=
  mode <- getMode ;;
  let fallback := fallbackOf mode in
  let rest :=
    match fallback with
    | Some body => ret (NextResponse_json body 200)
    | None =>
        ret (NextResponse_json (errorBody (js "Something went wrong")) 500)
    end in
  if instanceofAPIError error then
    if statusIs error 429 then
      match fallback with
      | Some body => ret (NextResponse_json body 200)
      | None =>
          ret (NextResponse_json
                 (errorBody (js "Easy there. Try again in a moment.")) 429)
      end
    else if statusIs error 401 || statusIs error 403 then
      ret (NextResponse_json
             (errorBody (js "Check your OpenAI credentials.")) 500)
    else rest
  else rest.

Definition POST (request : Request) : M Response :=
  setMode None ;;
  try (tryBlock request) catch catchBlock.

(** One request, served from a fresh state: how the handler completes
    and what it did. *)
Definition serve (request : Request) : Completion Response * list Event :=
  let '(c, st) := POST request initial in (c, events st).

End Handler.

(** ** The module *)





(* ================================================================== *)
(** * Part IV. Vocabulary of the specification                         *)
(* ================================================================== *)

(** ** Traces *)

(** The state after some more events. *)
Definition addEvents (st : State) (evs : list Event) : State :=
  {| mode := mode st; events := events st ++ evs |}.

(** The state of a request whose mode has just been established. *)
Definition started (mode : jsstring) : State :=
  {| mode := Some mode; events := [] |}.

Definition isCreate (ev : Event) : bool :=
  match ev with Create _ => true | Sleep _ => false end.

(** Number of provider attempts in a trace. *)
Definition countCreates (evs : list Event) : nat :=
  List.length (filter isCreate evs).

(** Number of back-off sleeps in a trace. *)
Definition countSleeps (evs : list Event) : nat :=
  List.length (filter (fun ev => negb (isCreate ev)) evs).

(** Every provider attempt of a trace sends [messages]. *)
Definition allCarry (messages : list ChatCompletionMessageParam)
           (evs : list Event) : Prop :=
  Forall (fun ev => match ev with
                    | Create m => m = messages
                    | Sleep _ => True
                    end) evs.

(** ** Parsing *)

(** What a successful call has read, and the fuel that is enough for it. *)
Definition reads {A} (parser : nat -> jsstring -> option (A * jsstring))
           (fuel : nat) : Prop :=
  forall s a r,
    parser fuel s = Some (a, r) ->
    (List.length r < List.length s)%nat
    /\ forall fuel',
         (List.length s - List.length r <= fuel')%nat ->
         parser fuel' s = Some (a, r).

(** ** Attempts *)

(** The error an attempt ends with when it does not succeed: the error
    the provider raised, or the empty-response error. *)
Definition failure (o : Outcome) : option JsError :=
  match o with
  | Rejected e => Some e
  | Resolved content =>
      if emptyContent content
      then Some (newError (js "Empty response from model"))
      else None
  end.

(** The text a successful attempt returns. *)
Definition outcomeText (o : Outcome) : jsstring :=
  match o with
  | Resolved content => contentText content
  | Rejected _ => []
  end.

(** A rate-limited attempt that is retried: the call, then the sleep. *)
Definition backoff (messages : list ChatCompletionMessageParam)
           (e : JsError) : list Event :=
  [Create messages;
   Sleep (JsNumber.mul (waitSeconds e) (JsNumber.ofZ 1000))].

(** [errs] are the rate-limit errors of successive retried attempts with
    [messages], starting after the history [h]. *)
Fixpoint retried (provider : Provider)
         (messages : list ChatCompletionMessageParam)
         (h : list Event) (errs : list JsError) : Prop :=
  match errs with
  | [] => True
  | e :: rest =>
      failure (provider h messages) = Some e
      /\ isRateLimit e = true
      /\ retried provider messages (h ++ backoff messages e) rest
  end.

(** The trace of a run: retried attempts with their back-offs, then the
    last attempt. *)
Definition runTrace (messages : list ChatCompletionMessageParam)
           (errs : list JsError) : list Event :=
  flat_map (backoff messages) errs ++ [Create messages].

(** ** Requests *)

(** The mode of a form, when its [mode] field is one of the two. *)
Definition modeOf (fd : Web.FormData) : option jsstring :=
  match entryString (Web.get fd (js "mode")) with
  | Some m =>
      if JsString.eqb m (js "captions") || JsString.eqb m (js "bio")
      then Some m else None
  | None => None
  end.

(** The rules of captions mode: an acceptable [maxChars], one of the four
    tones, a guidance of at most 280 characters, a PNG or JPEG image of at
    most 3 MiB. *)
Definition captionsValid (fd : Web.FormData) : bool :=
  negb (maxCharsRejected (maxCharsOf fd))
  && negb (noTone (toneOf fd)) && toneAllowed (toneOf fd)
  && (JsString.length (guidanceOf fd) <=? maxCaptionGuidanceLength)%Z
  && match entryFile (Web.get fd (js "image")) with
     | Some image =>
         JsString.includes [js "image/png"; js "image/jpeg"] (Web.type image)
         && (Web.size image <=? 3 * 1024 * 1024)%Z
     | None => false
     end.

(** The rules of bio mode: an acceptable [maxChars], a guidance of 10 to
    400 characters, and a tone that is absent, empty or one of the four. *)
Definition bioValid (fd : Web.FormData) : bool :=
  negb (maxCharsRejected (maxCharsOf fd))
  && (minBioGuidanceLength <=? JsString.length (guidanceOf fd))%Z
  && (JsString.length (guidanceOf fd) <=? maxBioGuidanceLength)%Z
  && (noTone (toneOf fd) || toneAllowed (toneOf fd)).

(** A form passes the validation of its mode. *)
Definition validFor (mode : jsstring) (fd : Web.FormData) : bool :=
  if JsString.eqb mode (js "captions") then captionsValid fd else bioValid fd.

(** The messages of the first provider request of a validated form. *)
Definition originalMessages (mode : jsstring) (fd : Web.FormData)
  : list ChatCompletionMessageParam :=
  if JsString.eqb mode (js "captions") then
    match entryFile (Web.get fd (js "image")) with
    | Some image =>
        captionsMessages (match toneOf fd with Some t => t | None => [] end)
                         (maxCharsOf fd) (guidanceOf fd) image
    | None => []
    end
  else bioMessages (effectiveToneOf (toneOf fd)) (maxCharsOf fd) (guidanceOf fd).

(** The corrective request of a mode: the original messages, the invalid
    reply as an assistant message, and the instruction to answer again. *)
Definition retryMessages (mode : jsstring)
           (messages : list ChatCompletionMessageParam) (raw : jsstring)
  : list ChatCompletionMessageParam :=
  if JsString.eqb mode (js "captions")
  then captionsRetryMessages messages raw
  else bioRetryMessages messages raw.

(** The closing message of the corrective request of a mode. *)
Definition corrective (mode : jsstring) : ChatCompletionMessageParam :=
  if JsString.eqb mode (js "captions") then
    {| role := user;
       content := content_parts
         [text_part (js "The previous reply was invalid. Respond again with VALID JSON matching the exact schema. Include no commentary.")] |}
  else
    {| role := user;
       content := content_string (js "The previous reply was invalid. Respond again with VALID JSON matching the schema. Include no commentary.") |}.

(** Two forms that differ at most in their [tone] field. *)
Definition sameExceptTone (fd1 fd2 : Web.FormData) : Prop :=
  forall name, name <> js "tone" -> Web.get fd1 name = Web.get fd2 name.

(** ** Responses *)

(** The body made of a reply that passes the parser of the mode. *)
Definition parsedBody (mode raw : jsstring) : option json :=
  if JsString.eqb mode (js "captions") then
    match parseCaptionsPayload raw with
    | Normal items => Some (captionsBody mode items)
    | Throw _ => None
    end
  else
    match parseBioPayload raw with
    | Normal items => Some (biosBody mode items)
    | Throw _ => None
    end.

(** The static result of a mode. *)
Definition staticFallback (mode : jsstring) : json :=
  if JsString.eqb mode (js "captions")
  then captionsBody (js "captions") buildFallbackCaptions
  else biosBody (js "bio") buildFallbackBios.

Definition ok (body : json) : Response := NextResponse_json body 200.

Definition credentialsFailure : Response :=
  NextResponse_json (errorBody (js "Check your OpenAI credentials.")) 500.

Definition somethingWentWrong : Response :=
  NextResponse_json (errorBody (js "Something went wrong")) 500.

(** An error that makes [POST] answer with the credentials failure. *)
Definition authorizationFailure (e : JsError) : bool :=
  instanceofAPIError e && (statusIs e 401 || statusIs e 403).

(** The response to an error of the first generating phase. *)
Definition afterFailure (mode : jsstring) (e : JsError) : Response :=
  if authorizationFailure e then credentialsFailure
  else ok (staticFallback mode).

(** The response once the corrective phase has completed. *)
Definition afterRetry (mode : jsstring) (c : Completion jsstring) : Response :=
  match c with
  | Normal raw =>
      match parsedBody mode raw with
      | Some body => ok body
      | None => ok (staticFallback mode)
      end
  | Throw _ => ok (staticFallback mode)
  end.

(** The corrective phase fails: the gateway raised, or its reply does not
    pass the parser of the mode either. *)
Definition secondFails (mode : jsstring) (c : Completion jsstring) : Prop :=
  match c with
  | Normal raw => parsedBody mode raw = None
  | Throw _ => True
  end.

(** A generation, phase by phase: the first call; on a reply that does
    not parse, one corrective call; the response and the trace. *)
Definition generationOutcome (provider : Provider) (mode : jsstring)
           (messages : list ChatCompletionMessageParam)
  : Completion Response * list Event :=
  let '(c1, st1) := callOpenAI provider messages (started mode) in
  match c1 with
  | Throw e => (Normal (afterFailure mode e), events st1)
  | Normal raw =>
      match parsedBody mode raw with
      | Some body => (Normal (ok body), events st1)
      | None =>
          let '(c2, st2) :=
            callOpenAI provider (retryMessages mode messages raw) st1 in
          (Normal (afterRetry mode c2), events st2)
      end
  end.

(** Where the body of a 200 response comes from: the fallback catalog, or
    a provider reply that passed the parser. *)
Definition sourced (mode0 : jsstring) (body : json) : Prop :=
  body = staticFallback mode0 \/ exists raw, parsedBody mode0 raw = Some body.

(** The string field [key] of [v] satisfies [p]. *)
Definition fieldSatisfies (p : jsstring -> bool) (v : json) (key : jsstring)
  : bool :=
  match JSON.get v key with
  | Some (JString s) => p s
  | _ => false
  end.

(** The [items] field of a body, when it is an array. *)
Definition itemsField (body : json) : option (list json) :=
  match JSON.get body (js "items") with
  | Some (JArray items) => Some items
  | _ => None
  end.

(** [items] has exactly five entries whose [text] and [hashtags] are
    strings that satisfy [p]. *)
Definition captionItems (p : jsstring -> bool) (body : json) : bool :=
  match itemsField body with
  | Some items =>
      Nat.eqb (List.length items) 5
      && forallb (fun item => fieldSatisfies p item (js "text")
                              && fieldSatisfies p item (js "hashtags")) items
  | None => false
  end.

(** [items] has exactly three entries whose [text] is a string that
    satisfies [p]. *)
Definition bioItems (p : jsstring -> bool) (body : json) : bool :=
  match itemsField body with
  | Some items =>
      Nat.eqb (List.length items) 3
      && forallb (fun item => fieldSatisfies p item (js "text")) items
  | None => false
  end.

Definition anyString (s : jsstring) : bool := true.

(** Non-empty after trimming. *)
Definition nonEmptyTrimmed (s : jsstring) : bool :=
  JsString.truthy (JsString.trim s).

(** Neither the first nor the last character is whitespace. *)
Definition noOuterWhiteSpace (s : jsstring) : bool :=
  match s with
  | [] => true
  | c :: _ =>
      negb (JsString.isWhiteSpace c)
      && negb (JsString.isWhiteSpace (last s 0%Z))
  end.

(** The shape of a result of the mode. *)
Definition shapeOf (mode : jsstring) (p : jsstring -> bool) (body : json)
  : bool :=
  if JsString.eqb mode (js "captions") then captionItems p body
  else bioItems p body.

(** [n] is an integer between 40 and 220. *)
Definition integerInRange (n : number) : Prop :=
  match n with
  | JsNumber.Finite q =>
      exists z : Z, q == inject_Z z /\ (maxCharsMin <= z <= maxCharsMax)%Z
  | _ => False
  end.

(** ** Sample inputs *)

Module Example.

Definition apiKey : option jsstring := Some (js "sk-test").

(** A 429 from the provider, advising a two-second wait. *)
Definition rateLimited : JsError :=
  {| cls := RateLimitError; message := js "Rate limit reached";
     status := Some 429%Z; retryAfter := Some (js "2") |}.

(** A 401 from the provider. *)
Definition unauthorized : JsError :=
  {| cls := APIError; message := js "Incorrect API key provided";
     status := Some 401%Z; retryAfter := None |}.

Definition alwaysRateLimited : Provider := fun _ _ => Rejected rateLimited.

Definition alwaysUnauthorized : Provider := fun _ _ => Rejected unauthorized.

(** A provider that always answers with the same text. *)
Definition replying (reply : jsstring) : Provider :=
  fun _ _ => Resolved (Str reply).

(** A provider that is rate limited on its first call and answers
    [reply] afterwards. *)
Definition limitedOnce (reply : jsstring) : Provider :=
  fun history _ =>
    match history with
    | [] => Rejected rateLimited
    | _ => Resolved (Str reply)
    end.

(** A member of a JSON object text: a quoted key and a quoted value. *)
Definition member (key : string) (value : jsstring) : jsstring :=
  quoted (js key) ++ js ":" ++ quoted value.

(** Three bios whose texts are empty or blank. *)
Definition blankBios : jsstring :=
  js "{" ++ quoted (js "items") ++ js ":[{" ++ member "text" []
     ++ js "},{" ++ member "text" (js "  ")
     ++ js "},{" ++ member "text" [] ++ js "}]}".

(** Five captions whose texts and hashtags are empty. *)
Definition blankCaptions : jsstring :=
  js "{" ++ quoted (js "items") ++ js ":[{"
     ++ member "text" [] ++ js "," ++ member "hashtags" [] ++ js "},{"
     ++ member "text" [] ++ js "," ++ member "hashtags" [] ++ js "},{"
     ++ member "text" [] ++ js "," ++ member "hashtags" [] ++ js "},{"
     ++ member "text" [] ++ js "," ++ member "hashtags" [] ++ js "},{"
     ++ member "text" [] ++ js "," ++ member "hashtags" [] ++ js "}]}".

(** A bio form with the given [maxChars] and no tone. *)
Definition bioForm (maxChars : string) : Web.FormData :=
  [ (js "mode", Web.EntryString (js "bio"));
    (js "guidance", Web.EntryString (js "Sourdough baker in Lyon, open since 2012."));
    (js "maxChars", Web.EntryString (js maxChars)) ].

(** A four-byte stand-in for a PNG upload. *)
Definition png : Web.File :=
  {| Web.type := js "image/png"; Web.size := 4;
     Web.arrayBuffer := [137; 80; 78; 71]%Z |}.

(** A captions form with [maxChars]. *)
Definition captionsForm (maxChars : string) : Web.FormData :=
  [ (js "mode", Web.EntryString (js "captions"));
    (js "tone", Web.EntryString (js "Funny"));
    (js "guidance", Web.EntryString (js "launch day"));
    (js "maxChars", Web.EntryString (js maxChars));
    (js "image", Web.EntryFile png) ].

(** A form whose mode is neither of the two. *)
Definition weatherForm : Web.FormData :=
  [ (js "mode", Web.EntryString (js "weather")) ].

Definition request (fd : Web.FormData) : Request := {| form := Some fd |}.

(** What the parser makes of [blankBios]. *)
Definition blankBioItems : list BioItem.t :=
  [ {| BioItem.text := [] |}; {| BioItem.text := [] |};
    {| BioItem.text := [] |} ].

(** What the parser makes of [blankCaptions]. *)
Definition blankCaptionItems : list CaptionItem.t :=
  repeat {| CaptionItem.text := []; CaptionItem.hashtags := [] |} 5.

(** The first request of [bioForm]. *)
Definition bioPrompt (maxChars : option number)
  : list ChatCompletionMessageParam :=
  bioMessages (js "classy") maxChars
              (js "Sourdough baker in Lyon, open since 2012.").

End Example.

(** ** Further vocabulary: validation rules, parsed items, messages *)

(** The rate-limit answer of the [catch] block of [POST]. *)
Definition rateLimitedResponse : Response :=
  NextResponse_json (errorBody (js "Easy there. Try again in a moment.")) 429.

(** The message every request to the provider begins with. *)
Definition systemMessage : ChatCompletionMessageParam :=
  {| role := system; content := content_string systemPrompt |}.

(** The tone is one of the four allowed words. *)
Definition knownTone (tone : option jsstring) : Prop :=
  exists t, tone = Some t /\ In t allowedTones.

(** The file is a PNG or a JPEG of at most 3 MiB. *)
Definition acceptableImage (image : Web.File) : Prop :=
  (Web.type image = js "image/png" \/ Web.type image = js "image/jpeg")
  /\ (Web.size image <= 3 * 1024 * 1024)%Z.

(** [parsed] is what the captions parser makes of the entry [item]: the
    trimmed [text] and [hashtags] strings of an object. *)
Definition captionOf (item : json) (parsed : CaptionItem.t) : Prop :=
  exists t h,
    JSON.get item (js "text") = Some (JString t)
    /\ JSON.get item (js "hashtags") = Some (JString h)
    /\ parsed = {| CaptionItem.text := JsString.trim t;
                   CaptionItem.hashtags := JsString.trim h |}.

(** [parsed] is what the bio parser makes of the entry [item]. *)
Definition bioOf (item : json) (parsed : BioItem.t) : Prop :=
  exists t,
    JSON.get item (js "text") = Some (JString t)
    /\ parsed = {| BioItem.text := JsString.trim t |}.

(** The integers a [maxChars] may denote. *)
Definition maxCharsRange : list Z := map Z.of_nat (seq 40 181).

(** ** More sample inputs *)

Module Sample.

(** A captions form without an image. *)
Definition noImageForm : Web.FormData :=
  [ (js "mode", Web.EntryString (js "captions"));
    (js "tone", Web.EntryString (js "funny")) ].

(** A bio form whose guidance has nine characters once trimmed. *)
Definition shortBioForm : Web.FormData :=
  [ (js "mode", Web.EntryString (js "bio"));
    (js "guidance", Web.EntryString (js "  Baker Sam  ")) ].

(** The captions form of the claims, written the way another client
    might: an upper-case tone, guidance with blanks around it, [maxChars]
    in exponent notation, the fields in another order and one more
    field. *)
Definition variantCaptionsForm : Web.FormData :=
  [ (js "utm_source", Web.EntryString (js "newsletter"));
    (js "image", Web.EntryFile Example.png);
    (js "maxChars", Web.EntryString (js " 1.2e2 "));
    (js "guidance", Web.EntryString (js "  launch day   "));
    (js "tone", Web.EntryString (js "FUNNY"));
    (js "mode", Web.EntryString (js "captions")) ].

(** A reply of five captions with blanks around their strings, an extra
    field and a repeated key. *)
Definition paddedCaptions : jsstring :=
  js "{" ++ quoted (js "items") ++ js ":[{"
     ++ Example.member "text" (js " one ") ++ js ","
     ++ Example.member "hashtags" (js "#a ") ++ js ","
     ++ Example.member "id" (js "1") ++ js "},{"
     ++ Example.member "text" (js "draft") ++ js ","
     ++ Example.member "text" (js "two") ++ js ","
     ++ Example.member "hashtags" (js "#b") ++ js "},{"
     ++ Example.member "text" (js "three") ++ js ","
     ++ Example.member "hashtags" (js "#c") ++ js "},{"
     ++ Example.member "text" (js "four") ++ js ","
     ++ Example.member "hashtags" (js "#d") ++ js "},{"
     ++ Example.member "text" (js "five") ++ js ","
     ++ Example.member "hashtags" (js "#e") ++ js "}]}".

(** What the captions parser makes of [paddedCaptions]. *)
Definition paddedCaptionItems : list CaptionItem.t :=
  [ {| CaptionItem.text := js "one"; CaptionItem.hashtags := js "#a" |};
    {| CaptionItem.text := js "two"; CaptionItem.hashtags := js "#b" |};
    {| CaptionItem.text := js "three"; CaptionItem.hashtags := js "#c" |};
    {| CaptionItem.text := js "four"; CaptionItem.hashtags := js "#d" |};
    {| CaptionItem.text := js "five"; CaptionItem.hashtags := js "#e" |} ].

(** A reply that is not JSON text, and the error of [JSON.parse]. *)
Definition chatty : jsstring := js "Sure! Here are five captions:".

Definition syntaxError : JsError :=
  {| cls := SyntaxError; message := js "Unexpected token";
     status := None; retryAfter := None |}.

(** A 429 without a [retry-after] header. *)
Definition rateLimitedNoHeader : JsError :=
  {| cls := RateLimitError; message := js "Rate limit reached";
     status := Some 429%Z; retryAfter := None |}.

(** The bio form of the claims with a [tone] field that is present and
    empty. *)
Definition emptyToneForm : Web.FormData :=
  (js "tone", Web.EntryString []) :: Example.bioForm "120".

End Sample.


(* ================================================================== *)
(** * The client: the form component that calls the route              *)
(* ================================================================== *)

(** [CaptionCoachForm]: the state the component keeps with [useState],
    the values it derives from it at each render, its change handlers and
    [handleSubmit].  [isSubmitting] and [copiedKey] only drive the
    rendering and are left out. *)
Module Client.

Inductive Mode := captions | bio.

(** [Tone]: the empty string or one of the four values of [tones]. *)
Inductive Tone := unset | funny | poetic | classy | branded.

Definition modeValue (m : Mode) : jsstring :=
  match m with
  | captions => js "captions"
  | bio => js "bio"
  end.

Definition toneValue (t : Tone) : jsstring :=
  match t with
  | unset => []
  | funny => js "funny"
  | poetic => js "poetic"
  | classy => js "classy"
  | branded => js "branded"
  end.

Definition maxCaptionGuidanceLength : Z := 280.
Definition minBioGuidanceLength : Z := 10.
Definition maxBioGuidanceLength : Z := 400.
Definition maxCharsMin : Z := 40.
Definition maxCharsMax : Z := 220.

Record FormState := {
  mode : Mode;
  tone : Tone;
  guidance : jsstring;
  maxChars : jsstring;
  imageFile : option Web.File;
  imageError : option jsstring;
  error : option json;
  results : option json
}.

(** The initial values of the [useState] calls. *)
Definition mounted : FormState :=
  {| mode := captions; tone := unset; guidance := []; maxChars := [];
     imageFile := None; imageError := None; error := None; results := None |}.

(** [x >= y] and [x <= y] on numbers: false when either is NaN. *)
Definition geb (x y : number) : bool :=
  match x, y with
  | JsNumber.NaN, _ | _, JsNumber.NaN => false
  | _, _ => negb (JsNumber.ltb x y)
  end.

Definition leb (x y : number) : bool :=
  match x, y with
  | JsNumber.NaN, _ | _, JsNumber.NaN => false
  | _, _ => negb (JsNumber.ltb y x)
  end.

(** ** Values derived at each render *)

Definition trimmedGuidance (st : FormState) : jsstring :=
  JsString.trim (guidance st).

Definition guidanceLength (st : FormState) : Z :=
  JsString.length (guidance st).

Definition guidanceIsValidForBio (st : FormState) : bool :=
  (minBioGuidanceLength <=? JsString.length (trimmedGuidance st))%Z
  && (JsString.length (trimmedGuidance st) <=? maxBioGuidanceLength)%Z.

Definition guidanceIsValidForCaptions (st : FormState) : bool :=
  (guidanceLength st <=? maxCaptionGuidanceLength)%Z.

(** [maxChars ? Number(maxChars) : undefined] *)
Definition maxCharsValue (st : FormState) : option number :=
  if JsString.truthy (maxChars st)
  then Some (JsNumber.ofString (maxChars st))
  else None.

(** [!maxChars || (Number.isInteger(maxCharsValue) &&
     maxCharsValue >= maxCharsMin && maxCharsValue <= maxCharsMax)] *)
Definition maxCharsIsValid (st : FormState) : bool :=
  negb (JsString.truthy (maxChars st))
  || match maxCharsValue st with
     | Some v =>
         JsNumber.isInteger v
         && geb v (JsNumber.ofZ maxCharsMin)
         && leb v (JsNumber.ofZ maxCharsMax)
     | None => false
     end.

(** The [useMemo] of [ctaEnabled]; its dependency list names every value
    the callback reads, so the memo is the callback's value at each
    render. *)
Definition ctaEnabled (st : FormState) : bool :=
  if negb (maxCharsIsValid st) then false
  else
    match mode st with
    | captions =>
        (match imageFile st with Some _ => true | None => false end)
        && negb (JsString.eqb (toneValue (tone st)) [])
        && guidanceIsValidForCaptions st
    | bio => guidanceIsValidForBio st
    end.

(** ** Change handlers *)

Definition resetForMode (nextMode : Mode) (st : FormState) : FormState :=
  {| mode := nextMode; tone := tone st; guidance := guidance st;
     maxChars := maxChars st;
     imageFile := match nextMode with bio => None | captions => imageFile st end;
     imageError := None; error := None; results := None |}.

Definition onToneChange (value : Tone) (st : FormState) : FormState :=
  {| mode := mode st; tone := value; guidance := guidance st;
     maxChars := maxChars st; imageFile := imageFile st;
     imageError := imageError st; error := error st; results := results st |}.

Definition onGuidanceChange (value : jsstring) (st : FormState) : FormState :=
  {| mode := mode st; tone := tone st; guidance := value;
     maxChars := maxChars st; imageFile := imageFile st;
     imageError := imageError st; error := error st; results := results st |}.

Definition withImage (file : option Web.File) (message : option jsstring)
           (st : FormState) : FormState :=
  {| mode := mode st; tone := tone st; guidance := guidance st;
     maxChars := maxChars st; imageFile := file;
     imageError := message; error := error st; results := results st |}.

(** [onImageChange], on the [files] of the input ([None] for a null
    list). *)
Definition onImageChange (files : option (list Web.File)) (st : FormState)
  : FormState :=
  match files with
  | None | Some [] => withImage None None st
  | Some (file :: _) =>
      let validTypes := [js "image/jpeg"; js "image/png"] in
      if negb (JsString.includes validTypes (Web.type file)) then
        withImage None (Some (js "Please upload a JPG or PNG image.")) st
      else
        let maxSizeMb := 3%Z in
        if (Web.size file >? maxSizeMb * 1024 * 1024)%Z then
          withImage None (Some (js "Image must be 3MB or smaller.")) st
        else withImage (Some file) None st
  end.

(** ** Submission *)

(** The [FormData] that [handleSubmit] builds. *)
Definition formOf (st : FormState) : Web.FormData :=
  [(js "mode", Web.EntryString (modeValue (mode st)))]
  ++ match mode st with
     | captions =>
         match imageFile st with
         | Some file => [(js "image", Web.EntryFile file)]
         | None => []
         end
         ++ [(js "tone", Web.EntryString (toneValue (tone st)))]
     | bio =>
         if JsString.truthy (toneValue (tone st))
         then [(js "tone", Web.EntryString (toneValue (tone st)))]
         else []
     end
  ++ (if JsString.truthy (trimmedGuidance st)
      then [(js "guidance", Web.EntryString (trimmedGuidance st))]
      else [])
  ++ match maxCharsValue st with
     | Some v =>
         if JsNumber.truthy v && maxCharsIsValid st
         then [(js "maxChars", Web.EntryString (JsNumber.toString v))]
         else []
     | None => []
     end.

(** [response.ok] *)
Definition responseOk (response : Response) : bool :=
  (200 <=? Web.status response)%Z && (Web.status response <=? 299)%Z.

(** [payload?.error ?? (response.status === 500 ? "Something went wrong"
     : "Invalid input")] *)
Definition failureMessage (response : Response) : json :=
  match JSON.get (Web.body response) (js "error") with
  | Some JNull | None =>
      JString (if (Web.status response =? 500)%Z
               then js "Something went wrong"
               else js "Invalid input")
  | Some message => message
  end.

Definition settled (message : option json) (data : option json)
           (st : FormState) : FormState :=
  {| mode := mode st; tone := tone st; guidance := guidance st;
     maxChars := maxChars st; imageFile := imageFile st;
     imageError := imageError st; error := message; results := data |}.

(** [handleSubmit]; [fetch] answers the form with a response, or fails
    ([None]). *)
Definition handleSubmit (fetch : Web.FormData -> option Response)
           (st : FormState) : FormState :=
  if negb (ctaEnabled st) then st
  else
    match fetch (formOf st) with
    | Some response =>
        if negb (responseOk response)
        then settled (Some (failureMessage response)) None st
        else settled None (Some (Web.body response)) st
    | None => settled (Some (JString (js "Something went wrong"))) None st
    end.

(** [Math.trunc(x)] *)
Definition trunc (x : number) : number :=
  match x with
  | JsNumber.Finite q =>
      JsNumber.Finite (inject_Z (Z.quot (Qnum q) (Zpos (Qden q))))
  | _ => x
  end.

Definition isNaN (x : number) : bool :=
  match x with JsNumber.NaN => true | _ => false end.

Definition setMaxChars (value : jsstring) (st : FormState) : FormState :=
  {| mode := mode st; tone := tone st; guidance := guidance st;
     maxChars := value; imageFile := imageFile st;
     imageError := imageError st; error := error st; results := results st |}.

(** [onMaxCharsChange]; [render] stands for [String] applied to a
    number, whose digits the properties below do not depend on. *)
Definition onMaxCharsChange (render : number -> jsstring) (value : jsstring)
           (st : FormState) : FormState :=
  if negb (JsString.truthy value) then setMaxChars [] st
  else
    let numeric := JsNumber.ofString value in
    if isNaN numeric then st
    else setMaxChars (render (trunc numeric)) st.

(** What can happen to the component: a change of one of its inputs, or
    a submission answered by [fetch]. *)
Inductive Action :=
| ModeChange (next : Mode)
| ToneChange (value : Tone)
| GuidanceChange (value : jsstring)
| MaxCharsChange (value : jsstring)
| ImageChange (files : option (list Web.File))
| Submit (fetch : Web.FormData -> option Response).

Definition act (render : number -> jsstring) (st : FormState) (a : Action)
  : FormState :=
  match a with
  | ModeChange next => resetForMode next st
  | ToneChange value => onToneChange value st
  | GuidanceChange value => onGuidanceChange value st
  | MaxCharsChange value => onMaxCharsChange render value st
  | ImageChange files => onImageChange files st
  | Submit fetch => handleSubmit fetch st
  end.

(** The state after a sequence of actions on the freshly mounted
    component. *)
Definition run (render : number -> jsstring) (actions : list Action)
  : FormState :=
  fold_left (act render) actions mounted.

(** The image of the state, if any, went through the checks of
    [onImageChange]. *)
Definition imageChecked (st : FormState) : Prop :=
  match imageFile st with
  | Some file => acceptableImage file
  | None => True
  end.

(** A 120-character limit typed with blanks, a guidance over three
    lines, a tone and a picture. *)
Definition filled : FormState :=
  {| mode := captions; tone := poetic;
     guidance := [32; 32]%Z ++ js "launch day" ++ [10]%Z ++ js "new menu"
                 ++ [10; 32]%Z;
     maxChars := js " 120 ";
     imageFile := Some Example.png; imageError := None;
     error := None; results := None |}.

(** A guidance of exactly 280 characters over two lines, a tone and a
    picture. *)
Definition twoLines : FormState :=
  {| mode := captions; tone := funny;
     guidance := js "first line" ++ [10]%Z ++ repeat 97%Z 269;
     maxChars := [];
     imageFile := Some Example.png; imageError := None;
     error := None; results := None |}.

End Client.
(** ** Between the client and the route: the multipart encoding *)

(** [fetch] sends a [FormData] body as [multipart/form-data], and
    [request.formData()] reads it back. *)
Module Multipart.

(** The line breaks of a name or of a string value on the wire: every CR
    not followed by LF, and every LF not preceded by CR, becomes CR LF.
    [afterCR] says that the unit before [s] was a CR. *)
Fixpoint normalize (afterCR : bool) (s : jsstring) : jsstring :=
  match s with
  | [] => []
  | c :: r =>
      if (c =? 13)%Z then 13%Z :: 10%Z :: normalize true r
      else if (c =? 10)%Z then
        if afterCR then normalize false r
        else 13%Z :: 10%Z :: normalize false r
      else c :: normalize false r
  end.

Definition normalizeLineBreaks (s : jsstring) : jsstring := normalize false s.

Definition entry (e : jsstring * Web.FormDataEntryValue)
  : jsstring * Web.FormDataEntryValue :=
  (normalizeLineBreaks (fst e),
   match snd e with
   | Web.EntryString s => Web.EntryString (normalizeLineBreaks s)
   | Web.EntryFile file => Web.EntryFile file
   end).

(** The form the route reads when [fetch] was given [formData]. *)
Definition delivered (formData : Web.FormData) : Web.FormData :=
  map entry formData.

(** [s] has neither a CR nor an LF. *)
Definition noLineBreak (s : jsstring) : bool :=
  forallb (fun c => negb ((c =? 13)%Z || (c =? 10)%Z)) s.

(** The guidance bound of a mode, in the route. *)
Definition guidanceBound (m : Client.Mode) : Z :=
  match m with
  | Client.captions => maxCaptionGuidanceLength
  | Client.bio => maxBioGuidanceLength
  end.

End Multipart.

(* ================================================================== *)
(** * Part V. Properties                                               *)
(* ================================================================== *)

(** ** The gateway *)

Lemma addEvents_addEvents st a b :
  addEvents (addEvents st a) b = addEvents st (a ++ b).
Proof. unfold addEvents; simpl. now rewrite app_assoc. Qed.

(** One iteration of the attempt loop, by the outcome of its call. *)
Lemma iteration_outcome provider attempt messages st :
  iteration provider attempt messages st =
  match failure (provider (events st) messages) with
  | None =>
      (Normal (Returned (outcomeText (provider (events st) messages))),
       addEvents st [Create messages])
  | Some e =>
      if isRateLimit e then
        if Nat.eqb attempt MAX_OPENAI_ATTEMPTS
        then (Normal (Broke e), addEvents st [Create messages])
        else (Normal (Continued e), addEvents st (backoff messages e))
      else (Throw e, addEvents st [Create messages])
  end.
Proof.
  unfold iteration, attemptBody, try_catch, bind, create, failure, outcomeText.
  destruct (provider (events st) messages) as [content | e].
  - destruct (emptyContent content); unfold throw, ret; reflexivity.
  - destruct (isRateLimit e); [| reflexivity].
    destruct (Nat.eqb attempt MAX_OPENAI_ATTEMPTS); [reflexivity |].
    unfold sleep, emit, ret, addEvents, backoff; cbn [mode events].
    now rewrite <- app_assoc.
Qed.

Ltac gateway_side :=
  repeat split; auto;
  try (unfold MAX_OPENAI_ATTEMPTS; lia);
  try congruence;
  try (rewrite ?addEvents_addEvents; unfold addEvents; cbn [mode events];
       rewrite <- ?app_assoc; reflexivity).

(** Every run of the gateway: at most two rate-limited attempts, each
    followed by its back-off, then one last attempt whose outcome decides
    the result. *)
Lemma gateway_run provider messages st c st' :
  callOpenAI provider messages st = (c, st') ->
  exists errs,
    (List.length errs < MAX_OPENAI_ATTEMPTS)%nat
    /\ retried provider messages (events st) errs
    /\ st' = addEvents st (flat_map (backoff messages) errs ++ [Create messages])
    /\ match failure (provider (events st ++ flat_map (backoff messages) errs)
                               messages) with
       | None =>
           c = Normal (outcomeText
                         (provider (events st ++ flat_map (backoff messages) errs)
                                   messages))
       | Some e =>
           c = Throw e
           /\ (isRateLimit e = true -> List.length errs = 2%nat)
       end.
Proof.
  unfold callOpenAI. cbn [seq MAX_OPENAI_ATTEMPTS attempts].
  unfold bind at 1. rewrite iteration_outcome.
  destruct (failure (provider (events st) messages)) as [e1 |] eqn:F1.
  2:{ intros H; inversion H; subst; clear H.
      exists []; cbn [flat_map List.length retried app].
      rewrite app_nil_r, F1. gateway_side. }
  destruct (isRateLimit e1) eqn:R1.
  2:{ intros H; inversion H; subst; clear H.
      exists []; cbn [flat_map List.length retried app].
      rewrite app_nil_r, F1. gateway_side. }
  cbn [Nat.eqb MAX_OPENAI_ATTEMPTS].
  unfold bind at 1. rewrite iteration_outcome.
  cbn [addEvents events].
  destruct (failure (provider (events st ++ backoff messages e1) messages))
    as [e2 |] eqn:F2.
  2:{ intros H; inversion H; subst; clear H.
      exists [e1]; cbn [flat_map List.length retried app].
      rewrite app_nil_r, F2. gateway_side. }
  destruct (isRateLimit e2) eqn:R2.
  2:{ intros H; inversion H; subst; clear H.
      exists [e1]; cbn [flat_map List.length retried app].
      rewrite app_nil_r, F2. gateway_side. }
  cbn [Nat.eqb MAX_OPENAI_ATTEMPTS].
  unfold bind at 1. rewrite iteration_outcome.
  cbn [addEvents events mode].
  destruct (failure (provider ((events st ++ backoff messages e1)
                                 ++ backoff messages e2) messages))
    as [e3 |] eqn:F3.
  2:{ intros H; inversion H; subst; clear H.
      exists [e1; e2]; cbn [flat_map List.length retried].
      rewrite app_nil_r, (app_assoc (events st)), F3. gateway_side. }
  destruct (isRateLimit e3) eqn:R3.
  - cbn [Nat.eqb throwLast]. unfold throw.
    intros H; inversion H; subst; clear H.
    exists [e1; e2]; cbn [flat_map List.length retried].
    rewrite app_nil_r, (app_assoc (events st)), F3. gateway_side.
  - intros H; inversion H; subst; clear H.
    exists [e1; e2]; cbn [flat_map List.length retried].
    rewrite app_nil_r, (app_assoc (events st)), F3. gateway_side.
Qed.

Lemma runTrace_cons messages e errs :
  runTrace messages (e :: errs) =
  Create messages
    :: Sleep (JsNumber.mul (waitSeconds e) (JsNumber.ofZ 1000))
    :: runTrace messages errs.
Proof. reflexivity. Qed.

Lemma runTrace_head messages errs :
  exists tail, runTrace messages errs = Create messages :: tail.
Proof. destruct errs; [now exists [] | rewrite runTrace_cons; eauto]. Qed.

Lemma countCreates_app a b :
  countCreates (a ++ b) = (countCreates a + countCreates b)%nat.
Proof. unfold countCreates. now rewrite filter_app, length_app. Qed.

Lemma countSleeps_app a b :
  countSleeps (a ++ b) = (countSleeps a + countSleeps b)%nat.
Proof. unfold countSleeps. now rewrite filter_app, length_app. Qed.

Lemma countCreates_backoffs messages errs :
  countCreates (flat_map (backoff messages) errs) = List.length errs.
Proof.
  induction errs as [| e errs IH]; [reflexivity |].
  cbn [flat_map]. rewrite countCreates_app, IH. reflexivity.
Qed.

Lemma countSleeps_backoffs messages errs :
  countSleeps (flat_map (backoff messages) errs) = List.length errs.
Proof.
  induction errs as [| e errs IH]; [reflexivity |].
  cbn [flat_map]. rewrite countSleeps_app, IH. reflexivity.
Qed.

Lemma countCreates_runTrace messages errs :
  countCreates (runTrace messages errs) = S (List.length errs).
Proof.
  unfold runTrace. rewrite countCreates_app, countCreates_backoffs.
  cbn. lia.
Qed.

Lemma countSleeps_runTrace messages errs :
  countSleeps (runTrace messages errs) = List.length errs.
Proof.
  unfold runTrace. rewrite countSleeps_app, countSleeps_backoffs.
  cbn. lia.
Qed.

Lemma allCarry_runTrace messages errs : allCarry messages (runTrace messages errs).
Proof.
  unfold allCarry.
  induction errs as [| e errs IH].
  - repeat constructor.
  - rewrite runTrace_cons. repeat constructor. exact IH.
Qed.

(** Where a provider call sits in the trace of a run. *)
Lemma runTrace_at_create messages errs before m after :
  runTrace messages errs = before ++ Create m :: after ->
  exists done rest,
    errs = done ++ rest
    /\ before = flat_map (backoff messages) done
    /\ match rest with
       | [] => after = []
       | e :: rest' =>
           after = Sleep (JsNumber.mul (waitSeconds e) (JsNumber.ofZ 1000))
                     :: runTrace messages rest'
       end.
Proof.
  revert before.
  induction errs as [| e errs IH]; intros before H.
  - exists [], []. cbn in H.
    destruct before as [| x before].
    + inversion H; subst. repeat split; reflexivity.
    + destruct before; discriminate H.
  - rewrite runTrace_cons in H.
    destruct before as [| x [| y before]].
    + inversion H; subst. exists [], (e :: errs). repeat split; reflexivity.
    + discriminate H.
    + inversion H; subst.
      destruct (IH _ H3) as (done & rest & -> & -> & Hrest).
      exists (e :: done), rest. repeat split; auto.
Qed.

(** Where a sleep sits in the trace of a run. *)
Lemma runTrace_at_sleep messages errs before d after :
  runTrace messages errs = before ++ Sleep d :: after ->
  exists done e rest,
    errs = done ++ e :: rest
    /\ before = flat_map (backoff messages) done ++ [Create messages]
    /\ d = JsNumber.mul (waitSeconds e) (JsNumber.ofZ 1000)
    /\ after = runTrace messages rest.
Proof.
  revert before.
  induction errs as [| e errs IH]; intros before H.
  - cbn in H. destruct before as [| x before].
    + discriminate H.
    + destruct before; discriminate H.
  - rewrite runTrace_cons in H.
    destruct before as [| x [| y before]].
    + discriminate H.
    + inversion H; subst. exists [], e, errs. repeat split; reflexivity.
    + inversion H; subst.
      destruct (IH _ H3) as (done & e' & rest & -> & -> & -> & ->).
      exists (e :: done), e', rest. repeat split; auto.
Qed.

Lemma retried_app provider messages h done rest :
  retried provider messages h (done ++ rest) ->
  retried provider messages (h ++ flat_map (backoff messages) done) rest.
Proof.
  revert h. induction done as [| e done IH]; intros h H.
  - cbn [flat_map]. now rewrite app_nil_r.
  - cbn [app retried] in H. destruct H as (_ & _ & H).
    apply IH in H. cbn [flat_map]. now rewrite app_assoc.
Qed.

(** The gateway, attempt by attempt.  An attempt of a run is a place
    [before ++ Create messages :: after] of its trace; it is attempt number
    [countCreates before + 1].  A successful attempt ends the run with its
    text; a failure other than a rate limit ends it with its error; so does
    a rate limit on the last permitted attempt; a rate limit on an earlier
    attempt is followed by the back-off sleep and another attempt. *)
Lemma gateway_attempts provider messages st c st' :
  callOpenAI provider messages st = (c, st') ->
  exists added,
    st' = addEvents st added
    /\ allCarry messages added
    /\ (1 <= countCreates added <= MAX_OPENAI_ATTEMPTS)%nat
    /\ countSleeps added = (countCreates added - 1)%nat
    /\ (forall before d after,
          added = before ++ Sleep d :: after ->
          exists before', before = before' ++ [Create messages])
    /\ (forall before m after,
          added = before ++ Create m :: after ->
          let o := provider (events st ++ before) messages in
          match failure o with
          | None => after = [] /\ c = Normal (outcomeText o)
          | Some e =>
              if isRateLimit e
                 && negb (Nat.eqb (S (countCreates before)) MAX_OPENAI_ATTEMPTS)
              then exists after',
                  after = Sleep (JsNumber.mul (waitSeconds e) (JsNumber.ofZ 1000))
                            :: Create messages :: after'
              else after = [] /\ c = Throw e
          end).
Proof.
  intros Hrun.
  destruct (gateway_run _ _ _ _ _ Hrun) as (errs & Hlen & Hret & -> & Hfinal).
  fold (runTrace messages errs).
  exists (runTrace messages errs).
  split; [reflexivity |].
  split; [apply allCarry_runTrace |].
  split; [rewrite countCreates_runTrace; lia |].
  split; [rewrite countCreates_runTrace, countSleeps_runTrace; lia |].
  split.
  { intros before d after H.
    destruct (runTrace_at_sleep _ _ _ _ _ H) as (done & e & rest & _ & -> & _).
    eauto. }
  intros before m after H o.
  destruct (runTrace_at_create _ _ _ _ _ H) as (done & rest & -> & -> & Hrest).
  subst o. rewrite countCreates_backoffs.
  apply retried_app in Hret.
  destruct rest as [| e rest].
  - subst after. rewrite app_nil_r in *.
    destruct (failure (provider (events st ++ flat_map (backoff messages) done)
                                messages)) as [e |]; [| auto].
    destruct Hfinal as [-> Hlast].
    destruct (isRateLimit e); cbn [andb]; [| auto].
    rewrite (Hlast eq_refl). cbn. auto.
  - cbn [retried] in Hret. destruct Hret as (-> & -> & _).
    rewrite length_app in Hlen. cbn [List.length] in Hlen.
    replace (Nat.eqb (S (List.length done)) MAX_OPENAI_ATTEMPTS) with false
      by (symmetry; apply Nat.eqb_neq; lia).
    cbn [andb negb]. subst after.
    destruct (runTrace_head messages rest) as [tail ->]. eauto.
Qed.

(** A run whose first attempt is not rate limited makes that attempt
    only. *)
Lemma gateway_single_attempt provider messages st c st' :
  callOpenAI provider messages st = (c, st') ->
  (forall e, failure (provider (events st) messages) = Some e ->
             isRateLimit e = false) ->
  st' = addEvents st [Create messages].
Proof.
  intros Hrun Hfirst.
  destruct (gateway_run _ _ _ _ _ Hrun) as (errs & _ & Hret & -> & _).
  destruct errs as [| e errs]; [reflexivity |].
  cbn [retried] in Hret. destruct Hret as (Hfail & Hrate & _).
  rewrite (Hfirst _ Hfail) in Hrate. discriminate Hrate.
Qed.

(** C7. Within one generating phase the gateway makes at most three
    provider attempts (and at least one), all with the same messages.  An
    attempt that succeeds with a non-empty string returns that string,
    trimmed, and is the last event of the phase; more generally a
    successful attempt ends the phase with its text.  When the third
    attempt fails too, the error of that last attempt is what the gateway
    raises. *)
Theorem callOpenAI_at_most_three_attempts provider messages st c st' :
  callOpenAI provider messages st = (c, st') ->
  exists added,
    st' = addEvents st added
    /\ allCarry messages added
    /\ (1 <= countCreates added <= 3)%nat
    /\ (forall before after s,
          added = before ++ Create messages :: after ->
          provider (events st ++ before) messages = Resolved (Str s) ->
          s <> [] ->
          after = [] /\ c = Normal (JsString.trim s))
    /\ (forall before after,
          added = before ++ Create messages :: after ->
          failure (provider (events st ++ before) messages) = None ->
          after = []
          /\ c = Normal (outcomeText (provider (events st ++ before) messages)))
    /\ (forall before after e,
          added = before ++ Create messages :: after ->
          countCreates (before ++ [Create messages]) = 3%nat ->
          failure (provider (events st ++ before) messages) = Some e ->
          after = [] /\ c = Throw e).
Proof.
  intros Hrun.
  destruct (gateway_attempts _ _ _ _ _ Hrun)
    as (added & Hst & Hall & Hcount & _ & _ & Hat).
  exists added. repeat split; try assumption; try apply Hcount.
  - specialize (Hat _ _ _ H). cbv zeta in Hat. rewrite H0 in Hat.
    cbn [failure emptyContent] in Hat.
    destruct s as [| ch s]; [contradiction |]. cbn in Hat. apply Hat.
  - specialize (Hat _ _ _ H). cbv zeta in Hat. rewrite H0 in Hat.
    cbn [failure emptyContent] in Hat.
    destruct s as [| ch s]; [contradiction |]. cbn in Hat. apply Hat.
  - specialize (Hat _ _ _ H). cbv zeta in Hat. rewrite H0 in Hat. apply Hat.
  - specialize (Hat _ _ _ H). cbv zeta in Hat. rewrite H0 in Hat. apply Hat.
  - specialize (Hat _ _ _ H). cbv zeta in Hat. rewrite H1 in Hat.
    rewrite countCreates_app in H0. cbn in H0.
    replace (S (countCreates before)) with 3%nat in Hat by lia.
    cbn [MAX_OPENAI_ATTEMPTS Nat.eqb negb] in Hat. rewrite andb_false_r in Hat.
    apply Hat.
  - specialize (Hat _ _ _ H). cbv zeta in Hat. rewrite H1 in Hat.
    rewrite countCreates_app in H0. cbn in H0.
    replace (S (countCreates before)) with 3%nat in Hat by lia.
    cbn [MAX_OPENAI_ATTEMPTS Nat.eqb negb] in Hat. rewrite andb_false_r in Hat.
    apply Hat.
Qed.

Lemma callOpenAI_at_most_three_attempts_witness :
  exists added,
    {| mode := None;
       events := backoff (Example.bioPrompt None) Example.rateLimited
                 ++ [Create (Example.bioPrompt None)] |}
    = addEvents initial added
    /\ allCarry (Example.bioPrompt None) added
    /\ (1 <= countCreates added <= 3)%nat
    /\ (forall before after s,
          added = before ++ Create (Example.bioPrompt None) :: after ->
          Example.limitedOnce (js " three bios ") (events initial ++ before)
                              (Example.bioPrompt None) = Resolved (Str s) ->
          s <> [] ->
          after = [] /\ Normal (js "three bios") = Normal (JsString.trim s))
    /\ (forall before after,
          added = before ++ Create (Example.bioPrompt None) :: after ->
          failure (Example.limitedOnce (js " three bios ")
                     (events initial ++ before) (Example.bioPrompt None)) = None ->
          after = []
          /\ Normal (js "three bios")
             = Normal (outcomeText
                         (Example.limitedOnce (js " three bios ")
                            (events initial ++ before) (Example.bioPrompt None))))
    /\ (forall before after e,
          added = before ++ Create (Example.bioPrompt None) :: after ->
          countCreates (before ++ [Create (Example.bioPrompt None)]) = 3%nat ->
          failure (Example.limitedOnce (js " three bios ")
                     (events initial ++ before) (Example.bioPrompt None)) = Some e ->
          after = [] /\ Normal (js "three bios") = Throw e).
Proof.
  apply (callOpenAI_at_most_three_attempts
           (Example.limitedOnce (js " three bios "))
           (Example.bioPrompt None) initial).
  vm_compute. reflexivity.
Defined.



(** ** Strings *)

Lemma eqb_eq a b : JsString.eqb a b = true <-> a = b.
Proof.
  unfold JsString.eqb. destruct (list_eq_dec Z.eq_dec a b); split; congruence.
Qed.

Lemma eqb_refl a : JsString.eqb a a = true.
Proof. now apply eqb_eq. Qed.

Lemma trimStart_head s :
  match JsString.trimStart s with
  | [] => True
  | c :: _ => JsString.isWhiteSpace c = false
  end.
Proof.
  induction s as [| c s IH]; cbn; [exact I |].
  destruct (JsString.isWhiteSpace c) eqn:W; [exact IH | exact W].
Qed.

Lemma trimStart_snoc s c :
  JsString.isWhiteSpace c = false ->
  JsString.trimStart (s ++ [c]) = JsString.trimStart s ++ [c].
Proof.
  intros W. induction s as [| d s IH]; cbn.
  - now rewrite W.
  - destruct (JsString.isWhiteSpace d); [exact IH | reflexivity].
Qed.

(** What [trim] returns neither begins nor ends with whitespace. *)
Lemma trim_noOuterWhiteSpace s : noOuterWhiteSpace (JsString.trim s) = true.
Proof.
  unfold JsString.trim, JsString.trimEnd.
  pose proof (trimStart_head s) as Hs.
  destruct (JsString.trimStart s) as [| c u] eqn:Eu; [reflexivity |].
  cbn [rev]. rewrite (trimStart_snoc _ _ Hs), rev_app_distr. cbn [rev app].
  unfold noOuterWhiteSpace. rewrite Hs. cbn [negb andb].
  pose proof (trimStart_head (rev u)) as Hu.
  destruct (JsString.trimStart (rev u)) as [| d v] eqn:Ev.
  - cbn. now rewrite Hs.
  - cbn [rev]. rewrite app_comm_cons, last_last. now rewrite Hu.
Qed.

(** ** Reading fields of the bodies the handler builds *)

Lemma key_mode_items : JsString.eqb (js "mode") (js "items") = false.
Proof. reflexivity. Qed.

Lemma key_text_hashtags : JsString.eqb (js "text") (js "hashtags") = false.
Proof. reflexivity. Qed.

Lemma key_hashtags_text : JsString.eqb (js "hashtags") (js "text") = false.
Proof. reflexivity. Qed.

Lemma key_items_mode : JsString.eqb (js "items") (js "mode") = false.
Proof. reflexivity. Qed.

Lemma bio_not_captions : JsString.eqb (js "bio") (js "captions") = false.
Proof. reflexivity. Qed.

Lemma itemsField_captionsBody mode items :
  itemsField (captionsBody mode items) = Some (map captionItemJson items).
Proof.
  unfold itemsField, captionsBody, JSON.get. cbn [fold_left fst snd].
  now rewrite key_mode_items, eqb_refl.
Qed.

Lemma itemsField_biosBody mode items :
  itemsField (biosBody mode items) = Some (map bioItemJson items).
Proof.
  unfold itemsField, biosBody, JSON.get. cbn [fold_left fst snd].
  now rewrite key_mode_items, eqb_refl.
Qed.

Lemma mode_captionsBody mode items :
  JSON.get (captionsBody mode items) (js "mode") = Some (JString mode).
Proof.
  unfold captionsBody, JSON.get. cbn [fold_left fst snd].
  now rewrite key_items_mode, eqb_refl.
Qed.

Lemma mode_biosBody mode items :
  JSON.get (biosBody mode items) (js "mode") = Some (JString mode).
Proof.
  unfold biosBody, JSON.get. cbn [fold_left fst snd].
  now rewrite key_items_mode, eqb_refl.
Qed.

Lemma captionItemJson_fields p item :
  fieldSatisfies p (captionItemJson item) (js "text")
  && fieldSatisfies p (captionItemJson item) (js "hashtags")
  = p (CaptionItem.text item) && p (CaptionItem.hashtags item).
Proof.
  unfold fieldSatisfies, captionItemJson, JSON.get. cbn [fold_left fst snd].
  now rewrite key_hashtags_text, key_text_hashtags, !eqb_refl.
Qed.

Lemma bioItemJson_field p item :
  fieldSatisfies p (bioItemJson item) (js "text") = p (BioItem.text item).
Proof.
  unfold fieldSatisfies, bioItemJson, JSON.get. cbn [fold_left fst snd].
  now rewrite eqb_refl.
Qed.

Lemma captionItems_captionsBody p mode items :
  captionItems p (captionsBody mode items)
  = Nat.eqb (List.length items) 5
    && forallb (fun item => p (CaptionItem.text item)
                            && p (CaptionItem.hashtags item)) items.
Proof.
  unfold captionItems. rewrite itemsField_captionsBody, length_map.
  f_equal. induction items as [| item items IH]; [reflexivity |].
  cbn [map forallb]. now rewrite captionItemJson_fields, IH.
Qed.

Lemma bioItems_biosBody p mode items :
  bioItems p (biosBody mode items)
  = Nat.eqb (List.length items) 3
    && forallb (fun item => p (BioItem.text item)) items.
Proof.
  unfold bioItems. rewrite itemsField_biosBody, length_map.
  f_equal. induction items as [| item items IH]; [reflexivity |].
  cbn [map forallb]. now rewrite bioItemJson_field, IH.
Qed.

(** ** [JSON.parse]: the fuel is enough *)

Lemma expect_length c s r :
  JsString.expect c s = Some r -> List.length s = S (List.length r).
Proof.
  destruct s as [| x s]; [discriminate |]. cbn.
  destruct (x =? c)%Z; [| discriminate]. now intros [= ->].
Qed.

Lemma skipWs_length s : (List.length (JSON.skipWs s) <= List.length s)%nat.
Proof.
  induction s as [| c s IH]; cbn; [lia |].
  destruct (JSON.isWs c); cbn; lia.
Qed.

Lemma stripPrefix_length p s r :
  JsNumber.stripPrefix p s = Some r ->
  List.length s = (List.length p + List.length r)%nat.
Proof.
  revert s. induction p as [| a p IH]; intros s H; cbn in H.
  - now inversion H.
  - destruct s as [| b s]; [discriminate |].
    destruct (a =? b)%Z; [| discriminate]. cbn. f_equal. now apply IH.
Qed.

Lemma digits_length radix acc n s v n' r :
  JsNumber.digits radix acc n s = (v, n', r) ->
  (List.length r <= List.length s)%nat
  /\ n' = (n + Z.of_nat (List.length s - List.length r))%Z.
Proof.
  revert acc n. induction s as [| c s IH]; intros acc n H; cbn in H.
  - inversion H; subst. cbn. split; lia.
  - destruct (JsNumber.digitValue radix c).
    + apply IH in H. destruct H as [H1 H2]. cbn [List.length]. split; lia.
    + inversion H; subst. cbn [List.length]. split; lia.
Qed.

Lemma sign_length s neg r :
  JsNumber.sign s = (neg, r) -> (List.length r <= List.length s)%nat.
Proof.
  unfold JsNumber.sign.
  destruct (JsString.expect 43 s) eqn:E1.
  - intros [= <- <-]. apply expect_length in E1. lia.
  - destruct (JsString.expect 45 s) eqn:E2.
    + intros [= <- <-]. apply expect_length in E2. lia.
    + intros [= <- <-]. lia.
Qed.

Lemma exponentPart_length s e r :
  JsNumber.exponentPart s = (e, r) -> (List.length r <= List.length s)%nat.
Proof.
  unfold JsNumber.exponentPart.
  assert (Hafter : forall t,
             List.length s = S (List.length t) ->
             (let '(neg, r1) := JsNumber.sign t in
              let '(v, n, r2) := JsNumber.digits 10 0 0 r1 in
              if (n =? 0)%Z then (0%Z, s) else ((if neg then - v else v)%Z, r2))
             = (e, r) ->
             (List.length r <= List.length s)%nat).
  { intros t Ht.
    destruct (JsNumber.sign t) as [neg r1] eqn:Es.
    destruct (JsNumber.digits 10 0 0 r1) as [[v n] r2] eqn:Ed.
    apply sign_length in Es. apply digits_length in Ed.
    destruct (n =? 0)%Z; intros [= <- <-]; lia. }
  destruct (JsString.expect 101 s) eqn:E1.
  - apply Hafter. now apply expect_length in E1.
  - destruct (JsString.expect 69 s) eqn:E2.
    + apply Hafter. now apply expect_length in E2.
    + intros [= <- <-]. lia.
Qed.

Lemma stringBody_length s str r :
  JSON.stringBody s = Some (str, r) -> (List.length r < List.length s)%nat.
Proof.
  remember (List.length s) as n eqn:Hn. revert s str r Hn.
  induction n as [n IH] using lt_wf_ind. intros s str r Hn H.
  destruct s as [| c s]; [discriminate |]. cbn [JSON.stringBody] in H.
  cbn [List.length] in Hn.
  destruct (c =? 34)%Z.
  { inversion H; subst. cbn. lia. }
  destruct (c =? 92)%Z.
  - destruct s as [| e s1]; [discriminate |].
    destruct (e =? 117)%Z.
    + destruct s1 as [| h1 [| h2 [| h3 [| h4 s2]]]]; try discriminate.
      destruct (JSON.hex4 h1 h2 h3 h4); [| discriminate].
      destruct (JSON.stringBody s2) as [[str' rest] |] eqn:E; [| discriminate].
      inversion H; subst.
      apply (IH (List.length s2)) in E; cbn [List.length] in *; try lia.
    + destruct (JSON.escape e); [| discriminate].
      destruct (JSON.stringBody s1) as [[str' rest] |] eqn:E; [| discriminate].
      inversion H; subst.
      apply (IH (List.length s1)) in E; cbn [List.length] in *; try lia.
  - destruct (c <? 32)%Z; [discriminate |].
    destruct (JSON.stringBody s) as [[str' rest] |] eqn:E; [| discriminate].
    inversion H; subst.
    apply (IH (List.length s)) in E; cbn [List.length] in *; try lia.
Qed.

Lemma numberToken_length s n r :
  JSON.numberToken s = Some (n, r) -> (List.length r < List.length s)%nat.
Proof.
  unfold JSON.numberToken.
  destruct (JsString.expect 45 s) as [t |] eqn:Eneg.
  - apply expect_length in Eneg.
    destruct (JsString.expect 48 t) as [t0 |] eqn:Ezero.
    + apply expect_length in Ezero. cbn [Z.eqb].
      destruct (JsString.expect 46 t0) as [t1 |] eqn:Edot.
      * apply expect_length in Edot.
        destruct (JsNumber.digits 10 0 0 t1) as [[m nf] r'] eqn:Ed.
        apply digits_length in Ed.
        destruct (nf =? 0)%Z;
          (destruct (JsNumber.exponentPart _) as [e s4] eqn:Ee;
           apply exponentPart_length in Ee; intros [= <- <-]; lia).
      * destruct (JsNumber.exponentPart t0) as [e s4] eqn:Ee.
        apply exponentPart_length in Ee. intros [= <- <-]. lia.
    + destruct (JsNumber.digits 10 0 0 t) as [[i ni] s2] eqn:Ed0.
      apply digits_length in Ed0. destruct Ed0 as [Hle Hni].
      destruct (ni =? 0)%Z eqn:Eni; [discriminate |].
      apply Z.eqb_neq in Eni.
      destruct (JsString.expect 46 s2) as [t1 |] eqn:Edot.
      * apply expect_length in Edot.
        destruct (JsNumber.digits 10 i 0 t1) as [[m nf] r'] eqn:Ed.
        apply digits_length in Ed.
        destruct (nf =? 0)%Z;
          (destruct (JsNumber.exponentPart _) as [e s4] eqn:Ee;
           apply exponentPart_length in Ee; intros [= <- <-]; lia).
      * destruct (JsNumber.exponentPart s2) as [e s4] eqn:Ee.
        apply exponentPart_length in Ee. intros [= <- <-]. lia.
  - destruct (JsString.expect 48 s) as [t0 |] eqn:Ezero.
    + apply expect_length in Ezero. cbn [Z.eqb].
      destruct (JsString.expect 46 t0) as [t1 |] eqn:Edot.
      * apply expect_length in Edot.
        destruct (JsNumber.digits 10 0 0 t1) as [[m nf] r'] eqn:Ed.
        apply digits_length in Ed.
        destruct (nf =? 0)%Z;
          (destruct (JsNumber.exponentPart _) as [e s4] eqn:Ee;
           apply exponentPart_length in Ee; intros [= <- <-]; lia).
      * destruct (JsNumber.exponentPart t0) as [e s4] eqn:Ee.
        apply exponentPart_length in Ee. intros [= <- <-]. lia.
    + destruct (JsNumber.digits 10 0 0 s) as [[i ni] s2] eqn:Ed0.
      apply digits_length in Ed0. destruct Ed0 as [Hle Hni].
      destruct (ni =? 0)%Z eqn:Eni; [discriminate |].
      apply Z.eqb_neq in Eni.
      destruct (JsString.expect 46 s2) as [t1 |] eqn:Edot.
      * apply expect_length in Edot.
        destruct (JsNumber.digits 10 i 0 t1) as [[m nf] r'] eqn:Ed.
        apply digits_length in Ed.
        destruct (nf =? 0)%Z;
          (destruct (JsNumber.exponentPart _) as [e s4] eqn:Ee;
           apply exponentPart_length in Ee; intros [= <- <-]; lia).
      * destruct (JsNumber.exponentPart s2) as [e s4] eqn:Ee.
        apply exponentPart_length in Ee. intros [= <- <-]. lia.
Qed.

Lemma scalar_length s v r :
  JSON.scalar s = Some (v, r) -> (List.length r < List.length s)%nat.
Proof.
  unfold JSON.scalar.
  destruct (JsNumber.stripPrefix (js "true") s) eqn:T.
  { intros [= <- <-]. apply stripPrefix_length in T.
    change (List.length (js "true")) with 4%nat in T. lia. }
  destruct (JsNumber.stripPrefix (js "false") s) eqn:F.
  { intros [= <- <-]. apply stripPrefix_length in F.
    change (List.length (js "false")) with 5%nat in F. lia. }
  destruct (JsNumber.stripPrefix (js "null") s) eqn:N.
  { intros [= <- <-]. apply stripPrefix_length in N.
    change (List.length (js "null")) with 4%nat in N. lia. }
  destruct (JSON.numberToken s) as [[n rest] |] eqn:E; [| discriminate].
  intros [= <- <-]. now apply numberToken_length in E.
Qed.

Lemma parser_reads fuel :
  reads JSON.value fuel /\ reads JSON.elements fuel /\ reads JSON.members fuel.
Proof.
  induction fuel as [| f (IHv & IHe & IHm)].
  { split; [| split]; intros s a r H; discriminate H. }
  split; [| split]; intros s a r H.
  - (* value *)
    cbn [JSON.value] in H.
    pose proof (skipWs_length s) as Hws.
    destruct (JsString.expect 34 (JSON.skipWs s)) as [r0 |] eqn:E34.
    { destruct (JSON.stringBody r0) as [[str rest] |] eqn:Eb; [| discriminate].
      inversion H; subst. apply expect_length in E34 as L.
      apply stringBody_length in Eb as Lb.
      split; [lia |]. intros [| f'] Hf; [lia |].
      cbn [JSON.value]. now rewrite E34, Eb. }
    destruct (JsString.expect 91 (JSON.skipWs s)) as [r0 |] eqn:E91.
    { apply expect_length in E91 as L.
      pose proof (skipWs_length r0) as Hws0.
      destruct (JsString.expect 93 (JSON.skipWs r0)) as [rest |] eqn:E93.
      - inversion H; subst. apply expect_length in E93 as L'.
        split; [lia |]. intros [| f'] Hf; [lia |].
        cbn [JSON.value]. now rewrite E34, E91, E93.
      - destruct (JSON.elements f (JSON.skipWs r0)) as [[l rest] |] eqn:Ee;
          [| discriminate].
        inversion H; subst. destruct (IHe _ _ _ Ee) as [Lr Hfuel].
        split; [lia |]. intros [| f'] Hf; [lia |].
        cbn [JSON.value]. rewrite E34, E91, E93, Hfuel by lia. reflexivity. }
    destruct (JsString.expect 123 (JSON.skipWs s)) as [r0 |] eqn:E123.
    { apply expect_length in E123 as L.
      pose proof (skipWs_length r0) as Hws0.
      destruct (JsString.expect 125 (JSON.skipWs r0)) as [rest |] eqn:E125.
      - inversion H; subst. apply expect_length in E125 as L'.
        split; [lia |]. intros [| f'] Hf; [lia |].
        cbn [JSON.value]. now rewrite E34, E91, E123, E125.
      - destruct (JSON.members f (JSON.skipWs r0)) as [[l rest] |] eqn:Em;
          [| discriminate].
        inversion H; subst. destruct (IHm _ _ _ Em) as [Lr Hfuel].
        split; [lia |]. intros [| f'] Hf; [lia |].
        cbn [JSON.value]. rewrite E34, E91, E123, E125, Hfuel by lia.
        reflexivity. }
    apply scalar_length in H as L.
    split; [lia |]. intros [| f'] Hf; [lia |].
    cbn [JSON.value]. now rewrite E34, E91, E123.
  - (* elements *)
    cbn [JSON.elements] in H.
    destruct (JSON.value f s) as [[v r1] |] eqn:Ev; [| discriminate].
    destruct (IHv _ _ _ Ev) as [L1 Hfuel1].
    pose proof (skipWs_length r1) as Hws.
    destruct (JsString.expect 44 (JSON.skipWs r1)) as [r' |] eqn:E44.
    { apply expect_length in E44 as L.
      destruct (JSON.elements f r') as [[l rest] |] eqn:Ee; [| discriminate].
      inversion H; subst. destruct (IHe _ _ _ Ee) as [Lr Hfuel].
      split; [lia |]. intros [| f'] Hf; [lia |].
      cbn [JSON.elements].
      rewrite Hfuel1 by lia. rewrite E44, Hfuel by lia. reflexivity. }
    destruct (JsString.expect 93 (JSON.skipWs r1)) as [rest |] eqn:E93;
      [| discriminate].
    apply expect_length in E93 as L. inversion H; subst.
    split; [lia |]. intros [| f'] Hf; [lia |].
    cbn [JSON.elements]. rewrite Hfuel1 by lia. now rewrite E44, E93.
  - (* members *)
    cbn [JSON.members] in H.
    pose proof (skipWs_length s) as Hws.
    destruct (JsString.expect 34 (JSON.skipWs s)) as [r0 |] eqn:E34;
      [| discriminate].
    apply expect_length in E34 as L0.
    destruct (JSON.stringBody r0) as [[key r1] |] eqn:Eb; [| discriminate].
    apply stringBody_length in Eb as Lb.
    pose proof (skipWs_length r1) as Hws1.
    destruct (JsString.expect 58 (JSON.skipWs r1)) as [r2 |] eqn:E58;
      [| discriminate].
    apply expect_length in E58 as L2.
    destruct (JSON.value f r2) as [[v r3] |] eqn:Ev; [| discriminate].
    destruct (IHv _ _ _ Ev) as [L3 Hfuel3].
    pose proof (skipWs_length r3) as Hws3.
    destruct (JsString.expect 44 (JSON.skipWs r3)) as [r4 |] eqn:E44.
    { apply expect_length in E44 as L4.
      destruct (JSON.members f r4) as [[l rest] |] eqn:Em; [| discriminate].
      inversion H; subst. destruct (IHm _ _ _ Em) as [Lr Hfuel].
      split; [lia |]. intros [| f'] Hf; [lia |].
      cbn [JSON.members]. rewrite E34, Eb, E58.
      rewrite Hfuel3 by lia. rewrite E44, Hfuel by lia. reflexivity. }
    destruct (JsString.expect 125 (JSON.skipWs r3)) as [rest |] eqn:E125;
      [| discriminate].
    apply expect_length in E125 as L4. inversion H; subst.
    split; [lia |]. intros [| f'] Hf; [lia |].
    cbn [JSON.members]. rewrite E34, Eb, E58.
    rewrite Hfuel3 by lia. now rewrite E44, E125.
Qed.

(** [JSON.parse] finds every value the grammar allows: a text that the
    recursive descent reads with some fuel is read with the fuel
    [JSON.parse] gives it. *)
Lemma parse_complete text v :
  JSON.parse text = Some v
  <-> exists fuel rest,
        JSON.value fuel text = Some (v, rest) /\ JSON.skipWs rest = [].
Proof.
  unfold JSON.parse. split.
  - destruct (JSON.value (2 * List.length text + 2) text) as [[v' rest] |] eqn:E;
      [| discriminate].
    destruct (JSON.skipWs rest) eqn:W; [| discriminate].
    intros [= <-]. eauto.
  - intros (fuel & rest & Hv & Hws).
    destruct (parser_reads fuel) as (Hreads & _ & _).
    destruct (Hreads _ _ _ Hv) as [_ Hfuel].
    rewrite Hfuel by lia. now rewrite Hws.
Qed.

(** ** The parsers *)

Lemma mapThrowing_length {A B} (f : A -> Completion B) l ys :
  mapThrowing f l = Normal ys -> List.length ys = List.length l.
Proof.
  revert ys. induction l as [| x l IH]; intros ys H; cbn in H.
  - now inversion H.
  - destruct (f x); [| discriminate].
    destruct (mapThrowing f l); [| discriminate].
    inversion H; subst. cbn. f_equal. now apply IH.
Qed.

Lemma mapThrowing_forallb {A B} (f : A -> Completion B) (p : B -> bool) l ys :
  (forall x y, f x = Normal y -> p y = true) ->
  mapThrowing f l = Normal ys -> forallb p ys = true.
Proof.
  intros Hf. revert ys. induction l as [| x l IH]; intros ys H; cbn in H.
  - now inversion H.
  - destruct (f x) eqn:Fx; [| discriminate].
    destruct (mapThrowing f l); [| discriminate].
    inversion H; subst. cbn. rewrite (Hf _ _ Fx). now apply IH.
Qed.

Lemma itemsOfLength_length parsed n items :
  itemsOfLength parsed n = Some items -> List.length items = n.
Proof.
  unfold itemsOfLength.
  destruct (JSON.get parsed (js "items")) as [v |]; [| discriminate].
  destruct (negb (JSON.truthy v)); [discriminate |].
  destruct v as [| | | | l |]; try discriminate.
  destruct (Nat.eqb (List.length l) n) eqn:E; [| discriminate].
  intros H; inversion H; subst. now apply Nat.eqb_eq.
Qed.

Lemma captionItem_trimmed item parsed :
  captionItem item = Normal parsed ->
  noOuterWhiteSpace (CaptionItem.text parsed)
  && noOuterWhiteSpace (CaptionItem.hashtags parsed) = true.
Proof.
  unfold captionItem. destruct (negb (JSON.truthy item)); [discriminate |].
  destruct (asString (JSON.get item (js "text"))); [| discriminate].
  destruct (asString (JSON.get item (js "hashtags"))); [| discriminate].
  intros H; inversion H; subst. cbn [CaptionItem.text CaptionItem.hashtags].
  now rewrite !trim_noOuterWhiteSpace.
Qed.

Lemma bioItem_trimmed item parsed :
  bioItem item = Normal parsed ->
  noOuterWhiteSpace (BioItem.text parsed) = true.
Proof.
  unfold bioItem. destruct (negb (JSON.truthy item)); [discriminate |].
  destruct (asString (JSON.get item (js "text"))); [| discriminate].
  intros H; inversion H; subst. cbn [BioItem.text].
  apply trim_noOuterWhiteSpace.
Qed.

(** What [parseCaptionsPayload] returns: five items with trimmed fields. *)
Lemma parseCaptionsPayload_items raw items :
  parseCaptionsPayload raw = Normal items ->
  List.length items = 5%nat
  /\ forallb (fun item => noOuterWhiteSpace (CaptionItem.text item)
                          && noOuterWhiteSpace (CaptionItem.hashtags item))
             items = true.
Proof.
  unfold parseCaptionsPayload.
  destruct (JSON_parse raw) as [parsed |]; [| discriminate].
  destruct (itemsOfLength parsed 5) as [l |] eqn:El; [| discriminate].
  intros H. split.
  - rewrite (mapThrowing_length _ _ _ H). eapply itemsOfLength_length; eauto.
  - eapply mapThrowing_forallb; [| exact H]. apply captionItem_trimmed.
Qed.

(** What [parseBioPayload] returns: three items with a trimmed text. *)
Lemma parseBioPayload_items raw items :
  parseBioPayload raw = Normal items ->
  List.length items = 3%nat
  /\ forallb (fun item => noOuterWhiteSpace (BioItem.text item)) items = true.
Proof.
  unfold parseBioPayload.
  destruct (JSON_parse raw) as [parsed |]; [| discriminate].
  destruct (itemsOfLength parsed 3) as [l |] eqn:El; [| discriminate].
  intros H. split.
  - rewrite (mapThrowing_length _ _ _ H). eapply itemsOfLength_length; eauto.
  - eapply mapThrowing_forallb; [| exact H]. apply bioItem_trimmed.
Qed.

(** ** Bodies *)

Lemma parsedBody_shape mode raw body :
  parsedBody mode raw = Some body ->
  JSON.get body (js "mode") = Some (JString mode)
  /\ shapeOf mode noOuterWhiteSpace body = true.
Proof.
  unfold parsedBody, shapeOf.
  destruct (JsString.eqb mode (js "captions")).
  - destruct (parseCaptionsPayload raw) as [items |] eqn:P; [| discriminate].
    intros H; inversion H; subst.
    destruct (parseCaptionsPayload_items _ _ P) as [Hlen Hall].
    split; [apply mode_captionsBody |].
    rewrite captionItems_captionsBody, Hlen, Hall. reflexivity.
  - destruct (parseBioPayload raw) as [items |] eqn:P; [| discriminate].
    intros H; inversion H; subst.
    destruct (parseBioPayload_items _ _ P) as [Hlen Hall].
    split; [apply mode_biosBody |].
    rewrite bioItems_biosBody, Hlen, Hall. reflexivity.
Qed.

Lemma modeOf_cases fd mode :
  modeOf fd = Some mode ->
  Web.get fd (js "mode") = Some (Web.EntryString mode)
  /\ (mode = js "captions" \/ mode = js "bio").
Proof.
  unfold modeOf, entryString.
  destruct (Web.get fd (js "mode")) as [[m | f] |]; try discriminate.
  destruct (JsString.eqb m (js "captions")) eqn:C; cbn [orb].
  - intros H; inversion H; subst. apply eqb_eq in C. auto.
  - destruct (JsString.eqb m (js "bio")) eqn:B; [| discriminate].
    intros H; inversion H; subst. apply eqb_eq in B. auto.
Qed.

(** The static results have the shape of their mode, with non-empty
    trimmed fields. *)
Lemma staticFallback_shape mode :
  mode = js "captions" \/ mode = js "bio" ->
  JSON.get (staticFallback mode) (js "mode") = Some (JString mode)
  /\ shapeOf mode (fun s => noOuterWhiteSpace s && nonEmptyTrimmed s)
             (staticFallback mode) = true.
Proof.
  intros [-> | ->]; split; vm_compute; reflexivity.
Qed.

Lemma fieldSatisfies_weaken (p q : jsstring -> bool) v key :
  (forall s, p s = true -> q s = true) ->
  fieldSatisfies p v key = true -> fieldSatisfies q v key = true.
Proof.
  intros Hpq. unfold fieldSatisfies.
  destruct (JSON.get v key) as [[] |]; auto.
Qed.

Lemma shapeOf_weaken (p q : jsstring -> bool) mode body :
  (forall s, p s = true -> q s = true) ->
  shapeOf mode p body = true -> shapeOf mode q body = true.
Proof.
  intros Hpq. unfold shapeOf, captionItems, bioItems.
  destruct (JsString.eqb mode (js "captions"));
    (destruct (itemsField body) as [items |]; [| discriminate]);
    rewrite !andb_true_iff, !forallb_forall;
    intros [Hlen Hall]; (split; [exact Hlen |]);
    intros item Hin; specialize (Hall item Hin);
    rewrite ?andb_true_iff in *;
    intuition eauto using fieldSatisfies_weaken.
Qed.

(** ** The handler, phase by phase *)

Lemma callOpenAI_mode provider messages st c st' :
  callOpenAI provider messages st = (c, st') -> mode st' = mode st.
Proof.
  intros H. destruct (gateway_run _ _ _ _ _ H) as (errs & _ & _ & -> & _).
  reflexivity.
Qed.

Lemma statusIs_429 e :
  statusIs e 429 = true -> statusIs e 401 || statusIs e 403 = false.
Proof.
  unfold statusIs. destruct (status e) as [s |]; [| discriminate].
  intros H. apply Z.eqb_eq in H. subst. reflexivity.
Qed.

(** The [catch] block of [POST] once the mode is known. *)
Lemma catchBlock_known e st mode0 :
  mode st = Some mode0 ->
  mode0 = js "captions" \/ mode0 = js "bio" ->
  catchBlock e st = (Normal (afterFailure mode0 e), st).
Proof.
  intros Hmode Hcases.
  unfold catchBlock, bind, getMode. rewrite Hmode.
  assert (Hfb : fallbackOf (Some mode0) = Some (staticFallback mode0)).
  { unfold fallbackOf, staticFallback.
    destruct Hcases as [-> | ->]; reflexivity. }
  rewrite Hfb. unfold afterFailure, authorizationFailure, ret, ok.
  destruct (instanceofAPIError e); cbn [andb]; [| reflexivity].
  destruct (statusIs e 429) eqn:H429.
  - now rewrite (statusIs_429 _ H429).
  - destruct (statusIs e 401 || statusIs e 403); reflexivity.
Qed.

Lemma captionsGeneration_outcome provider mode0 messages :
  mode0 = js "captions" ->
  (let '(c, st) :=
     try_catch (captionsGeneration provider mode0 messages) catchBlock
               (started mode0) in
   (c, events st))
  = generationOutcome provider mode0 messages.
Proof.
  intros ->.
  unfold generationOutcome, captionsGeneration, try_catch.
  unfold bind at 1.
  destruct (callOpenAI provider messages (started (js "captions")))
    as [c1 st1] eqn:R1.
  pose proof (callOpenAI_mode _ _ _ _ _ R1) as M1. cbn [started mode] in M1.
  destruct c1 as [raw | e].
  2:{ rewrite (catchBlock_known e st1 _ M1) by auto. reflexivity. }
  unfold parsedBody, retryMessages. rewrite eqb_refl.
  unfold bind, try_catch, lift, ret.
  destruct (parseCaptionsPayload raw) as [items | e]; [reflexivity |].
  destruct (callOpenAI provider (captionsRetryMessages messages raw) st1)
    as [c2 st2] eqn:R2.
  unfold afterRetry, parsedBody. rewrite eqb_refl.
  destruct c2 as [raw' | e2]; [| reflexivity].
  destruct (parseCaptionsPayload raw'); reflexivity.
Qed.

Lemma bioGeneration_outcome provider mode0 messages :
  mode0 = js "bio" ->
  (let '(c, st) :=
     try_catch (bioGeneration provider mode0 messages) catchBlock
               (started mode0) in
   (c, events st))
  = generationOutcome provider mode0 messages.
Proof.
  intros ->.
  unfold generationOutcome, bioGeneration, try_catch.
  unfold bind at 1.
  destruct (callOpenAI provider messages (started (js "bio")))
    as [c1 st1] eqn:R1.
  pose proof (callOpenAI_mode _ _ _ _ _ R1) as M1. cbn [started mode] in M1.
  destruct c1 as [raw | e].
  2:{ rewrite (catchBlock_known e st1 _ M1) by auto. reflexivity. }
  unfold parsedBody, retryMessages. rewrite bio_not_captions.
  unfold bind, try_catch, lift, ret.
  destruct (parseBioPayload raw) as [items | e]; [reflexivity |].
  destruct (callOpenAI provider (bioRetryMessages messages raw) st1)
    as [c2 st2] eqn:R2.
  unfold afterRetry, parsedBody. rewrite bio_not_captions.
  destruct c2 as [raw' | e2]; [| reflexivity].
  destruct (parseBioPayload raw'); reflexivity.
Qed.

Lemma gtb_leb a b : (a >? b)%Z = negb (a <=? b)%Z.
Proof. rewrite Z.gtb_ltb. apply Z.ltb_antisym. Qed.

Lemma ltb_leb a b : (a <? b)%Z = negb (b <=? a)%Z.
Proof. apply Z.ltb_antisym. Qed.

Lemma captionsMode_outcome provider mode0 fd :
  mode0 = js "captions" ->
  maxCharsRejected (maxCharsOf fd) = false ->
  (let '(c, st) :=
     try_catch (captionsMode provider mode0 fd (toneOf fd) (guidanceOf fd)
                             (maxCharsOf fd))
               catchBlock (started mode0) in
   (c, events st))
  = if validFor mode0 fd
    then generationOutcome provider mode0 (originalMessages mode0 fd)
    else (Normal invalidInput, []).
Proof.
  intros -> Hmax.
  unfold validFor, originalMessages, captionsValid, captionsMode.
  rewrite !eqb_refl, Hmax. cbn [negb andb].
  destruct (noTone (toneOf fd)); cbn [negb andb orb]; [reflexivity |].
  destruct (toneAllowed (toneOf fd)); cbn [negb andb orb]; [| reflexivity].
  rewrite gtb_leb.
  destruct (JsString.length (guidanceOf fd) <=? maxCaptionGuidanceLength)%Z;
    cbn [negb andb]; [| reflexivity].
  destruct (entryFile (Web.get fd (js "image"))) as [image |]; [| reflexivity].
  destruct (JsString.includes [js "image/png"; js "image/jpeg"] (Web.type image));
    cbn [negb andb]; [| reflexivity].
  rewrite gtb_leb.
  destruct (Web.size image <=? 3 * 1024 * 1024)%Z; cbn [negb]; [| reflexivity].
  now apply captionsGeneration_outcome.
Qed.

Lemma bioMode_outcome provider mode0 fd :
  mode0 = js "bio" ->
  maxCharsRejected (maxCharsOf fd) = false ->
  (let '(c, st) :=
     try_catch (bioMode provider mode0 (toneOf fd) (guidanceOf fd)
                        (maxCharsOf fd))
               catchBlock (started mode0) in
   (c, events st))
  = if validFor mode0 fd
    then generationOutcome provider mode0 (originalMessages mode0 fd)
    else (Normal invalidInput, []).
Proof.
  intros -> Hmax.
  unfold validFor, originalMessages, bioValid, bioMode.
  rewrite !bio_not_captions, Hmax. cbn [negb andb].
  rewrite ltb_leb, gtb_leb.
  destruct (minBioGuidanceLength <=? JsString.length (guidanceOf fd))%Z;
    cbn [negb andb orb]; [| reflexivity].
  destruct (JsString.length (guidanceOf fd) <=? maxBioGuidanceLength)%Z;
    cbn [negb andb orb]; [| reflexivity].
  destruct (noTone (toneOf fd)); cbn [negb andb orb].
  - now apply bioGeneration_outcome.
  - destruct (toneAllowed (toneOf fd)); cbn [negb]; [| reflexivity].
    now apply bioGeneration_outcome.
Qed.

(** The handler, case by case: an unreadable body; a mode that is neither
    of the two; no API key; a form the validation of its mode rejects; a
    generation. *)
Lemma serve_cases key provider request :
  serve key provider request =
  match form request with
  | None => (Normal somethingWentWrong, [])
  | Some fd =>
      match modeOf fd with
      | None => (Normal invalidInput, [])
      | Some mode0 =>
          if noApiKey key then (Normal (ok (staticFallback mode0)), [])
          else if validFor mode0 fd
               then generationOutcome provider mode0 (originalMessages mode0 fd)
               else (Normal invalidInput, [])
      end
  end.
Proof.
  unfold serve, POST. unfold bind at 1. unfold setMode at 1.
  cbn [initial mode events].
  unfold try_catch, tryBlock. unfold bind at 1. unfold lift, formData.
  destruct (form request) as [fd |]; [| reflexivity].
  unfold modeOf, Web.isString, entryString.
  destruct (Web.get fd (js "mode")) as [[m | f] |]; try reflexivity.
  destruct (JsString.eqb m (js "captions")) eqn:C.
  - cbn [negb andb orb]. apply eqb_eq in C. subst m.
    unfold bind at 1. unfold setMode at 1. cbn [mode events].
    fold (started (js "captions")). rewrite ?eqb_refl.
    destruct (noApiKey key).
    + reflexivity.
    + destruct (maxCharsRejected (maxCharsOf fd)) eqn:Hmax.
      * unfold validFor, captionsValid. rewrite eqb_refl, Hmax. reflexivity.
      * now rewrite <- (captionsMode_outcome provider _ fd eq_refl Hmax).
  - destruct (JsString.eqb m (js "bio")) eqn:B; [| reflexivity].
    cbn [negb andb orb]. apply eqb_eq in B. subst m.
    unfold bind at 1. unfold setMode at 1. cbn [mode events].
    fold (started (js "bio")). rewrite ?bio_not_captions.
    destruct (noApiKey key).
    + reflexivity.
    + destruct (maxCharsRejected (maxCharsOf fd)) eqn:Hmax.
      * unfold validFor, bioValid. rewrite bio_not_captions, Hmax. reflexivity.
      * now rewrite <- (bioMode_outcome provider _ fd eq_refl Hmax).
Qed.

(** ** The handler: validation *)

Lemma modeOf_known fd mode0 :
  Web.get fd (js "mode") = Some (Web.EntryString mode0) ->
  mode0 = js "captions" \/ mode0 = js "bio" ->
  modeOf fd = Some mode0.
Proof.
  intros Hget Hcases. unfold modeOf. rewrite Hget. cbn [entryString].
  destruct Hcases as [-> | ->]; reflexivity.
Qed.

(** C9. A request whose [mode] field is anything but exactly the string
    [captions] or the string [bio] (another string, a file, or no field at
    all) is answered with status 400 and the body [{ error: "Invalid
    input" }], and the handler makes no provider call (its trace is
    empty). *)
Theorem invalid_mode_rejected key provider request fd :
  form request = Some fd ->
  Web.get fd (js "mode") <> Some (Web.EntryString (js "captions")) ->
  Web.get fd (js "mode") <> Some (Web.EntryString (js "bio")) ->
  serve key provider request
  = (Normal {| Web.status := 400;
               Web.body := JObject [(js "error", JString (js "Invalid input"))] |},
     []).
Proof.
  intros Hform Hc Hb. rewrite serve_cases, Hform.
  destruct (modeOf fd) as [mode0 |] eqn:Hmode; [| reflexivity].
  destruct (modeOf_cases _ _ Hmode) as [Hget [-> | ->]]; contradiction.
Qed.

Lemma invalid_mode_rejected_witness :
  serve Example.apiKey (Example.replying Example.blankBios)
        (Example.request Example.weatherForm)
  = (Normal {| Web.status := 400;
               Web.body := JObject [(js "error", JString (js "Invalid input"))] |},
     []).
Proof.
  apply (invalid_mode_rejected Example.apiKey
           (Example.replying Example.blankBios)
           (Example.request Example.weatherForm) Example.weatherForm).
  - reflexivity.
  - vm_compute. discriminate.
  - vm_compute. discriminate.
Defined.

Lemma tone_name_distinct :
  js "mode" <> js "tone" /\ js "guidance" <> js "tone"
  /\ js "maxChars" <> js "tone" /\ js "image" <> js "tone".
Proof. repeat split; intros H; vm_compute in H; discriminate H. Qed.

(** ** The handler: [maxChars] *)

Lemma ofZ_maxCharsMin : JsNumber.ofZ maxCharsMin = JsNumber.Finite 40.
Proof. vm_compute. reflexivity. Qed.

Lemma ofZ_maxCharsMax : JsNumber.ofZ maxCharsMax = JsNumber.Finite 220.
Proof. vm_compute. reflexivity. Qed.

(** What passes the [maxChars] check is an integer between 40 and 220. *)
Lemma accepted_integerInRange n :
  maxCharsRejected (Some n) = false -> integerInRange n.
Proof.
  unfold maxCharsRejected. rewrite ofZ_maxCharsMin, ofZ_maxCharsMax.
  rewrite !orb_false_iff, negb_false_iff.
  intros [[Hint Hlo] Hhi].
  destruct n as [| neg | q]; try discriminate Hint.
  cbn [JsNumber.isInteger] in Hint. apply Z.eqb_eq in Hint.
  unfold JsNumber.gtb in Hhi. cbn [JsNumber.ltb] in Hlo, Hhi.
  apply negb_false_iff, Qle_bool_iff in Hlo.
  apply negb_false_iff, Qle_bool_iff in Hhi.
  cbn [integerInRange].
  exists (Qnum q / Zpos (Qden q))%Z.
  assert (Hq : q == inject_Z (Qnum q / Zpos (Qden q))).
  { unfold Qeq, inject_Z. cbn [Qnum Qden].
    apply Z.rem_divide in Hint; [| discriminate].
    destruct Hint as [k Hk]. rewrite Hk, Z.div_mul by discriminate. lia. }
  split; [exact Hq |].
  rewrite Hq in Hlo, Hhi. unfold maxCharsMin, maxCharsMax.
  rewrite !Zle_Qle. split; [exact Hlo | exact Hhi].
Qed.



Lemma noApiKey_configured k : k <> [] -> noApiKey (Some k) = false.
Proof. destruct k; [congruence | reflexivity]. Qed.

(** ** The handler: responses *)

Lemma generationOutcome_response provider mode0 messages :
  exists resp,
    fst (generationOutcome provider mode0 messages) = Normal resp
    /\ (resp = credentialsFailure
        \/ exists body, resp = ok body /\ sourced mode0 body).
Proof.
  unfold generationOutcome, sourced.
  destruct (callOpenAI provider messages (started mode0)) as [[raw | e] st1].
  - destruct (parsedBody mode0 raw) as [body |] eqn:P.
    + eexists; split; [reflexivity |]. right. eauto.
    + destruct (callOpenAI provider (retryMessages mode0 messages raw) st1)
        as [[raw' | e2] st2]; cbn [fst afterRetry].
      * destruct (parsedBody mode0 raw') as [body |] eqn:P';
          eexists; (split; [reflexivity |]); right; eauto.
      * eexists; split; [reflexivity |]. right. eauto.
  - cbn [fst]. unfold afterFailure.
    destruct (authorizationFailure e);
      eexists; (split; [reflexivity |]); [left | right]; eauto.
Qed.

(** Every response of the handler: it never throws, and it answers one of
    five things. *)
Lemma serve_response key provider request :
  exists resp,
    fst (serve key provider request) = Normal resp
    /\ ((form request = None /\ resp = somethingWentWrong)
        \/ (exists fd, form request = Some fd /\ resp = invalidInput)
        \/ (exists fd mode0,
              form request = Some fd /\ modeOf fd = Some mode0
              /\ (resp = credentialsFailure
                  \/ exists body, resp = ok body /\ sourced mode0 body))).
Proof.
  rewrite serve_cases.
  destruct (form request) as [fd |]; [| eexists; split; [reflexivity | auto]].
  destruct (modeOf fd) as [mode0 |] eqn:Hmode.
  2:{ eexists; split; [reflexivity |]. right; left. eauto. }
  destruct (noApiKey key).
  { eexists; split; [reflexivity |]. right; right.
    exists fd, mode0. repeat split; auto. right.
    exists (staticFallback mode0). split; [reflexivity | now left]. }
  destruct (validFor mode0 fd).
  2:{ eexists; split; [reflexivity |]. right; left. eauto. }
  destruct (generationOutcome_response provider mode0 (originalMessages mode0 fd))
    as (resp & Hresp & Hsrc).
  exists resp. split; [exact Hresp |]. right; right. eauto.
Qed.

Lemma sourced_shape mode0 body :
  mode0 = js "captions" \/ mode0 = js "bio" ->
  sourced mode0 body ->
  JSON.get body (js "mode") = Some (JString mode0)
  /\ shapeOf mode0 noOuterWhiteSpace body = true.
Proof.
  intros Hcases [-> | [raw Hraw]].
  - destruct (staticFallback_shape mode0 Hcases) as [Hm Hs].
    split; [exact Hm |].
    eapply shapeOf_weaken; [| exact Hs].
    intros s H. now apply andb_true_iff in H.
  - now apply parsedBody_shape with (raw := raw).
Qed.

(** A 200 response has the mode of the request and a body from one of the
    two sources. *)
Lemma ok_response_sourced key provider request resp evs :
  serve key provider request = (Normal resp, evs) ->
  Web.status resp = 200%Z ->
  exists fd mode0,
    form request = Some fd
    /\ Web.get fd (js "mode") = Some (Web.EntryString mode0)
    /\ (mode0 = js "captions" \/ mode0 = js "bio")
    /\ sourced mode0 (Web.body resp).
Proof.
  intros Hserve Hstatus.
  destruct (serve_response key provider request) as (resp' & Hfst & Hcases).
  rewrite Hserve in Hfst. cbn [fst] in Hfst. inversion Hfst; subst resp'.
  destruct Hcases as [[_ ->] | [(fd & _ & ->) | (fd & mode0 & Hform & Hmode & H)]];
    try discriminate Hstatus.
  destruct H as [-> | (body & -> & Hsrc)]; [discriminate Hstatus |].
  destruct (modeOf_cases _ _ Hmode) as [Hget Hm].
  exists fd, mode0. auto.
Qed.

(** C1. Whatever the provider does, a 200 response carries the mode of
    the request and an [items] array of the shape of that mode: in
    captions mode exactly five entries, each with a string [text] and a
    string [hashtags]; in bio mode exactly three entries, each with a
    string [text]. *)
Theorem ok_response_shape key provider request resp evs :
  serve key provider request = (Normal resp, evs) ->
  Web.status resp = 200%Z ->
  exists fd mode0,
    form request = Some fd
    /\ Web.get fd (js "mode") = Some (Web.EntryString mode0)
    /\ JSON.get (Web.body resp) (js "mode") = Some (JString mode0)
    /\ ((mode0 = js "captions"
         /\ captionItems anyString (Web.body resp) = true)
        \/ (mode0 = js "bio"
            /\ bioItems anyString (Web.body resp) = true)).
Proof.
  intros Hserve Hstatus.
  destruct (ok_response_sourced _ _ _ _ _ Hserve Hstatus)
    as (fd & mode0 & Hform & Hget & Hm & Hsrc).
  destruct (sourced_shape _ _ Hm Hsrc) as [Hmode Hshape].
  apply shapeOf_weaken with (q := anyString) in Hshape; [| reflexivity].
  exists fd, mode0. repeat split; try assumption.
  unfold shapeOf in Hshape.
  destruct Hm as [-> | ->].
  - rewrite eqb_refl in Hshape. auto.
  - rewrite bio_not_captions in Hshape. auto.
Qed.

Lemma ok_response_shape_witness :
  exists fd mode0,
    form (Example.request (Example.bioForm "120")) = Some fd
    /\ Web.get fd (js "mode") = Some (Web.EntryString mode0)
    /\ JSON.get (Web.body (ok (biosBody (js "bio") Example.blankBioItems)))
                (js "mode") = Some (JString mode0)
    /\ ((mode0 = js "captions"
         /\ captionItems anyString
              (Web.body (ok (biosBody (js "bio") Example.blankBioItems))) = true)
        \/ (mode0 = js "bio"
            /\ bioItems anyString
                 (Web.body (ok (biosBody (js "bio") Example.blankBioItems)))
               = true)).
Proof.
  apply (ok_response_shape Example.apiKey
           (Example.replying Example.blankBios)
           (Example.request (Example.bioForm "120"))
           (ok (biosBody (js "bio") Example.blankBioItems))
           [Create (originalMessages (js "bio") (Example.bioForm "120"))]).
  - vm_compute. reflexivity.
  - reflexivity.
Defined.

(** C5 as the specification states it does not hold: a provider reply
    whose five captions (or three bios) have empty or blank strings passes
    the parser, and the 200 response carries those items, whose fields are
    empty after trimming. *)
Lemma blank_provider_items_served :
  serve Example.apiKey (Example.replying Example.blankCaptions)
        (Example.request (Example.captionsForm "120"))
  = (Normal {| Web.status := 200;
               Web.body := captionsBody (js "captions")
                                        Example.blankCaptionItems |},
     [Create (originalMessages (js "captions") (Example.captionsForm "120"))])
  /\ captionItems nonEmptyTrimmed
       (captionsBody (js "captions") Example.blankCaptionItems) = false
  /\ serve Example.apiKey (Example.replying Example.blankBios)
           (Example.request (Example.bioForm "120"))
     = (Normal {| Web.status := 200;
                  Web.body := biosBody (js "bio") Example.blankBioItems |},
        [Create (originalMessages (js "bio") (Example.bioForm "120"))])
  /\ bioItems nonEmptyTrimmed (biosBody (js "bio") Example.blankBioItems)
     = false.
Proof. repeat split; vm_compute; reflexivity. Qed.

(** C5, as the code has it.  A 200 response carries exactly five items in
    captions mode and exactly three in bio mode; each [text] (and each
    [hashtags]) is a string with no whitespace at either end, because the
    parser trims it; it is non-empty whenever the items are the static
    fallback of the mode.  The parser does not look at the content of a
    provider string, so a provider-sourced field can be empty. *)
Theorem ok_response_items_trimmed key provider request resp evs :
  serve key provider request = (Normal resp, evs) ->
  Web.status resp = 200%Z ->
  exists fd mode0,
    form request = Some fd
    /\ Web.get fd (js "mode") = Some (Web.EntryString mode0)
    /\ ((mode0 = js "captions"
         /\ captionItems noOuterWhiteSpace (Web.body resp) = true
         /\ (Web.body resp = staticFallback mode0 ->
             captionItems nonEmptyTrimmed (Web.body resp) = true))
        \/ (mode0 = js "bio"
            /\ bioItems noOuterWhiteSpace (Web.body resp) = true
            /\ (Web.body resp = staticFallback mode0 ->
                bioItems nonEmptyTrimmed (Web.body resp) = true))).
Proof.
  intros Hserve Hstatus.
  destruct (ok_response_sourced _ _ _ _ _ Hserve Hstatus)
    as (fd & mode0 & Hform & Hget & Hm & Hsrc).
  destruct (sourced_shape _ _ Hm Hsrc) as [Hmode Hshape].
  exists fd, mode0. repeat split; try assumption.
  unfold shapeOf in Hshape.
  destruct Hm as [-> | ->].
  - rewrite eqb_refl in Hshape. left. repeat split; auto.
    intros ->. vm_compute. reflexivity.
  - rewrite bio_not_captions in Hshape. right. repeat split; auto.
    intros ->. vm_compute. reflexivity.
Qed.

Lemma ok_response_items_trimmed_witness :
  exists fd mode0,
    form (Example.request (Example.bioForm "120")) = Some fd
    /\ Web.get fd (js "mode") = Some (Web.EntryString mode0)
    /\ ((mode0 = js "captions"
         /\ captionItems noOuterWhiteSpace
              (Web.body (ok (staticFallback (js "bio")))) = true
         /\ (Web.body (ok (staticFallback (js "bio"))) = staticFallback mode0 ->
             captionItems nonEmptyTrimmed
               (Web.body (ok (staticFallback (js "bio")))) = true))
        \/ (mode0 = js "bio"
            /\ bioItems noOuterWhiteSpace
                 (Web.body (ok (staticFallback (js "bio")))) = true
            /\ (Web.body (ok (staticFallback (js "bio"))) = staticFallback mode0 ->
                bioItems nonEmptyTrimmed
                  (Web.body (ok (staticFallback (js "bio")))) = true))).
Proof.
  apply (ok_response_items_trimmed Example.apiKey
           (Example.replying (js "not json"))
           (Example.request (Example.bioForm "120"))
           (ok (staticFallback (js "bio")))
           [Create (originalMessages (js "bio") (Example.bioForm "120"));
            Create (retryMessages (js "bio")
                      (originalMessages (js "bio") (Example.bioForm "120"))
                      (js "not json"))]).
  - vm_compute. reflexivity.
  - reflexivity.
Defined.

(** ** The handler: the corrective cycle *)

Lemma retryMessages_unfold mode0 messages raw :
  retryMessages mode0 messages raw
  = messages ++ [ {| role := assistant; content := content_string raw |};
                  corrective mode0 ].
Proof.
  unfold retryMessages, corrective, captionsRetryMessages, bioRetryMessages.
  destruct (JsString.eqb mode0 (js "captions")); reflexivity.
Qed.

Lemma afterRetry_ok mode0 c : exists body, afterRetry mode0 c = ok body.
Proof.
  unfold afterRetry. destruct c as [raw |]; [| eauto].
  destruct (parsedBody mode0 raw); eauto.
Qed.

(** C2. Take a validated request whose first generating phase returns a
    reply [raw] that does not pass the parser of its mode.  Then the
    handler runs the gateway exactly once more, on the original messages
    followed by [raw] as an assistant message and by the instruction to
    respond again with valid JSON and no commentary: the trace of the
    request is the trace of the first phase (whose attempts all carry the
    original messages) followed by the trace of that one run (one to three
    attempts, all carrying the corrective messages; a single attempt
    unless the provider rate limits it), and nothing else.  If
    that second phase fails too (the gateway raises, or its reply does not
    parse either), the response is the static fallback of the mode at
    status 200; if its reply parses, the response carries its items. *)
Theorem one_corrective_reprompt key provider request fd mode0 raw st1 c2 st2 :
  key <> [] ->
  form request = Some fd ->
  Web.get fd (js "mode") = Some (Web.EntryString mode0) ->
  mode0 = js "captions" \/ mode0 = js "bio" ->
  validFor mode0 fd = true ->
  callOpenAI provider (originalMessages mode0 fd) (started mode0)
  = (Normal raw, st1) ->
  parsedBody mode0 raw = None ->
  callOpenAI provider
    (originalMessages mode0 fd
       ++ [ {| role := assistant; content := content_string raw |};
            corrective mode0 ])
    st1
  = (c2, st2) ->
  snd (serve (Some key) provider request) = events st2
  /\ allCarry (originalMessages mode0 fd) (events st1)
  /\ (exists reprompt,
        events st2 = events st1 ++ reprompt
        /\ allCarry (originalMessages mode0 fd
                       ++ [ {| role := assistant; content := content_string raw |};
                            corrective mode0 ])
                    reprompt
        /\ (1 <= countCreates reprompt <= 3)%nat
        /\ ((forall e,
               failure (provider (events st1)
                          (originalMessages mode0 fd
                             ++ [ {| role := assistant;
                                     content := content_string raw |};
                                  corrective mode0 ]))
               = Some e ->
               isRateLimit e = false) ->
            reprompt
            = [Create (originalMessages mode0 fd
                         ++ [ {| role := assistant;
                                 content := content_string raw |};
                              corrective mode0 ])]))
  /\ (secondFails mode0 c2 ->
      fst (serve (Some key) provider request)
      = Normal {| Web.status := 200; Web.body := staticFallback mode0 |})
  /\ (forall raw' body,
        c2 = Normal raw' -> parsedBody mode0 raw' = Some body ->
        fst (serve (Some key) provider request)
        = Normal {| Web.status := 200; Web.body := body |}).
Proof.
  intros Hkey Hform Hget Hcases Hvalid Hfirst Hparse Hsecond.
  rewrite serve_cases, Hform, (modeOf_known _ _ Hget Hcases).
  rewrite (noApiKey_configured _ Hkey), Hvalid.
  unfold generationOutcome.
  rewrite Hfirst, Hparse, retryMessages_unfold, Hsecond.
  cbn [fst snd].
  destruct (gateway_attempts _ _ _ _ _ Hfirst)
    as (added1 & -> & Hall1 & _).
  destruct (gateway_attempts _ _ _ _ _ Hsecond)
    as (added2 & Hst2 & Hall2 & Hcount2 & _).
  pose proof (gateway_single_attempt _ _ _ _ _ Hsecond) as Hsingle.
  subst st2.
  cbn [addEvents started events app] in *.
  repeat split; try assumption.
  - exists added2. repeat split; try assumption; try apply Hcount2.
    intros Hnot. specialize (Hsingle Hnot).
    apply (f_equal events) in Hsingle. cbn [events] in Hsingle.
    now apply app_inv_head in Hsingle.
  - intros Hfail. unfold afterRetry. destruct c2 as [raw' | e]; [| reflexivity].
    cbn [secondFails] in Hfail. now rewrite Hfail.
  - intros raw' body -> Hbody. unfold afterRetry. now rewrite Hbody.
Qed.

Lemma one_corrective_reprompt_witness :
  snd (serve (Some (js "sk-test")) (Example.replying (js "not json"))
             (Example.request (Example.bioForm "120")))
  = events
      (addEvents (started (js "bio"))
         [Create (originalMessages (js "bio") (Example.bioForm "120"));
          Create (originalMessages (js "bio") (Example.bioForm "120")
                    ++ [ {| role := assistant;
                            content := content_string (js "not json") |};
                         corrective (js "bio") ])])
  /\ allCarry (originalMessages (js "bio") (Example.bioForm "120"))
       (events
          (addEvents (started (js "bio"))
             [Create (originalMessages (js "bio") (Example.bioForm "120"))]))
  /\ (exists reprompt,
        events
          (addEvents (started (js "bio"))
             [Create (originalMessages (js "bio") (Example.bioForm "120"));
              Create (originalMessages (js "bio") (Example.bioForm "120")
                        ++ [ {| role := assistant;
                                content := content_string (js "not json") |};
                             corrective (js "bio") ])])
        = events
            (addEvents (started (js "bio"))
               [Create (originalMessages (js "bio") (Example.bioForm "120"))])
          ++ reprompt
        /\ allCarry (originalMessages (js "bio") (Example.bioForm "120")
                       ++ [ {| role := assistant;
                               content := content_string (js "not json") |};
                            corrective (js "bio") ])
                    reprompt
        /\ (1 <= countCreates reprompt <= 3)%nat
        /\ ((forall e,
               failure (Example.replying (js "not json")
                          (events
                             (addEvents (started (js "bio"))
                                [Create (originalMessages (js "bio")
                                           (Example.bioForm "120"))]))
                          (originalMessages (js "bio") (Example.bioForm "120")
                             ++ [ {| role := assistant;
                                     content := content_string (js "not json") |};
                                  corrective (js "bio") ]))
               = Some e ->
               isRateLimit e = false) ->
            reprompt
            = [Create (originalMessages (js "bio") (Example.bioForm "120")
                         ++ [ {| role := assistant;
                                 content := content_string (js "not json") |};
                              corrective (js "bio") ])]))
  /\ (secondFails (js "bio") (Normal (js "not json")) ->
      fst (serve (Some (js "sk-test")) (Example.replying (js "not json"))
                 (Example.request (Example.bioForm "120")))
      = Normal {| Web.status := 200; Web.body := staticFallback (js "bio") |})
  /\ (forall raw' body,
        Normal (js "not json") = Normal raw' ->
        parsedBody (js "bio") raw' = Some body ->
        fst (serve (Some (js "sk-test")) (Example.replying (js "not json"))
                   (Example.request (Example.bioForm "120")))
        = Normal {| Web.status := 200; Web.body := body |}).
Proof.
  apply (one_corrective_reprompt (js "sk-test")
           (Example.replying (js "not json"))
           (Example.request (Example.bioForm "120"))
           (Example.bioForm "120") (js "bio") (js "not json")).
  - vm_compute. discriminate.
  - reflexivity.
  - reflexivity.
  - right; reflexivity.
  - vm_compute. reflexivity.
  - vm_compute. reflexivity.
  - vm_compute. reflexivity.
  - vm_compute. reflexivity.
Defined.

(** ** The handler: provider errors *)

Lemma ok_not_credentialsFailure body : ok body <> credentialsFailure.
Proof. intros H. inversion H. Qed.

Lemma invalidInput_not_credentialsFailure : invalidInput <> credentialsFailure.
Proof. intros H. inversion H. Qed.

Lemma somethingWentWrong_not_credentialsFailure :
  somethingWentWrong <> credentialsFailure.
Proof. intros H. vm_compute in H. discriminate H. Qed.

Lemma served_response (r r' : Response) (evs evs' : list Event) :
  (Normal r, evs) = (Normal r', evs') -> r = r'.
Proof. congruence. Qed.

(** C3 as the specification states it does not hold: with the mode known
    (bio, for which a fallback is available) an authorization failure of
    the first generating phase is not absorbed: the handler answers 500
    with the credentials message. *)
Lemma unauthorized_not_absorbed :
  modeOf (Example.bioForm "120") = Some (js "bio")
  /\ fallbackOf (Some (js "bio")) = Some (staticFallback (js "bio"))
  /\ serve Example.apiKey Example.alwaysUnauthorized
           (Example.request (Example.bioForm "120"))
     = (Normal {| Web.status := 500;
                  Web.body := JObject [(js "error",
                                        JString (js "Check your OpenAI credentials."))] |},
        [Create (originalMessages (js "bio") (Example.bioForm "120"))]).
Proof. repeat split; vm_compute; reflexivity. Qed.

(** C3, as the code has it.  The credentials failure (status 500,
    [{ error: "Check your OpenAI credentials." }]) is the response exactly
    when the first generating phase of a validated request (so with the
    mode known) ends in an API error of status 401 or 403.  Every other
    outcome of a validated request is a 200 response whose body is the
    static fallback or a parsed provider reply: in particular any other
    error of the first phase, and any error at all, authorization failures
    included, of the corrective phase, is absorbed. *)
Theorem credentials_failure_exactly key provider request resp evs :
  serve key provider request = (Normal resp, evs) ->
  (resp = {| Web.status := 500;
             Web.body := JObject [(js "error",
                                   JString (js "Check your OpenAI credentials."))] |}
   <-> exists fd mode0 e st1,
         form request = Some fd
         /\ modeOf fd = Some mode0
         /\ noApiKey key = false
         /\ validFor mode0 fd = true
         /\ callOpenAI provider (originalMessages mode0 fd) (started mode0)
            = (Throw e, st1)
         /\ instanceofAPIError e && (statusIs e 401 || statusIs e 403) = true)
  /\ (forall fd mode0,
        form request = Some fd -> modeOf fd = Some mode0 ->
        noApiKey key = false -> validFor mode0 fd = true ->
        resp <> {| Web.status := 500;
                   Web.body := JObject [(js "error",
                                         JString (js "Check your OpenAI credentials."))] |} ->
        Web.status resp = 200%Z /\ sourced mode0 (Web.body resp)).
Proof.
  intros Hserve.
  fold (errorBody (js "Check your OpenAI credentials.")).
  fold (NextResponse_json (errorBody (js "Check your OpenAI credentials.")) 500).
  fold credentialsFailure.
  rewrite serve_cases in Hserve.
  split; [split |].
  - (* only then *)
    intros ->.
    destruct (form request) as [fd |].
    2:{ apply served_response in Hserve. now apply somethingWentWrong_not_credentialsFailure in Hserve. }
    destruct (modeOf fd) as [mode0 |] eqn:Hmode.
    2:{ apply served_response in Hserve. now apply invalidInput_not_credentialsFailure in Hserve. }
    destruct (noApiKey key) eqn:Hkey.
    { apply served_response in Hserve. now apply ok_not_credentialsFailure in Hserve. }
    destruct (validFor mode0 fd) eqn:Hvalid.
    2:{ apply served_response in Hserve. now apply invalidInput_not_credentialsFailure in Hserve. }
    unfold generationOutcome in Hserve.
    destruct (callOpenAI provider (originalMessages mode0 fd) (started mode0))
      as [[raw | e] st1] eqn:Hfirst.
    + destruct (parsedBody mode0 raw) as [body |].
      * apply served_response in Hserve. now apply ok_not_credentialsFailure in Hserve.
      * destruct (callOpenAI provider
                    (retryMessages mode0 (originalMessages mode0 fd) raw) st1)
          as [c2 st2].
        destruct (afterRetry_ok mode0 c2) as [body Hbody].
        rewrite Hbody in Hserve. apply served_response in Hserve. now apply ok_not_credentialsFailure in Hserve.
    + unfold afterFailure in Hserve.
      destruct (authorizationFailure e) eqn:Hauth.
      * exists fd, mode0, e, st1. repeat split; auto.
      * apply served_response in Hserve. now apply ok_not_credentialsFailure in Hserve.
  - (* then *)
    intros (fd & mode0 & e & st1 & Hform & Hmode & Hkey & Hvalid & Hfirst & Hauth).
    rewrite Hform, Hmode, Hkey, Hvalid in Hserve.
    unfold generationOutcome in Hserve. rewrite Hfirst in Hserve.
    unfold afterFailure, authorizationFailure in Hserve.
    rewrite Hauth in Hserve.
    apply served_response in Hserve. now symmetry.
  - (* everything else is absorbed *)
    intros fd mode0 Hform Hmode Hkey Hvalid Hnot.
    rewrite Hform, Hmode, Hkey, Hvalid in Hserve.
    destruct (generationOutcome_response provider mode0 (originalMessages mode0 fd))
      as (resp' & Hfst & Hcases).
    rewrite Hserve in Hfst. cbn [fst] in Hfst. inversion Hfst; subst resp'.
    destruct Hcases as [-> | (body & -> & Hsrc)]; [contradiction |].
    split; [reflexivity | exact Hsrc].
Qed.

Lemma credentials_failure_exactly_witness :
  (credentialsFailure
   = {| Web.status := 500;
        Web.body := JObject [(js "error",
                              JString (js "Check your OpenAI credentials."))] |}
   <-> exists fd mode0 e st1,
         form (Example.request (Example.bioForm "120")) = Some fd
         /\ modeOf fd = Some mode0
         /\ noApiKey Example.apiKey = false
         /\ validFor mode0 fd = true
         /\ callOpenAI Example.alwaysUnauthorized
                       (originalMessages mode0 fd) (started mode0)
            = (Throw e, st1)
         /\ instanceofAPIError e && (statusIs e 401 || statusIs e 403) = true)
  /\ (forall fd mode0,
        form (Example.request (Example.bioForm "120")) = Some fd ->
        modeOf fd = Some mode0 ->
        noApiKey Example.apiKey = false -> validFor mode0 fd = true ->
        credentialsFailure
        <> {| Web.status := 500;
              Web.body := JObject [(js "error",
                                    JString (js "Check your OpenAI credentials."))] |} ->
        Web.status credentialsFailure = 200%Z
        /\ sourced mode0 (Web.body credentialsFailure)).
Proof.
  apply (credentials_failure_exactly Example.apiKey Example.alwaysUnauthorized
           (Example.request (Example.bioForm "120")) credentialsFailure
           [Create (originalMessages (js "bio") (Example.bioForm "120"))]).
  vm_compute. reflexivity.
Defined.

(** ** A complete run *)

(** A provider that keeps answering 429 with [retry-after: 2]: the handler
    calls it three times, sleeps two seconds after the first and after the
    second call, and answers with the static bios at status 200. *)
Example rate_limited_request_falls_back :
  serve Example.apiKey Example.alwaysRateLimited
        (Example.request (Example.bioForm "120"))
  = (Normal {| Web.status := 200; Web.body := staticFallback (js "bio") |},
     [ Create (originalMessages (js "bio") (Example.bioForm "120"));
       Sleep (JsNumber.Finite 2000);
       Create (originalMessages (js "bio") (Example.bioForm "120"));
       Sleep (JsNumber.Finite 2000);
       Create (originalMessages (js "bio") (Example.bioForm "120")) ]).
Proof. vm_compute. reflexivity. Qed.

(* ================================================================== *)
(** * Part VI. Further properties of the route and of its caller        *)
(* ================================================================== *)

(** ** Validation rules, one by one *)

Lemma includes_In arr s : JsString.includes arr s = true <-> In s arr.
Proof.
  unfold JsString.includes. rewrite existsb_exists. split.
  - intros (x & Hin & Heq). apply eqb_eq in Heq. now subst.
  - intros Hin. exists s. split; [exact Hin | apply eqb_refl].
Qed.

Lemma toneAllowed_knownTone tone : toneAllowed tone = true <-> knownTone tone.
Proof.
  unfold toneAllowed, knownTone. destruct tone as [t |].
  - rewrite includes_In. split.
    + intros H. exists t. auto.
    + intros (t' & [= <-] & H). exact H.
  - split; [discriminate |]. intros (t' & H & _). discriminate H.
Qed.

Lemma knownTone_not_empty tone : knownTone tone -> noTone tone = false.
Proof.
  intros (t & -> & Hin). cbn [noTone].
  destruct t as [| c t]; [| reflexivity].
  exfalso. unfold allowedTones in Hin. cbn [In] in Hin.
  repeat (destruct Hin as [Hin | Hin]; [vm_compute in Hin; discriminate Hin |]).
  exact Hin.
Qed.

Lemma acceptableImage_checks image :
  JsString.includes [js "image/png"; js "image/jpeg"] (Web.type image)
  && (Web.size image <=? 3 * 1024 * 1024)%Z = true
  <-> acceptableImage image.
Proof.
  unfold acceptableImage.
  rewrite andb_true_iff, includes_In, Z.leb_le. cbn [In].
  intuition congruence.
Qed.

(** An integer between 40 and 220 passes the [maxChars] check. *)
Lemma integerInRange_accepted n :
  integerInRange n -> maxCharsRejected (Some n) = false.
Proof.
  destruct n as [| neg | q]; cbn [integerInRange]; try contradiction.
  intros (z & Hq & Hlo & Hhi).
  unfold maxCharsRejected. rewrite ofZ_maxCharsMin, ofZ_maxCharsMax.
  unfold JsNumber.gtb. cbn [JsNumber.isInteger JsNumber.ltb].
  assert (Hint : (Z.rem (Qnum q) (Zpos (Qden q)) =? 0)%Z = true).
  { apply Z.eqb_eq. unfold Qeq, inject_Z in Hq. cbn [Qnum Qden] in Hq.
    rewrite Z.mul_1_r in Hq. rewrite Hq. apply Z.rem_mul. discriminate. }
  rewrite Hint. cbn [negb orb].
  assert (Hle1 : Qle_bool 40 q = true).
  { apply Qle_bool_iff. rewrite Hq. unfold maxCharsMin in Hlo.
    change (inject_Z 40 <= inject_Z z). rewrite <- Zle_Qle. exact Hlo. }
  assert (Hle2 : Qle_bool q 220 = true).
  { apply Qle_bool_iff. rewrite Hq. unfold maxCharsMax in Hhi.
    change (inject_Z z <= inject_Z 220). rewrite <- Zle_Qle. exact Hhi. }
  now rewrite Hle1, Hle2.
Qed.

Lemma maxCharsRejected_iff n :
  maxCharsRejected (Some n) = true <-> ~ integerInRange n.
Proof.
  split.
  - intros Hrej Hin. apply integerInRange_accepted in Hin. congruence.
  - intros Hout. destruct (maxCharsRejected (Some n)) eqn:E; [reflexivity |].
    elim Hout. now apply accepted_integerInRange.
Qed.

Lemma maxCharsRejected_form fd :
  maxCharsRejected (maxCharsOf fd) = true
  <-> exists n, maxCharsOf fd = Some n /\ ~ integerInRange n.
Proof.
  destruct (maxCharsOf fd) as [n |].
  - rewrite maxCharsRejected_iff. split.
    + intros H. eauto.
    + intros (n' & [= <-] & H). exact H.
  - split; [discriminate |]. intros (n & H & _). discriminate H.
Qed.

Lemma generationOutcome_not_invalid provider mode0 messages evs :
  generationOutcome provider mode0 messages <> (Normal invalidInput, evs).
Proof.
  intros H.
  destruct (generationOutcome_response provider mode0 messages)
    as (resp & Hfst & Hcases).
  rewrite H in Hfst. cbn [fst] in Hfst. inversion Hfst; subst resp.
  destruct Hcases as [Hc | (body & Hb & _)].
  - now apply invalidInput_not_credentialsFailure in Hc.
  - inversion Hb.
Qed.

(** The response of a request with a configured key and a known mode is
    the rejection exactly when the validation of the mode fails. *)
Lemma rejected_iff_invalid key provider request fd mode0 :
  key <> [] ->
  form request = Some fd ->
  Web.get fd (js "mode") = Some (Web.EntryString mode0) ->
  mode0 = js "captions" \/ mode0 = js "bio" ->
  (serve (Some key) provider request = (Normal invalidInput, [])
   <-> validFor mode0 fd = false).
Proof.
  intros Hkey Hform Hget Hcases.
  rewrite serve_cases, Hform, (modeOf_known _ _ Hget Hcases).
  rewrite (noApiKey_configured _ Hkey).
  destruct (validFor mode0 fd); split; try reflexivity; try discriminate.
  intros H. now apply generationOutcome_not_invalid in H.
Qed.

(** X1. Captions mode, with an API key configured: the request is answered
    400 [{ error: "Invalid input" }] (and the provider is not called)
    exactly when one of the rules of the mode is broken: [maxChars] is a
    non-empty string that is not an integer from 40 to 220; the tone,
    lower-cased, is not one of the four allowed words (an absent tone and
    a tone sent as a file included); the trimmed guidance is longer than
    280 characters; there is no [image] file (no entry, or a string); the
    image is not a PNG or JPEG, or is larger than 3 MiB. *)
Theorem captions_rejected_exactly key provider request fd :
  key <> [] ->
  form request = Some fd ->
  Web.get fd (js "mode") = Some (Web.EntryString (js "captions")) ->
  (serve (Some key) provider request
   = (Normal {| Web.status := 400;
                Web.body := JObject [(js "error", JString (js "Invalid input"))] |},
      [])
   <-> (exists n, maxCharsOf fd = Some n /\ ~ integerInRange n)
       \/ ~ knownTone (toneOf fd)
       \/ (280 < JsString.length (guidanceOf fd))%Z
       \/ (forall image, Web.get fd (js "image") <> Some (Web.EntryFile image))
       \/ (exists image,
             Web.get fd (js "image") = Some (Web.EntryFile image)
             /\ ~ acceptableImage image)).
Proof.
  intros Hkey Hform Hget.
  change {| Web.status := 400;
            Web.body := JObject [(js "error", JString (js "Invalid input"))] |}
    with invalidInput.
  rewrite (rejected_iff_invalid key provider request fd (js "captions")
             Hkey Hform Hget (or_introl eq_refl)).
  unfold validFor. rewrite eqb_refl. unfold captionsValid.
  rewrite <- maxCharsRejected_form.
  destruct (maxCharsRejected (maxCharsOf fd)) eqn:R; cbn [negb andb].
  { split; auto. }
  pose proof (toneAllowed_knownTone (toneOf fd)) as Htone.
  destruct (toneAllowed (toneOf fd)) eqn:TA.
  2:{ rewrite andb_false_r. cbn [andb]. split; [| reflexivity].
      intros _. right; left. intros K. apply Htone in K. discriminate K. }
  rewrite (knownTone_not_empty _ (proj1 Htone eq_refl)). cbn [negb andb].
  unfold maxCaptionGuidanceLength.
  destruct (JsString.length (guidanceOf fd) <=? 280)%Z eqn:GL; cbn [andb].
  2:{ apply Z.leb_gt in GL. split; [| reflexivity].
      intros _. right; right; left. exact GL. }
  apply Z.leb_le in GL.
  assert (Hknown : knownTone (toneOf fd)) by (now apply Htone).
  destruct (Web.get fd (js "image")) as [[s | image] |] eqn:Himg;
    cbn [entryFile].
  - split; [| reflexivity]. intros _. do 3 right. left.
    intros image. discriminate.
  - pose proof (acceptableImage_checks image) as Hacc.
    destruct (JsString.includes [js "image/png"; js "image/jpeg"] (Web.type image)
              && (Web.size image <=? 3 * 1024 * 1024)%Z) eqn:A.
    + split; [discriminate |].
      intros [H | [H | [H | [H | H]]]].
      * discriminate H.
      * contradiction.
      * lia.
      * elim (H image). reflexivity.
      * destruct H as (image' & [= <-] & Hn). elim Hn. now apply Hacc.
    + split; [| reflexivity]. intros _. do 4 right.
      exists image. split; [reflexivity |]. intros Hn.
      apply Hacc in Hn. discriminate Hn.
  - split; [| reflexivity]. intros _. do 3 right. left.
    intros image. discriminate.
Qed.

Lemma captions_rejected_exactly_witness :
  serve (Some (js "sk-test")) Example.alwaysUnauthorized
        (Example.request Sample.noImageForm)
  = (Normal {| Web.status := 400;
               Web.body := JObject [(js "error", JString (js "Invalid input"))] |},
     [])
  <-> (exists n, maxCharsOf Sample.noImageForm = Some n /\ ~ integerInRange n)
      \/ ~ knownTone (toneOf Sample.noImageForm)
      \/ (280 < JsString.length (guidanceOf Sample.noImageForm))%Z
      \/ (forall image,
            Web.get Sample.noImageForm (js "image") <> Some (Web.EntryFile image))
      \/ (exists image,
            Web.get Sample.noImageForm (js "image") = Some (Web.EntryFile image)
            /\ ~ acceptableImage image).
Proof.
  apply (captions_rejected_exactly (js "sk-test") Example.alwaysUnauthorized
           (Example.request Sample.noImageForm) Sample.noImageForm).
  - vm_compute. discriminate.
  - reflexivity.
  - reflexivity.
Defined.

(** X2. Bio mode, with an API key configured: the request is answered 400
    [{ error: "Invalid input" }] (and the provider is not called) exactly
    when [maxChars] is a non-empty string that is not an integer from 40
    to 220, or the trimmed guidance has fewer than 10 or more than 400
    characters (a missing guidance counts as empty), or the tone is a
    non-empty string that, lower-cased, is not one of the four allowed
    words.  No image is asked for. *)
Theorem bio_rejected_exactly key provider request fd :
  key <> [] ->
  form request = Some fd ->
  Web.get fd (js "mode") = Some (Web.EntryString (js "bio")) ->
  (serve (Some key) provider request
   = (Normal {| Web.status := 400;
                Web.body := JObject [(js "error", JString (js "Invalid input"))] |},
      [])
   <-> (exists n, maxCharsOf fd = Some n /\ ~ integerInRange n)
       \/ (JsString.length (guidanceOf fd) < 10)%Z
       \/ (400 < JsString.length (guidanceOf fd))%Z
       \/ (exists t, toneOf fd = Some t /\ t <> [] /\ ~ In t allowedTones)).
Proof.
  intros Hkey Hform Hget.
  change {| Web.status := 400;
            Web.body := JObject [(js "error", JString (js "Invalid input"))] |}
    with invalidInput.
  rewrite (rejected_iff_invalid key provider request fd (js "bio")
             Hkey Hform Hget (or_intror eq_refl)).
  unfold validFor. rewrite bio_not_captions. unfold bioValid.
  rewrite <- maxCharsRejected_form.
  destruct (maxCharsRejected (maxCharsOf fd)) eqn:R; cbn [negb andb].
  { split; auto. }
  unfold minBioGuidanceLength, maxBioGuidanceLength.
  destruct (10 <=? JsString.length (guidanceOf fd))%Z eqn:Lo; cbn [andb].
  2:{ apply Z.leb_gt in Lo. split; [| reflexivity]. intros _. right; left.
      exact Lo. }
  destruct (JsString.length (guidanceOf fd) <=? 400)%Z eqn:Hi; cbn [andb].
  2:{ apply Z.leb_gt in Hi. split; [| reflexivity]. intros _.
      right; right; left. exact Hi. }
  apply Z.leb_le in Lo, Hi.
  destruct (toneOf fd) as [t |] eqn:T; cbn [noTone toneAllowed].
  - destruct t as [| c t]; cbn [JsString.truthy negb orb].
    + split; [discriminate |].
      intros [H | [H | [H | (t' & [= <-] & Hne & _)]]];
        try discriminate H; try lia. now elim Hne.
    + pose proof (includes_In allowedTones (c :: t)) as Hin.
      destruct (JsString.includes allowedTones (c :: t)).
      * split; [discriminate |].
        intros [H | [H | [H | (t' & [= <-] & _ & Hn)]]];
          try discriminate H; try lia. elim Hn. now apply Hin.
      * split; [| reflexivity]. intros _. do 3 right.
        exists (c :: t). repeat split; try discriminate.
        intros Hn. apply Hin in Hn. discriminate Hn.
  - split; [discriminate |].
    intros [H | [H | [H | (t' & H & _)]]]; try discriminate H; lia.
Qed.

Lemma bio_rejected_exactly_witness :
  serve (Some (js "sk-test")) Example.alwaysUnauthorized
        (Example.request Sample.shortBioForm)
  = (Normal {| Web.status := 400;
               Web.body := JObject [(js "error", JString (js "Invalid input"))] |},
     [])
  <-> (exists n, maxCharsOf Sample.shortBioForm = Some n /\ ~ integerInRange n)
      \/ (JsString.length (guidanceOf Sample.shortBioForm) < 10)%Z
      \/ (400 < JsString.length (guidanceOf Sample.shortBioForm))%Z
      \/ (exists t, toneOf Sample.shortBioForm = Some t /\ t <> []
                    /\ ~ In t allowedTones).
Proof.
  apply (bio_rejected_exactly (js "sk-test") Example.alwaysUnauthorized
           (Example.request Sample.shortBioForm) Sample.shortBioForm).
  - vm_compute. discriminate.
  - reflexivity.
  - reflexivity.
Defined.

(** ** What the handler answers, and when it calls the provider *)

(** X3. The handler always completes with a response, whatever the
    request, the environment and the provider do: an error of the provider
    or of [request.formData()] never escapes it.  The response is a 200
    with items, or one of three errors: 400 [Invalid input], 500
    [Check your OpenAI credentials.], 500 [Something went wrong] (the last
    only when the body cannot be read as a form).  The 429
    [Easy there. Try again in a moment.] answer of the [catch] block is
    never given: a rate limit is only seen once the mode is known. *)
Theorem POST_always_answers key provider request :
  exists resp,
    fst (serve key provider request) = Normal resp
    /\ ((exists fd mode0 body,
           form request = Some fd /\ modeOf fd = Some mode0
           /\ resp = {| Web.status := 200; Web.body := body |}
           /\ JSON.get body (js "mode") = Some (JString mode0))
        \/ resp = {| Web.status := 400;
                     Web.body := JObject [(js "error", JString (js "Invalid input"))] |}
        \/ resp = {| Web.status := 500;
                     Web.body := JObject [(js "error",
                                           JString (js "Check your OpenAI credentials."))] |}
        \/ (form request = None
            /\ resp = {| Web.status := 500;
                         Web.body := JObject [(js "error",
                                               JString (js "Something went wrong"))] |}))
    /\ resp <> rateLimitedResponse
    /\ Web.status resp <> 429%Z.
Proof.
  destruct (serve_response key provider request) as (resp & Hfst & Hcases).
  exists resp. split; [exact Hfst |].
  assert (Hcase :
    (exists fd mode0 body,
        form request = Some fd /\ modeOf fd = Some mode0
        /\ resp = ok body
        /\ JSON.get body (js "mode") = Some (JString mode0))
    \/ resp = invalidInput \/ resp = credentialsFailure
    \/ (form request = None /\ resp = somethingWentWrong)).
  { destruct Hcases as [[Hnone ->] | [(fd & _ & ->) | (fd & mode0 & Hform & Hmode & H)]];
      auto.
    destruct H as [-> | (body & -> & Hsrc)]; auto.
    left. exists fd, mode0, body. repeat split; auto.
    destruct (modeOf_cases _ _ Hmode) as [_ Hm].
    now destruct (sourced_shape _ _ Hm Hsrc). }
  split; [exact Hcase |].
  assert (Hstatus : Web.status resp <> 429%Z).
  { destruct Hcase as [(fd & mode0 & body & _ & _ & -> & _) | [-> | [-> | [_ ->]]]];
      discriminate. }
  split; [| exact Hstatus].
  intros ->. now apply Hstatus.
Qed.

Lemma generationOutcome_trace provider mode0 messages :
  exists first,
    allCarry messages first
    /\ (1 <= countCreates first <= 3)%nat
    /\ (countSleeps first <= 2)%nat
    /\ (snd (generationOutcome provider mode0 messages) = first
        \/ exists raw second,
             parsedBody mode0 raw = None
             /\ allCarry (retryMessages mode0 messages raw) second
             /\ (1 <= countCreates second <= 3)%nat
             /\ (countSleeps second <= 2)%nat
             /\ snd (generationOutcome provider mode0 messages)
                = first ++ second).
Proof.
  unfold generationOutcome.
  destruct (callOpenAI provider messages (started mode0)) as [c1 st1] eqn:R1.
  destruct (gateway_attempts _ _ _ _ _ R1)
    as (first & -> & Hall1 & Hc1 & Hs1 & _).
  exists first. unfold MAX_OPENAI_ATTEMPTS in Hc1.
  repeat split; try assumption; try lia.
  destruct c1 as [raw | e]; [| left; reflexivity].
  destruct (parsedBody mode0 raw) as [body |] eqn:P; [left; reflexivity |].
  destruct (callOpenAI provider (retryMessages mode0 messages raw)
                       (addEvents (started mode0) first)) as [c2 st2] eqn:R2.
  destruct (gateway_attempts _ _ _ _ _ R2)
    as (second & -> & Hall2 & Hc2 & Hs2 & _).
  right. exists raw, second. unfold MAX_OPENAI_ATTEMPTS in Hc2.
  repeat split; try assumption; try lia.
Qed.



Lemma originalMessages_system mode0 fd :
  validFor mode0 fd = true ->
  exists rest, originalMessages mode0 fd = systemMessage :: rest.
Proof.
  unfold validFor, originalMessages.
  destruct (JsString.eqb mode0 (js "captions")).
  - unfold captionsValid. intros H.
    destruct (entryFile (Web.get fd (js "image"))) as [image |].
    + eexists. reflexivity.
    + now rewrite andb_false_r in H.
  - intros _. eexists. reflexivity.
Qed.

Lemma allCarry_In messages evs m :
  allCarry messages evs -> In (Create m) evs -> m = messages.
Proof.
  unfold allCarry. rewrite Forall_forall. intros H Hin. exact (H _ Hin).
Qed.

(** X5. One request costs at most six provider calls and four back-off
    sleeps (three calls and two sleeps for the first generating phase, as
    many for the corrective one), whatever the provider answers; and every
    call the handler makes sends a conversation that begins with the
    system prompt. *)
Theorem request_provider_budget key provider request :
  (countCreates (snd (serve key provider request)) <= 6)%nat
  /\ (countSleeps (snd (serve key provider request)) <= 4)%nat
  /\ forall m,
       In (Create m) (snd (serve key provider request)) ->
       exists rest,
         m = {| role := system; content := content_string systemPrompt |} :: rest.
Proof.
  rewrite serve_cases.
  destruct (form request) as [fd |];
    [| cbn; repeat split; try lia; contradiction].
  destruct (modeOf fd) as [mode0 |];
    [| cbn; repeat split; try lia; contradiction].
  destruct (noApiKey key); [cbn; repeat split; try lia; contradiction |].
  destruct (validFor mode0 fd) eqn:Hvalid;
    [| cbn; repeat split; try lia; contradiction].
  destruct (originalMessages_system _ _ Hvalid) as [rest0 Horig].
  destruct (generationOutcome_trace provider mode0 (originalMessages mode0 fd))
    as (first & Hall1 & Hc1 & Hs1 & Hsnd).
  destruct Hsnd as [-> | (raw & second & _ & Hall2 & Hc2 & Hs2 & ->)].
  - repeat split; try lia.
    intros m Hin. rewrite (allCarry_In _ _ _ Hall1 Hin). eauto.
  - rewrite countCreates_app, countSleeps_app. repeat split; try lia.
    intros m Hin. apply in_app_or in Hin. destruct Hin as [Hin | Hin].
    + rewrite (allCarry_In _ _ _ Hall1 Hin). eauto.
    + rewrite (allCarry_In _ _ _ Hall2 Hin), retryMessages_unfold, Horig.
      eexists. reflexivity.
Qed.

(** X6. The handler reads a form only through five things: its [mode]
    entry, its tone lower-cased, its guidance trimmed, the number its
    [maxChars] denotes, and its [image] file.  Two forms that agree on
    these get the same response and the same provider calls: any other
    field is ignored, the order of the fields does not matter, the tone is
    matched without regard to case, blanks around the guidance are
    dropped, and ["120"] and ["1.2e2"] are the same limit. *)
Theorem handler_reads_five_fields key provider fd1 fd2 :
  Web.get fd1 (js "mode") = Web.get fd2 (js "mode") ->
  toneOf fd1 = toneOf fd2 ->
  guidanceOf fd1 = guidanceOf fd2 ->
  maxCharsOf fd1 = maxCharsOf fd2 ->
  entryFile (Web.get fd1 (js "image")) = entryFile (Web.get fd2 (js "image")) ->
  serve key provider {| form := Some fd1 |}
  = serve key provider {| form := Some fd2 |}.
Proof.
  intros Hmode Htone Hguid Hmax Himg.
  rewrite !serve_cases. cbn [form].
  assert (M : modeOf fd1 = modeOf fd2) by (unfold modeOf; now rewrite Hmode).
  assert (V : forall mode0, validFor mode0 fd1 = validFor mode0 fd2).
  { intros mode0. unfold validFor, captionsValid, bioValid.
    now rewrite Htone, Hguid, Hmax, Himg. }
  assert (O : forall mode0,
             originalMessages mode0 fd1 = originalMessages mode0 fd2).
  { intros mode0. unfold originalMessages.
    now rewrite Htone, Hguid, Hmax, Himg. }
  rewrite M. destruct (modeOf fd2) as [mode0 |]; [| reflexivity].
  now rewrite V, O.
Qed.

Lemma handler_reads_five_fields_witness :
  serve Example.apiKey (Example.replying Sample.paddedCaptions)
        {| form := Some (Example.captionsForm "120") |}
  = serve Example.apiKey (Example.replying Sample.paddedCaptions)
          {| form := Some Sample.variantCaptionsForm |}.
Proof.
  apply (handler_reads_five_fields Example.apiKey
           (Example.replying Sample.paddedCaptions)
           (Example.captionsForm "120") Sample.variantCaptionsForm);
    vm_compute; reflexivity.
Defined.

(** ** The gateway: back-off and result *)

Lemma ofZ_0 : JsNumber.ofZ 0 = JsNumber.Finite 0.
Proof. vm_compute. reflexivity. Qed.

Lemma ofZ_20 : JsNumber.ofZ 20 = JsNumber.Finite 20.
Proof. vm_compute. reflexivity. Qed.

Lemma parseFloat_empty : JsNumber.parseFloat [] = JsNumber.NaN.
Proof. vm_compute. reflexivity. Qed.

Lemma gtb_zero q :
  JsNumber.gtb (JsNumber.Finite q) (JsNumber.Finite 0) = true <-> 0 < q.
Proof.
  unfold JsNumber.gtb. cbn [JsNumber.ltb].
  rewrite negb_true_iff. split.
  - intros H. apply Qnot_le_lt. intros Hle.
    apply Qle_bool_iff in Hle. congruence.
  - intros H. destruct (Qle_bool q 0) eqn:E; [| reflexivity].
    apply Qle_bool_iff in E. exfalso. exact (Qlt_not_le _ _ H E).
Qed.

(** X7. The back-off after a rate-limited attempt is always a finite,
    positive number of seconds.  It is the number [parseFloat] reads from
    the [retry-after] header when that number is finite and positive, and
    20 in every other case: no header, an empty header, a header that is
    not a number, an infinite one, zero or a negative number. *)
Theorem backoff_is_finite_and_positive e :
  (exists q, waitSeconds e = JsNumber.Finite q /\ 0 < q)
  /\ (forall h q,
        retryAfter e = Some h ->
        JsNumber.parseFloat h = JsNumber.Finite q -> 0 < q ->
        waitSeconds e = JsNumber.Finite q)
  /\ (retryAfter e = None -> waitSeconds e = JsNumber.Finite 20)
  /\ (forall h,
        retryAfter e = Some h ->
        match JsNumber.parseFloat h with
        | JsNumber.Finite q => q <= 0
        | _ => True
        end ->
        waitSeconds e = JsNumber.Finite 20).
Proof.
  unfold waitSeconds. rewrite ofZ_0, ofZ_20.
  assert (H20 : exists q, JsNumber.Finite 20 = JsNumber.Finite q /\ 0 < q).
  { exists 20. split; reflexivity. }
  destruct (retryAfter e) as [h |].
  2:{ cbn [JsNumber.isFinite andb].
      split; [exact H20 | split; [| split]].
      - discriminate.
      - reflexivity.
      - discriminate. }
  destruct h as [| c h].
  { cbn [JsString.truthy JsNumber.isFinite andb].
    split; [exact H20 | split; [| split]].
    - intros h q [= <-]. rewrite parseFloat_empty. discriminate.
    - discriminate.
    - reflexivity. }
  cbn [JsString.truthy].
  destruct (JsNumber.parseFloat (c :: h)) as [| neg | q] eqn:P;
    cbn [JsNumber.isFinite andb].
  - split; [exact H20 | split; [| split]].
    + intros h' q' [= <-]. rewrite P. discriminate.
    + discriminate.
    + reflexivity.
  - split; [exact H20 | split; [| split]].
    + intros h' q' [= <-]. rewrite P. discriminate.
    + discriminate.
    + reflexivity.
  - pose proof (gtb_zero q) as Hq.
    destruct (JsNumber.gtb (JsNumber.Finite q) (JsNumber.Finite 0)).
    + assert (Hpos : 0 < q) by (now apply Hq).
      split; [| split; [| split]].
      * exists q. split; [reflexivity | exact Hpos].
      * intros h' q' [= <-]. rewrite P. now intros [= <-].
      * discriminate.
      * intros h' [= <-]. rewrite P. intros Hle.
        exfalso. exact (Qlt_not_le _ _ Hpos Hle).
    + split; [exact H20 | split; [| split]].
      * intros h' q' [= <-]. rewrite P. intros [= <-] Hpos.
        apply Hq in Hpos. discriminate Hpos.
      * discriminate.
      * reflexivity.
Qed.

Lemma contentText_trimmed content :
  noOuterWhiteSpace (contentText content) = true.
Proof. destruct content; apply trim_noOuterWhiteSpace. Qed.

(** X8. Whatever form the content of the reply has (a string, an array
    of parts, or anything else), the text the gateway returns has no
    whitespace at either end; and the gateway leaves the [mode] of the
    request untouched. *)
Theorem callOpenAI_returns_trimmed_text provider messages st raw st' :
  callOpenAI provider messages st = (Normal raw, st') ->
  noOuterWhiteSpace raw = true /\ mode st' = mode st.
Proof.
  intros Hrun. split; [| exact (callOpenAI_mode _ _ _ _ _ Hrun)].
  destruct (gateway_run _ _ _ _ _ Hrun) as (errs & _ & _ & _ & Hfinal).
  destruct (provider (events st ++ flat_map (backoff messages) errs) messages)
    as [content | e]; cbn [failure] in Hfinal.
  - destruct (emptyContent content).
    + destruct Hfinal as [H _]. discriminate H.
    + inversion Hfinal; subst. cbn [outcomeText]. apply contentText_trimmed.
  - destruct Hfinal as [H _]. discriminate H.
Qed.

Lemma callOpenAI_returns_trimmed_text_witness :
  noOuterWhiteSpace (js "three bios") = true
  /\ mode {| mode := None;
             events := backoff (Example.bioPrompt None) Example.rateLimited
                       ++ [Create (Example.bioPrompt None)] |}
     = mode initial.
Proof.
  apply (callOpenAI_returns_trimmed_text
           (Example.limitedOnce (js " three bios "))
           (Example.bioPrompt None) initial).
  vm_compute. reflexivity.
Defined.

(** ** The parsers of the provider's reply *)

Lemma get_truthy v key x : JSON.get v key = Some x -> JSON.truthy v = true.
Proof. destruct v; cbn [JSON.get]; try discriminate. reflexivity. Qed.

Lemma asString_Some v s : asString v = Some s <-> v = Some (JString s).
Proof.
  destruct v as [[| | | | |] |]; cbn [asString]; split;
    intros H; try discriminate; now inversion H.
Qed.

Lemma mapThrowing_Forall2 {A B} (f : A -> Completion B) (R : A -> B -> Prop) :
  (forall x y, f x = Normal y <-> R x y) ->
  forall l ys, mapThrowing f l = Normal ys <-> Forall2 R l ys.
Proof.
  intros Hf. induction l as [| x l IH]; intros ys; cbn [mapThrowing].
  - split.
    + intros H; inversion H; constructor.
    + intros H; inversion H; reflexivity.
  - split.
    + destruct (f x) as [y |] eqn:Fx; [| discriminate].
      destruct (mapThrowing f l) as [ys' |] eqn:M; [| discriminate].
      intros H; inversion H; subst. constructor.
      * now apply Hf.
      * now apply IH.
    + intros H. inversion H as [| x' y l' ys' Hxy Hrest]; subst.
      apply Hf in Hxy. rewrite Hxy.
      apply IH in Hrest. rewrite Hrest. reflexivity.
Qed.

Lemma itemsOfLength_Some parsed n l :
  itemsOfLength parsed n = Some l
  <-> JSON.get parsed (js "items") = Some (JArray l) /\ List.length l = n.
Proof.
  unfold itemsOfLength.
  destruct (JSON.get parsed (js "items")) as [v |].
  2:{ split; [discriminate | intros [H _]; discriminate H]. }
  destruct v as [| b | x | s | l' | members]; cbn [JSON.truthy negb].
  - split; [discriminate | intros [H _]; discriminate H].
  - destruct b; cbn [negb];
      (split; [discriminate | intros [H _]; discriminate H]).
  - destruct (negb (JsNumber.truthy x));
      (split; [discriminate | intros [H _]; discriminate H]).
  - destruct (negb (JsString.truthy s));
      (split; [discriminate | intros [H _]; discriminate H]).
  - destruct (Nat.eqb (List.length l') n) eqn:E.
    + apply Nat.eqb_eq in E. split.
      * intros H; inversion H; subst. split; reflexivity.
      * intros [H _]. inversion H; subst. reflexivity.
    + apply Nat.eqb_neq in E. split; [discriminate |].
      intros [H Hn]. inversion H; subst. contradiction.
  - split; [discriminate | intros [H _]; discriminate H].
Qed.

Lemma captionItem_captionOf item parsed :
  captionItem item = Normal parsed <-> captionOf item parsed.
Proof.
  unfold captionItem, captionOf. split.
  - destruct (negb (JSON.truthy item)); [discriminate |].
    destruct (asString (JSON.get item (js "text"))) as [t |] eqn:Et;
      [| discriminate].
    destruct (asString (JSON.get item (js "hashtags"))) as [h |] eqn:Eh;
      [| discriminate].
    intros H; inversion H; subst. exists t, h.
    apply asString_Some in Et. apply asString_Some in Eh. now repeat split.
  - intros (t & h & Ht & Hh & ->).
    rewrite (get_truthy _ _ _ Ht). cbn [negb].
    rewrite Ht, Hh. reflexivity.
Qed.

Lemma bioItem_bioOf item parsed :
  bioItem item = Normal parsed <-> bioOf item parsed.
Proof.
  unfold bioItem, bioOf. split.
  - destruct (negb (JSON.truthy item)); [discriminate |].
    destruct (asString (JSON.get item (js "text"))) as [t |] eqn:Et;
      [| discriminate].
    intros H; inversion H; subst. exists t.
    apply asString_Some in Et. now split.
  - intros (t & Ht & ->).
    rewrite (get_truthy _ _ _ Ht). cbn [negb].
    rewrite Ht. reflexivity.
Qed.

(** X9. The captions parser accepts a reply exactly when the reply is
    JSON text whose [items] member is an array of five entries, each an
    object with a string [text] and a string [hashtags]; the result is
    then, entry by entry and in order, the two strings trimmed.  Other
    members of an entry are ignored, and of a repeated key the last one
    counts. *)
Theorem captions_parser_accepts_exactly raw items :
  parseCaptionsPayload raw = Normal items
  <-> exists parsed entries,
        JSON.parse raw = Some parsed
        /\ JSON.get parsed (js "items") = Some (JArray entries)
        /\ List.length entries = 5%nat
        /\ Forall2 captionOf entries items.
Proof.
  unfold parseCaptionsPayload, JSON_parse. split.
  - destruct (JSON.parse raw) as [parsed |]; [| discriminate].
    destruct (itemsOfLength parsed 5) as [l |] eqn:El; [| discriminate].
    intros H. apply itemsOfLength_Some in El. destruct El as [Hget Hlen].
    exists parsed, l. repeat split; try assumption.
    now apply (mapThrowing_Forall2 captionItem captionOf captionItem_captionOf).
  - intros (parsed & l & -> & Hget & Hlen & Hall).
    rewrite (proj2 (itemsOfLength_Some parsed 5 l) (conj Hget Hlen)).
    now apply (mapThrowing_Forall2 captionItem captionOf captionItem_captionOf).
Qed.

Lemma captions_parser_accepts_exactly_witness :
  exists parsed entries,
    JSON.parse Sample.paddedCaptions = Some parsed
    /\ JSON.get parsed (js "items") = Some (JArray entries)
    /\ List.length entries = 5%nat
    /\ Forall2 captionOf entries Sample.paddedCaptionItems.
Proof.
  apply (proj1 (captions_parser_accepts_exactly
                  Sample.paddedCaptions Sample.paddedCaptionItems)).
  vm_compute. reflexivity.
Defined.

(** X10. The bio parser accepts a reply exactly when the reply is JSON
    text whose [items] member is an array of three entries, each an
    object with a string [text]; the result is then, entry by entry and
    in order, that string trimmed. *)
Theorem bio_parser_accepts_exactly raw items :
  parseBioPayload raw = Normal items
  <-> exists parsed entries,
        JSON.parse raw = Some parsed
        /\ JSON.get parsed (js "items") = Some (JArray entries)
        /\ List.length entries = 3%nat
        /\ Forall2 bioOf entries items.
Proof.
  unfold parseBioPayload, JSON_parse. split.
  - destruct (JSON.parse raw) as [parsed |]; [| discriminate].
    destruct (itemsOfLength parsed 3) as [l |] eqn:El; [| discriminate].
    intros H. apply itemsOfLength_Some in El. destruct El as [Hget Hlen].
    exists parsed, l. repeat split; try assumption.
    now apply (mapThrowing_Forall2 bioItem bioOf bioItem_bioOf).
  - intros (parsed & l & -> & Hget & Hlen & Hall).
    rewrite (proj2 (itemsOfLength_Some parsed 3 l) (conj Hget Hlen)).
    now apply (mapThrowing_Forall2 bioItem bioOf bioItem_bioOf).
Qed.

(** X11. What a parser rejects it rejects with one of three errors, none
    of which is an API error: the syntax error of [JSON.parse], the error
    about the payload (no [items], not an array, the wrong number of
    entries) or the error about an entry.  This is why a reply that does
    not parse can never produce the credentials failure or a rate-limit
    answer. *)
Theorem parser_errors_are_not_API_errors raw e :
  (parseCaptionsPayload raw = Throw e \/ parseBioPayload raw = Throw e) ->
  instanceofAPIError e = false
  /\ status e = None
  /\ (cls e = SyntaxError /\ JSON.parse raw = None
      \/ cls e = PlainError
         /\ In (message e) [js "Invalid captions payload";
                            js "Invalid caption item";
                            js "Invalid bio payload";
                            js "Invalid bio item"]).
Proof.
  assert (Hmap : forall A B (f : A -> Completion B) m l e0,
             (forall x e1, f x = Throw e1 -> e1 = newError m) ->
             mapThrowing f l = Throw e0 -> e0 = newError m).
  { intros A B f m l e0 Hf. induction l as [| x l IH]; cbn [mapThrowing].
    - discriminate.
    - destruct (f x) as [y | e1] eqn:Fx.
      + destruct (mapThrowing f l) as [ys | e2]; [discriminate |].
        intros H; inversion H; subst. now apply IH.
      + intros H; inversion H; subst. now apply Hf in Fx. }
  assert (Hc : forall x e1, captionItem x = Throw e1 ->
                            e1 = newError (js "Invalid caption item")).
  { intros x e1. unfold captionItem.
    destruct (negb (JSON.truthy x)); [now intros [= <-] |].
    destruct (asString (JSON.get x (js "text")));
      destruct (asString (JSON.get x (js "hashtags")));
      try discriminate; now intros [= <-]. }
  assert (Hb : forall x e1, bioItem x = Throw e1 ->
                            e1 = newError (js "Invalid bio item")).
  { intros x e1. unfold bioItem.
    destruct (negb (JSON.truthy x)); [now intros [= <-] |].
    destruct (asString (JSON.get x (js "text")));
      try discriminate; now intros [= <-]. }
  unfold parseCaptionsPayload, parseBioPayload, JSON_parse.
  destruct (JSON.parse raw) as [parsed |].
  2:{ intros [H | H]; inversion H; subst; cbn;
        (split; [reflexivity | split; [reflexivity | left; now split]]). }
  intros [H | H].
  - destruct (itemsOfLength parsed 5) as [l |].
    + apply (Hmap _ _ _ _ _ _ Hc) in H. subst e.
      split; [reflexivity | split; [reflexivity | right]].
      split; [reflexivity |]. cbn [In newError message].
      right; left; reflexivity.
    + inversion H; subst.
      split; [reflexivity | split; [reflexivity | right]].
      split; [reflexivity |]. cbn [In newError message].
      left; reflexivity.
  - destruct (itemsOfLength parsed 3) as [l |].
    + apply (Hmap _ _ _ _ _ _ Hb) in H. subst e.
      split; [reflexivity | split; [reflexivity | right]].
      split; [reflexivity |]. cbn [In newError message].
      right; right; right; left; reflexivity.
    + inversion H; subst.
      split; [reflexivity | split; [reflexivity | right]].
      split; [reflexivity |]. cbn [In newError message].
      right; right; left; reflexivity.
Qed.

Lemma parser_errors_are_not_API_errors_witness :
  instanceofAPIError Sample.syntaxError = false
  /\ status Sample.syntaxError = None
  /\ (cls Sample.syntaxError = SyntaxError /\ JSON.parse Sample.chatty = None
      \/ cls Sample.syntaxError = PlainError
         /\ In (message Sample.syntaxError)
               [js "Invalid captions payload";
                js "Invalid caption item";
                js "Invalid bio payload";
                js "Invalid bio item"]).
Proof.
  apply (parser_errors_are_not_API_errors Sample.chatty Sample.syntaxError).
  left. vm_compute. reflexivity.
Defined.

(** ** The first generating phase *)

(** X12. The first generating phase of a validated request decides the
    response whenever it does not end in a reply that fails the parser,
    and the handler then makes no further provider call: the trace of the
    request is the trace of that phase (at most three attempts, all with
    the original messages).  A reply that parses is served as it was
    parsed; an error is answered with the credentials failure when it is
    an API error of status 401 or 403 and with the static fallback of the
    mode at status 200 otherwise.  In particular a phase that exhausts its
    attempts on rate limits (status 429) is answered with the static
    fallback, not with a 429. *)
Theorem first_phase_decides key provider request fd mode0 c1 st1 :
  key <> [] ->
  form request = Some fd ->
  modeOf fd = Some mode0 ->
  validFor mode0 fd = true ->
  callOpenAI provider (originalMessages mode0 fd) (started mode0) = (c1, st1) ->
  allCarry (originalMessages mode0 fd) (events st1)
  /\ (1 <= countCreates (events st1) <= 3)%nat
  /\ match c1 with
     | Normal raw =>
         forall body,
           parsedBody mode0 raw = Some body ->
           serve (Some key) provider request = (Normal (ok body), events st1)
     | Throw e =>
         serve (Some key) provider request
         = (Normal (if instanceofAPIError e && (statusIs e 401 || statusIs e 403)
                    then credentialsFailure
                    else ok (staticFallback mode0)),
            events st1)
         /\ (statusIs e 429 = true ->
             serve (Some key) provider request
             = (Normal (ok (staticFallback mode0)), events st1))
     end.
Proof.
  intros Hkey Hform Hmode Hvalid Hrun.
  destruct (gateway_attempts _ _ _ _ _ Hrun)
    as (added & Hst & Hall & Hcount & _).
  assert (Hev : events st1 = added) by (subst st1; reflexivity).
  rewrite Hev. unfold MAX_OPENAI_ATTEMPTS in Hcount.
  split; [exact Hall | split; [exact Hcount |]].
  rewrite serve_cases, Hform, Hmode, (noApiKey_configured _ Hkey), Hvalid.
  unfold generationOutcome. rewrite Hrun, Hev.
  destruct c1 as [raw | e].
  - intros body Hbody. rewrite Hbody. reflexivity.
  - unfold afterFailure, authorizationFailure. split; [reflexivity |].
    intros H429. rewrite (statusIs_429 _ H429), andb_false_r. reflexivity.
Qed.

Lemma first_phase_decides_witness :
  allCarry (originalMessages (js "bio") (Example.bioForm "120"))
           (flat_map (backoff (originalMessages (js "bio") (Example.bioForm "120")))
                     [Example.rateLimited; Example.rateLimited]
            ++ [Create (originalMessages (js "bio") (Example.bioForm "120"))])
  /\ (1 <= countCreates
             (flat_map (backoff (originalMessages (js "bio") (Example.bioForm "120")))
                       [Example.rateLimited; Example.rateLimited]
              ++ [Create (originalMessages (js "bio") (Example.bioForm "120"))])
      <= 3)%nat
  /\ (serve (Some (js "sk-test")) Example.alwaysRateLimited
            (Example.request (Example.bioForm "120"))
      = (Normal (if instanceofAPIError Example.rateLimited
                    && (statusIs Example.rateLimited 401
                        || statusIs Example.rateLimited 403)
                 then credentialsFailure
                 else ok (staticFallback (js "bio"))),
         flat_map (backoff (originalMessages (js "bio") (Example.bioForm "120")))
                  [Example.rateLimited; Example.rateLimited]
         ++ [Create (originalMessages (js "bio") (Example.bioForm "120"))])
      /\ (statusIs Example.rateLimited 429 = true ->
          serve (Some (js "sk-test")) Example.alwaysRateLimited
                (Example.request (Example.bioForm "120"))
          = (Normal (ok (staticFallback (js "bio"))),
             flat_map (backoff (originalMessages (js "bio") (Example.bioForm "120")))
                      [Example.rateLimited; Example.rateLimited]
             ++ [Create (originalMessages (js "bio") (Example.bioForm "120"))]))).
Proof.
  apply (first_phase_decides
           (js "sk-test") Example.alwaysRateLimited
           (Example.request (Example.bioForm "120"))
           (Example.bioForm "120") (js "bio")
           (Throw Example.rateLimited)
           {| mode := Some (js "bio");
              events :=
                flat_map (backoff (originalMessages (js "bio") (Example.bioForm "120")))
                         [Example.rateLimited; Example.rateLimited]
                ++ [Create (originalMessages (js "bio") (Example.bioForm "120"))] |}).
  - vm_compute. discriminate.
  - reflexivity.
  - vm_compute. reflexivity.
  - vm_compute. reflexivity.
  - vm_compute. reflexivity.
Defined.

(** ** What of the form reaches the prompt *)

Lemma integerInRange_toString n :
  integerInRange n ->
  exists z, (maxCharsMin <= z <= maxCharsMax)%Z
            /\ JsNumber.toString n = JsString.ofZ z.
Proof.
  destruct n as [| neg | q]; cbn [integerInRange]; try contradiction.
  intros (z & Hq & Hrange). exists z. split; [exact Hrange |].
  cbn [JsNumber.toString JsNumber.toZ]. f_equal.
  unfold Qeq, inject_Z in Hq. cbn [Qnum Qden] in Hq.
  rewrite Z.mul_1_r in Hq. rewrite Hq. apply Z.div_mul. discriminate.
Qed.

Lemma effectiveToneOf_allowed tone : In (effectiveToneOf tone) allowedTones.
Proof.
  unfold effectiveToneOf. destruct tone as [s |].
  - destruct (JsString.truthy s); cbn [andb].
    + destruct (JsString.includes allowedTones s) eqn:E.
      * now apply includes_In.
      * unfold allowedTones. right; right; left; reflexivity.
    + unfold allowedTones. right; right; left; reflexivity.
  - unfold allowedTones. right; right; left; reflexivity.
Qed.

(** The parameters of the prompt of a validated form. *)
Lemma validated_parameters fd mode0 :
  modeOf fd = Some mode0 ->
  validFor mode0 fd = true ->
  exists tone,
    In tone allowedTones
    /\ (maxCharsOrNone (maxCharsOf fd) = js "none"
        \/ exists z, (40 <= z <= 220)%Z
                     /\ maxCharsOrNone (maxCharsOf fd) = JsString.ofZ z)
    /\ noOuterWhiteSpace (guidanceOf fd) = true
    /\ ((mode0 = js "captions"
         /\ toneOf fd = Some tone
         /\ (JsString.length (guidanceOf fd) <= 280)%Z
         /\ exists image,
              Web.get fd (js "image") = Some (Web.EntryFile image)
              /\ acceptableImage image
              /\ originalMessages mode0 fd
                 = captionsMessages tone (maxCharsOf fd) (guidanceOf fd) image)
        \/ (mode0 = js "bio"
            /\ (toneOf fd = Some tone
                \/ noTone (toneOf fd) = true /\ tone = js "classy")
            /\ (10 <= JsString.length (guidanceOf fd) <= 400)%Z
            /\ originalMessages mode0 fd
               = bioMessages tone (maxCharsOf fd) (guidanceOf fd))).
Proof.
  intros Hmode Hvalid.
  assert (Hmax : maxCharsRejected (maxCharsOf fd) = false
                 -> maxCharsOrNone (maxCharsOf fd) = js "none"
                    \/ exists z, (40 <= z <= 220)%Z
                                 /\ maxCharsOrNone (maxCharsOf fd) = JsString.ofZ z).
  { destruct (maxCharsOf fd) as [n |]; [| now left].
    intros H. right. apply accepted_integerInRange in H.
    exact (integerInRange_toString n H). }
  assert (Hguid : noOuterWhiteSpace (guidanceOf fd) = true).
  { unfold guidanceOf.
    destruct (entryString (Web.get fd (js "guidance")));
      [apply trim_noOuterWhiteSpace | reflexivity]. }
  destruct (modeOf_cases _ _ Hmode) as [_ Hm].
  unfold validFor, originalMessages in *.
  destruct Hm as [-> | ->].
  - rewrite eqb_refl in *. unfold captionsValid in Hvalid.
    rewrite !andb_true_iff, !negb_true_iff in Hvalid.
    destruct Hvalid as [[[[Hrej Hno] Hallowed] Hlen] Himg].
    destruct (toneOf fd) as [t |] eqn:Et; [| discriminate Hallowed].
    cbn [toneAllowed] in Hallowed. apply includes_In in Hallowed.
    exists t. split; [exact Hallowed |]. split; [now apply Hmax |].
    split; [exact Hguid |]. left. split; [reflexivity |].
    split; [reflexivity |].
    split; [now apply Z.leb_le in Hlen |].
    unfold entryFile in *.
    destruct (Web.get fd (js "image")) as [[s | image] |];
      try discriminate Himg.
    exists image. split; [reflexivity |].
    split; [now apply acceptableImage_checks | reflexivity].
  - rewrite bio_not_captions in *. unfold bioValid in Hvalid.
    rewrite !andb_true_iff, !negb_true_iff, orb_true_iff in Hvalid.
    destruct Hvalid as [[[Hrej Hlo] Hhi] Htone].
    exists (effectiveToneOf (toneOf fd)).
    split; [apply effectiveToneOf_allowed |]. split; [now apply Hmax |].
    split; [exact Hguid |]. right. split; [reflexivity |].
    apply Z.leb_le in Hlo. apply Z.leb_le in Hhi.
    unfold minBioGuidanceLength in Hlo. unfold maxBioGuidanceLength in Hhi.
    split; [| split; [lia | reflexivity]].
    destruct Htone as [Hno | Hallowed].
    + right. split; [exact Hno |].
      unfold effectiveToneOf. destruct (toneOf fd) as [s |]; [| reflexivity].
      cbn [noTone] in Hno. apply negb_true_iff in Hno. now rewrite Hno.
    + left. destruct (toneOf fd) as [s |]; [| discriminate Hallowed].
      cbn [toneAllowed] in Hallowed. unfold effectiveToneOf.
      rewrite Hallowed, andb_true_r.
      destruct (JsString.truthy s) eqn:Es; [reflexivity |].
      destruct s; [| discriminate Es].
      vm_compute in Hallowed. discriminate Hallowed.
Qed.


(** X13. Of a request only the guidance and the image reach the provider
    as the requester wrote them.  Every conversation the handler sends
    (every provider call in the trace of a request) is the prompt of the
    mode, alone or followed by the two messages of the corrective
    request, and in that prompt the tone is one of the four allowed words
    (in bio mode [classy] when the form has no tone or an empty one), the
    character limit is rendered as [none] or as the decimal digits of an
    integer between 40 and 220, the guidance is trimmed and within the
    length bounds of the mode, and in captions mode the image is a PNG or
    a JPEG of at most 3 MiB. *)
Theorem prompt_parameters_are_validated key provider request m :
  In (Create m) (snd (serve key provider request)) ->
  exists fd mode0 tone rest,
    form request = Some fd
    /\ modeOf fd = Some mode0
    /\ In tone allowedTones
    /\ (maxCharsOrNone (maxCharsOf fd) = js "none"
        \/ exists z, (40 <= z <= 220)%Z
                     /\ maxCharsOrNone (maxCharsOf fd) = JsString.ofZ z)
    /\ noOuterWhiteSpace (guidanceOf fd) = true
    /\ (rest = []
        \/ exists raw,
             rest = [ {| role := assistant; content := content_string raw |};
                      corrective mode0 ])
    /\ ((mode0 = js "captions"
         /\ toneOf fd = Some tone
         /\ (JsString.length (guidanceOf fd) <= 280)%Z
         /\ exists image,
              Web.get fd (js "image") = Some (Web.EntryFile image)
              /\ acceptableImage image
              /\ m = captionsMessages tone (maxCharsOf fd) (guidanceOf fd) image
                     ++ rest)
        \/ (mode0 = js "bio"
            /\ (toneOf fd = Some tone
                \/ noTone (toneOf fd) = true /\ tone = js "classy")
            /\ (10 <= JsString.length (guidanceOf fd) <= 400)%Z
            /\ m = bioMessages tone (maxCharsOf fd) (guidanceOf fd) ++ rest)).
Proof.
  intros Hin. rewrite serve_cases in Hin.
  destruct (form request) as [fd |]; [| contradiction].
  destruct (modeOf fd) as [mode0 |] eqn:Hmode; [| contradiction].
  destruct (noApiKey key); [contradiction |].
  destruct (validFor mode0 fd) eqn:Hvalid; [| contradiction].
  assert (Hm : exists rest,
             (rest = []
              \/ exists raw,
                   rest = [ {| role := assistant; content := content_string raw |};
                            corrective mode0 ])
             /\ m = originalMessages mode0 fd ++ rest).
  { destruct (generationOutcome_trace provider mode0 (originalMessages mode0 fd))
      as (first & Hall1 & _ & _ & Hsnd).
    destruct Hsnd as [E | (raw & second & _ & Hall2 & _ & _ & E)];
      rewrite E in Hin.
    - exists []. split; [now left |].
      rewrite app_nil_r. exact (allCarry_In _ _ _ Hall1 Hin).
    - apply in_app_or in Hin. destruct Hin as [Hin | Hin].
      + exists []. split; [now left |].
        rewrite app_nil_r. exact (allCarry_In _ _ _ Hall1 Hin).
      + eexists. split; [right; exists raw; reflexivity |].
        rewrite (allCarry_In _ _ _ Hall2 Hin). apply retryMessages_unfold. }
  destruct Hm as (rest & Hrest & ->).
  destruct (validated_parameters fd mode0 Hmode Hvalid)
    as (tone & Htone & Hmax & Hguid & Hcases).
  exists fd, mode0, tone, rest.
  split; [reflexivity |]. split; [exact Hmode |]. split; [exact Htone |].
  split; [exact Hmax |]. split; [exact Hguid |]. split; [exact Hrest |].
  destruct Hcases as [(Hm0 & Ht & Hlen & image & Hget & Hacc & Ho)
                     | (Hm0 & Ht & Hlen & Ho)].
  - left. split; [exact Hm0 |]. split; [exact Ht |]. split; [exact Hlen |].
    exists image. split; [exact Hget |]. split; [exact Hacc |].
    now rewrite Ho.
  - right. split; [exact Hm0 |]. split; [exact Ht |]. split; [exact Hlen |].
    now rewrite Ho.
Qed.

Lemma prompt_parameters_are_validated_witness :
  exists fd mode0 tone rest,
    form (Example.request (Example.bioForm "120")) = Some fd
    /\ modeOf fd = Some mode0
    /\ In tone allowedTones
    /\ (maxCharsOrNone (maxCharsOf fd) = js "none"
        \/ exists z, (40 <= z <= 220)%Z
                     /\ maxCharsOrNone (maxCharsOf fd) = JsString.ofZ z)
    /\ noOuterWhiteSpace (guidanceOf fd) = true
    /\ (rest = []
        \/ exists raw,
             rest = [ {| role := assistant; content := content_string raw |};
                      corrective mode0 ])
    /\ ((mode0 = js "captions"
         /\ toneOf fd = Some tone
         /\ (JsString.length (guidanceOf fd) <= 280)%Z
         /\ exists image,
              Web.get fd (js "image") = Some (Web.EntryFile image)
              /\ acceptableImage image
              /\ originalMessages (js "bio") (Example.bioForm "120")
                 = captionsMessages tone (maxCharsOf fd) (guidanceOf fd) image
                   ++ rest)
        \/ (mode0 = js "bio"
            /\ (toneOf fd = Some tone
                \/ noTone (toneOf fd) = true /\ tone = js "classy")
            /\ (10 <= JsString.length (guidanceOf fd) <= 400)%Z
            /\ originalMessages (js "bio") (Example.bioForm "120")
               = bioMessages tone (maxCharsOf fd) (guidanceOf fd) ++ rest)).
Proof.
  apply (prompt_parameters_are_validated
           Example.apiKey (Example.replying Example.blankBios)
           (Example.request (Example.bioForm "120"))
           (originalMessages (js "bio") (Example.bioForm "120"))).
  vm_compute. left. reflexivity.
Defined.

(** ** The client and the route *)

Lemma trimStart_fixed s :
  match s with [] => True | c :: _ => JsString.isWhiteSpace c = false end ->
  JsString.trimStart s = s.
Proof. destruct s as [| c s]; cbn; [reflexivity |]. now intros ->. Qed.

(** A string without whitespace at either end is its own [trim]. *)
Lemma trim_fixed s : noOuterWhiteSpace s = true -> JsString.trim s = s.
Proof.
  unfold noOuterWhiteSpace, JsString.trim, JsString.trimEnd.
  destruct s as [| c s]; [reflexivity |].
  rewrite andb_true_iff, !negb_true_iff. intros [Hhead Hlast].
  rewrite (trimStart_fixed (c :: s) Hhead).
  destruct (exists_last (l := c :: s)) as (s' & a & E); [discriminate |].
  rewrite E in *. rewrite last_last in Hlast.
  rewrite rev_app_distr. cbn [rev app].
  rewrite (trimStart_fixed (a :: rev s') Hlast).
  cbn [rev]. now rewrite rev_involutive.
Qed.

Lemma trim_idempotent s : JsString.trim (JsString.trim s) = JsString.trim s.
Proof. apply trim_fixed, trim_noOuterWhiteSpace. Qed.

Lemma trimStart_length s :
  (List.length (JsString.trimStart s) <= List.length s)%nat.
Proof.
  induction s as [| c s IH]; cbn; [lia |].
  destruct (JsString.isWhiteSpace c); cbn; lia.
Qed.

Lemma trim_length s : (JsString.length (JsString.trim s) <= JsString.length s)%Z.
Proof.
  unfold JsString.length, JsString.trim, JsString.trimEnd.
  rewrite length_rev.
  pose proof (trimStart_length (rev (JsString.trimStart s))) as H1.
  rewrite length_rev in H1.
  pose proof (trimStart_length s) as H2. lia.
Qed.

(** The digits of an integer between 40 and 220 are a non-empty string
    that [Number] reads back as that integer. *)
Lemma rendered_limit_reads_back z :
  (40 <= z <= 220)%Z ->
  (JsString.length (JsString.ofZ z) >? 0)%Z = true
  /\ JsNumber.ofString (JsString.ofZ z) = JsNumber.Finite (inject_Z z).
Proof.
  intros Hz.
  assert (Hall :
    forallb (fun k =>
               (JsString.length (JsString.ofZ k) >? 0)%Z
               && match JsNumber.ofString (JsString.ofZ k) with
                  | JsNumber.Finite q =>
                      (Qnum q =? k)%Z && (Zpos (Qden q) =? 1)%Z
                  | _ => false
                  end)
            maxCharsRange = true) by (vm_compute; reflexivity).
  rewrite forallb_forall in Hall.
  assert (Hin : In z maxCharsRange).
  { unfold maxCharsRange. apply in_map_iff. exists (Z.to_nat z).
    split; [lia | apply in_seq; lia]. }
  specialize (Hall z Hin). apply andb_true_iff in Hall.
  destruct Hall as [Hlen Hnum]. split; [exact Hlen |].
  destruct (JsNumber.ofString (JsString.ofZ z)) as [| neg | [n d]];
    try discriminate Hnum.
  cbn [Qnum Qden] in Hnum. apply andb_true_iff in Hnum.
  destruct Hnum as [Hn Hd]. apply Z.eqb_eq in Hn. apply Z.eqb_eq in Hd.
  unfold inject_Z. congruence.
Qed.

(** What the client accepts as a limit is an integer between 40 and
    220. *)
Lemma client_limit_in_range st v :
  Client.maxCharsIsValid st = true ->
  Client.maxCharsValue st = Some v ->
  integerInRange v.
Proof.
  unfold Client.maxCharsIsValid. intros Hvalid Hv. rewrite Hv in Hvalid.
  unfold Client.maxCharsValue in Hv.
  destruct (JsString.truthy (Client.maxChars st)); [| discriminate Hv].
  cbn [negb orb] in Hvalid.
  apply accepted_integerInRange.
  change (JsNumber.ofZ Client.maxCharsMin) with (JsNumber.ofZ maxCharsMin) in Hvalid.
  change (JsNumber.ofZ Client.maxCharsMax) with (JsNumber.ofZ maxCharsMax) in Hvalid.
  unfold maxCharsRejected. unfold JsNumber.gtb.
  rewrite ofZ_maxCharsMin, ofZ_maxCharsMax in *.
  rewrite !andb_true_iff in Hvalid. destruct Hvalid as [[Hint Hlo] Hhi].
  rewrite Hint. cbn [negb orb].
  destruct v as [| neg | q]; try discriminate Hint.
  unfold Client.geb in Hlo. unfold Client.leb in Hhi.
  apply negb_true_iff in Hlo. apply negb_true_iff in Hhi.
  now rewrite Hlo, Hhi.
Qed.

Lemma integerInRange_truthy v : integerInRange v -> JsNumber.truthy v = true.
Proof.
  destruct v as [| neg | q]; cbn [integerInRange]; try contradiction.
  intros (z & Hq & Hlo & _). cbn [JsNumber.truthy].
  apply negb_true_iff. destruct (Qeq_bool q 0) eqn:E; [| reflexivity].
  exfalso. apply Qeq_bool_eq in E. rewrite E in Hq.
  unfold Qeq, inject_Z in Hq. cbn [Qnum Qden] in Hq.
  unfold maxCharsMin in Hlo. lia.
Qed.

Lemma toneValue_truthy t :
  JsString.truthy (Client.toneValue t)
  = match t with Client.unset => false | _ => true end.
Proof. destruct t; reflexivity. Qed.

Lemma toneValue_lowerCase t :
  JsString.toLowerCase (Client.toneValue t) = Client.toneValue t.
Proof. destruct t; reflexivity. Qed.

Lemma toneValue_allowed t :
  JsString.includes allowedTones (Client.toneValue t)
  = match t with Client.unset => false | _ => true end.
Proof. destruct t; reflexivity. Qed.

Ltac form_keys :=
  repeat match goal with
         | |- context [JsString.eqb (js ?a) (js ?b)] =>
             first
               [ rewrite (eqb_refl (js a))
               | let H := fresh "K" in
                 assert (H : JsString.eqb (js a) (js b) = false)
                   by reflexivity;
                 rewrite H; clear H ]
         end.

(** What [formData.get] finds in the form the client builds. *)
Lemma formOf_reads st :
  Web.get (Client.formOf st) (js "mode")
  = Some (Web.EntryString (Client.modeValue (Client.mode st)))
  /\ Web.get (Client.formOf st) (js "tone")
     = match Client.mode st, Client.tone st with
       | Client.bio, Client.unset => None
       | _, t => Some (Web.EntryString (Client.toneValue t))
       end
  /\ Web.get (Client.formOf st) (js "guidance")
     = (if JsString.truthy (Client.trimmedGuidance st)
        then Some (Web.EntryString (Client.trimmedGuidance st))
        else None)
  /\ Web.get (Client.formOf st) (js "image")
     = match Client.mode st, Client.imageFile st with
       | Client.captions, Some file => Some (Web.EntryFile file)
       | _, _ => None
       end
  /\ Web.get (Client.formOf st) (js "maxChars")
     = match Client.maxCharsValue st with
       | Some v =>
           if JsNumber.truthy v && Client.maxCharsIsValid st
           then Some (Web.EntryString (JsNumber.toString v))
           else None
       | None => None
       end.
Proof.
  unfold Client.formOf. rewrite toneValue_truthy.
  destruct (Client.mode st); destruct (Client.imageFile st);
    destruct (Client.tone st);
    destruct (JsString.truthy (Client.trimmedGuidance st));
    (destruct (Client.maxCharsValue st) as [v |];
     [destruct (JsNumber.truthy v && Client.maxCharsIsValid st) |]);
    cbn [app Web.get]; form_keys; repeat split; reflexivity.
Qed.

(** An accepted limit, rendered with [String] and read back with
    [Number], is the same integer. *)
Lemma limit_round_trip v :
  integerInRange v ->
  exists q z,
    v = JsNumber.Finite q /\ q == inject_Z z
    /\ (maxCharsMin <= z <= maxCharsMax)%Z
    /\ (JsString.length (JsNumber.toString v) >? 0)%Z = true
    /\ JsNumber.ofString (JsNumber.toString v) = JsNumber.Finite (inject_Z z).
Proof.
  destruct v as [| neg | q]; cbn [integerInRange]; try contradiction.
  intros (z & Hq & Hrange). exists q, z.
  assert (Hs : JsNumber.toString (JsNumber.Finite q) = JsString.ofZ z).
  { cbn [JsNumber.toString JsNumber.toZ]. f_equal.
    unfold Qeq, inject_Z in Hq. cbn [Qnum Qden] in Hq.
    rewrite Z.mul_1_r in Hq. rewrite Hq. apply Z.div_mul. discriminate. }
  rewrite Hs. unfold maxCharsMin, maxCharsMax in Hrange.
  destruct (rendered_limit_reads_back z Hrange) as [Hlen Hnum].
  repeat split; try assumption; apply Hrange.
Qed.

Lemma truthy_false_empty s : JsString.truthy s = false -> s = [].
Proof. destruct s; [reflexivity | discriminate]. Qed.

(** *** Line breaks on the wire *)

Lemma normalize_noLineBreak s :
  Multipart.noLineBreak s = true ->
  forall afterCR, Multipart.normalize afterCR s = s.
Proof.
  unfold Multipart.noLineBreak.
  induction s as [| c s IH]; intros H afterCR; [reflexivity |].
  cbn [forallb] in H. apply andb_true_iff in H. destruct H as [Hc Hs].
  apply negb_true_iff, orb_false_iff in Hc. destruct Hc as [H13 H10].
  cbn [Multipart.normalize]. rewrite H13, H10. f_equal. now apply IH.
Qed.

(** The encoding never shortens a value. *)
Lemma normalize_length s :
  (List.length s <= List.length (Multipart.normalize false s))%nat
  /\ (List.length s <= List.length (Multipart.normalize true s) + 1)%nat.
Proof.
  induction s as [| c s [IHf IHt]]; [cbn; lia |].
  cbn [Multipart.normalize].
  destruct (c =? 13)%Z; [cbn [List.length]; lia |].
  destruct (c =? 10)%Z; cbn [List.length]; lia.
Qed.

Lemma normalizeLineBreaks_length s :
  (JsString.length s <= JsString.length (Multipart.normalizeLineBreaks s))%Z.
Proof.
  unfold JsString.length, Multipart.normalizeLineBreaks.
  destruct (normalize_length s) as [H _]. lia.
Qed.

Lemma whiteSpace_lineBreak c :
  JsString.isWhiteSpace c = false -> (c =? 13)%Z = false /\ (c =? 10)%Z = false.
Proof.
  unfold JsString.isWhiteSpace. intros H.
  destruct (Z.eqb_spec c 13) as [-> | _]; [discriminate H |].
  destruct (Z.eqb_spec c 10) as [-> | _]; [discriminate H |].
  split; reflexivity.
Qed.

Lemma last_cons_nonempty (c : Z) s d : s <> [] -> last (c :: s) d = last s d.
Proof. destruct s; [congruence | reflexivity]. Qed.

(** The encoding keeps the last unit of a value that does not end in a
    line break. *)
Lemma normalize_last s :
  s <> [] ->
  JsString.isWhiteSpace (last s 0%Z) = false ->
  forall afterCR,
    Multipart.normalize afterCR s <> []
    /\ last (Multipart.normalize afterCR s) 0%Z = last s 0%Z.
Proof.
  induction s as [| c s IH]; intros Hne Hlast afterCR; [congruence |].
  destruct s as [| d s'].
  - cbn [last] in Hlast. destruct (whiteSpace_lineBreak c Hlast) as [H13 H10].
    cbn [Multipart.normalize]. rewrite H13, H10.
    split; [discriminate | reflexivity].
  - assert (Hne' : d :: s' <> []) by discriminate.
    rewrite (last_cons_nonempty c (d :: s') 0%Z Hne') in Hlast |- *.
    pose proof (IH Hne' Hlast) as IH'.
    remember (d :: s') as r eqn:Er.
    cbn [Multipart.normalize].
    destruct (c =? 13)%Z.
    + destruct (IH' true) as [Hn Hl]. split; [discriminate |].
      rewrite (last_cons_nonempty 13%Z (10%Z :: Multipart.normalize true r) 0%Z);
        [| discriminate].
      now rewrite (last_cons_nonempty 10%Z (Multipart.normalize true r) 0%Z Hn).
    + destruct (c =? 10)%Z.
      * destruct afterCR.
        -- exact (IH' false).
        -- destruct (IH' false) as [Hn Hl]. split; [discriminate |].
           rewrite (last_cons_nonempty 13%Z
                      (10%Z :: Multipart.normalize false r) 0%Z);
             [| discriminate].
           now rewrite (last_cons_nonempty 10%Z
                          (Multipart.normalize false r) 0%Z Hn).
      * destruct (IH' false) as [Hn Hl]. split; [discriminate |].
        now rewrite (last_cons_nonempty c (Multipart.normalize false r) 0%Z Hn).
Qed.

(** A trimmed value is still trimmed when it arrives. *)
Lemma normalizeLineBreaks_trimmed s :
  noOuterWhiteSpace s = true ->
  JsString.trim (Multipart.normalizeLineBreaks s)
  = Multipart.normalizeLineBreaks s.
Proof.
  intros H. apply trim_fixed. revert H.
  unfold noOuterWhiteSpace, Multipart.normalizeLineBreaks.
  destruct s as [| c s]; [reflexivity |].
  rewrite andb_true_iff, !negb_true_iff. intros [Hhead Hlast].
  destruct (normalize_last (c :: s) ltac:(discriminate) Hlast false)
    as [_ Hl].
  destruct (whiteSpace_lineBreak c Hhead) as [H13 H10].
  cbn [Multipart.normalize] in *. rewrite H13, H10 in *.
  rewrite Hl, Hhead, Hlast. reflexivity.
Qed.

Lemma toneValue_arrives t :
  Multipart.normalizeLineBreaks (Client.toneValue t) = Client.toneValue t.
Proof. destruct t; reflexivity. Qed.

Lemma modeValue_arrives m :
  Multipart.normalizeLineBreaks (Client.modeValue m) = Client.modeValue m.
Proof. destruct m; reflexivity. Qed.

(** The digits of a limit have no line break. *)
Lemma rendered_limit_arrives z :
  (40 <= z <= 220)%Z ->
  Multipart.normalizeLineBreaks (JsString.ofZ z) = JsString.ofZ z.
Proof.
  intros Hz. apply normalize_noLineBreak.
  assert (Hall : forallb (fun k => Multipart.noLineBreak (JsString.ofZ k))
                         maxCharsRange = true) by (vm_compute; reflexivity).
  rewrite forallb_forall in Hall. apply Hall.
  unfold maxCharsRange. apply in_map_iff. exists (Z.to_nat z).
  split; [lia | apply in_seq; lia].
Qed.

Ltac wire_keys :=
  repeat match goal with
         | |- context [Multipart.normalizeLineBreaks (js ?a)] =>
             let H := fresh "W" in
             assert (H : Multipart.normalizeLineBreaks (js a) = js a)
               by reflexivity;
             rewrite H; clear H
         end.

(** What [formData.get] finds in the form the route receives. *)
Lemma delivered_reads st :
  Web.get (Multipart.delivered (Client.formOf st)) (js "mode")
  = Some (Web.EntryString (Client.modeValue (Client.mode st)))
  /\ Web.get (Multipart.delivered (Client.formOf st)) (js "tone")
     = match Client.mode st, Client.tone st with
       | Client.bio, Client.unset => None
       | _, t => Some (Web.EntryString (Client.toneValue t))
       end
  /\ Web.get (Multipart.delivered (Client.formOf st)) (js "guidance")
     = (if JsString.truthy (Client.trimmedGuidance st)
        then Some (Web.EntryString
                     (Multipart.normalizeLineBreaks (Client.trimmedGuidance st)))
        else None)
  /\ Web.get (Multipart.delivered (Client.formOf st)) (js "image")
     = match Client.mode st, Client.imageFile st with
       | Client.captions, Some file => Some (Web.EntryFile file)
       | _, _ => None
       end
  /\ Web.get (Multipart.delivered (Client.formOf st)) (js "maxChars")
     = match Client.maxCharsValue st with
       | Some v =>
           if JsNumber.truthy v && Client.maxCharsIsValid st
           then Some (Web.EntryString
                        (Multipart.normalizeLineBreaks (JsNumber.toString v)))
           else None
       | None => None
       end.
Proof.
  unfold Client.formOf, Multipart.delivered. rewrite toneValue_truthy.
  destruct (Client.mode st); destruct (Client.imageFile st);
    destruct (Client.tone st);
    destruct (JsString.truthy (Client.trimmedGuidance st));
    (destruct (Client.maxCharsValue st) as [v |];
     [destruct (JsNumber.truthy v && Client.maxCharsIsValid st) |]);
    cbn [app map Multipart.entry fst snd];
    rewrite ?toneValue_arrives, ?modeValue_arrives;
    wire_keys; cbn [Web.get]; form_keys; repeat split; reflexivity.
Qed.

(** X14. The checks of the client and the checks of the route, with the
    multipart encoding between them.  When the submit button is enabled,
    and the image of the state (if any) went through [onImageChange], the
    form the route receives has the mode of the state, the limit the
    client checked, and as guidance the trimmed guidance of the client
    with each line break written as CR LF.  It passes the validation of
    the route exactly when that guidance, so lengthened, still fits the
    bound of the mode (280 in captions mode, 400 in bio mode): then the
    route never answers 400, and otherwise it answers 400 whenever an API
    key is configured, although the client enabled the submission.  A
    guidance without line breaks always fits. *)
Theorem client_form_passes_validation st :
  Client.imageChecked st ->
  Client.ctaEnabled st = true ->
  modeOf (Multipart.delivered (Client.formOf st))
  = Some (Client.modeValue (Client.mode st))
  /\ guidanceOf (Multipart.delivered (Client.formOf st))
     = Multipart.normalizeLineBreaks (Client.trimmedGuidance st)
  /\ match Client.maxCharsValue st with
     | Some v =>
         exists q z,
           v = JsNumber.Finite q /\ q == inject_Z z
           /\ maxCharsOf (Multipart.delivered (Client.formOf st))
              = Some (JsNumber.Finite (inject_Z z))
     | None => maxCharsOf (Multipart.delivered (Client.formOf st)) = None
     end
  /\ (validFor (Client.modeValue (Client.mode st))
               (Multipart.delivered (Client.formOf st)) = true
      <-> (JsString.length
             (Multipart.normalizeLineBreaks (Client.trimmedGuidance st))
           <= Multipart.guidanceBound (Client.mode st))%Z)
  /\ ((JsString.length
         (Multipart.normalizeLineBreaks (Client.trimmedGuidance st))
       <= Multipart.guidanceBound (Client.mode st))%Z ->
      forall key provider resp evs,
        serve key provider
              {| form := Some (Multipart.delivered (Client.formOf st)) |}
        = (Normal resp, evs) ->
        Web.status resp <> 400%Z)
  /\ ((Multipart.guidanceBound (Client.mode st)
       < JsString.length
           (Multipart.normalizeLineBreaks (Client.trimmedGuidance st)))%Z ->
      forall key provider,
        noApiKey key = false ->
        serve key provider
              {| form := Some (Multipart.delivered (Client.formOf st)) |}
        = (Normal {| Web.status := 400;
                     Web.body := JObject [(js "error",
                                           JString (js "Invalid input"))] |},
           []))
  /\ (Multipart.noLineBreak (Client.trimmedGuidance st) = true ->
      (JsString.length
         (Multipart.normalizeLineBreaks (Client.trimmedGuidance st))
       <= Multipart.guidanceBound (Client.mode st))%Z).
Proof.
  intros Himage Hcta.
  destruct (delivered_reads st) as (Gmode & Gtone & Gguid & Gimg & Gmax).
  set (fd := Multipart.delivered (Client.formOf st)) in *.
  set (wired := Multipart.normalizeLineBreaks (Client.trimmedGuidance st)) in *.
  unfold Client.ctaEnabled in Hcta.
  destruct (Client.maxCharsIsValid st) eqn:V; cbn [negb] in Hcta;
    [| discriminate Hcta].
  assert (Hmode : modeOf fd = Some (Client.modeValue (Client.mode st))).
  { unfold modeOf. rewrite Gmode. cbn [entryString].
    destruct (Client.mode st); reflexivity. }
  assert (Hguid : guidanceOf fd = wired).
  { unfold guidanceOf. rewrite Gguid.
    destruct (JsString.truthy (Client.trimmedGuidance st)) eqn:T;
      cbn [entryString].
    - apply normalizeLineBreaks_trimmed, trim_noOuterWhiteSpace.
    - subst wired. now rewrite (truthy_false_empty _ T). }
  assert (Hmax : match Client.maxCharsValue st with
                 | Some v =>
                     exists q z,
                       v = JsNumber.Finite q /\ q == inject_Z z
                       /\ maxCharsOf fd = Some (JsNumber.Finite (inject_Z z))
                 | None => maxCharsOf fd = None
                 end
                 /\ maxCharsRejected (maxCharsOf fd) = false).
  { unfold maxCharsOf. rewrite Gmax.
    destruct (Client.maxCharsValue st) as [v |] eqn:Ev.
    - pose proof (client_limit_in_range st v V Ev) as Hrange.
      rewrite (integerInRange_truthy v Hrange). cbn [andb entryString].
      destruct (integerInRange_toString v Hrange) as (z' & Hz' & Hs).
      rewrite Hs, (rendered_limit_arrives z' Hz'), <- Hs.
      destruct (limit_round_trip v Hrange)
        as (q & z & Hv & Hq & Hz & Hlen & Hnum).
      rewrite Hlen, Hnum. split.
      + exists q, z. split; [exact Hv | split; [exact Hq | reflexivity]].
      + apply integerInRange_accepted. cbn [integerInRange].
        exists z. split; [reflexivity | exact Hz].
    - cbn [entryString]. split; reflexivity. }
  destruct Hmax as [Hmax Hrej].
  assert (Hvalid : validFor (Client.modeValue (Client.mode st)) fd
                   = (JsString.length wired
                      <=? Multipart.guidanceBound (Client.mode st))%Z
                   /\ (Multipart.noLineBreak (Client.trimmedGuidance st) = true ->
                       (JsString.length wired
                        <= Multipart.guidanceBound (Client.mode st))%Z)).
  { unfold validFor.
    destruct (Client.mode st) eqn:Em;
      cbn [Client.modeValue Multipart.guidanceBound].
    - rewrite eqb_refl. unfold captionsValid, toneOf.
      rewrite Hrej, Hguid, Gtone, Gimg. cbn [negb andb entryString entryFile].
      rewrite !andb_true_iff in Hcta. destruct Hcta as [[Hfile Htone] Hlen].
      unfold noTone, toneAllowed.
      rewrite toneValue_lowerCase, toneValue_truthy, toneValue_allowed.
      assert (Ht : match Client.tone st with
                   | Client.unset => false
                   | _ => true
                   end = true).
      { destruct (Client.tone st); [discriminate Htone | | | |]; reflexivity. }
      rewrite Ht. cbn [negb andb].
      unfold Client.imageChecked in Himage.
      destruct (Client.imageFile st) as [file |]; [| discriminate Hfile].
      cbn [entryFile].
      rewrite (proj2 (acceptableImage_checks file) Himage), andb_true_r.
      split; [reflexivity |].
      intros Hnl. subst wired. unfold Multipart.normalizeLineBreaks.
      rewrite (normalize_noLineBreak _ Hnl false).
      unfold Client.guidanceIsValidForCaptions, Client.guidanceLength in Hlen.
      apply Z.leb_le in Hlen.
      pose proof (trim_length (Client.guidance st)) as Ht'.
      unfold Client.trimmedGuidance.
      unfold Client.maxCaptionGuidanceLength in Hlen.
      unfold maxCaptionGuidanceLength. lia.
    - rewrite bio_not_captions. unfold bioValid, toneOf.
      rewrite Hrej, Hguid, Gtone. cbn [negb andb].
      unfold Client.guidanceIsValidForBio in Hcta.
      apply andb_true_iff in Hcta. destruct Hcta as [Hlo Hhi].
      apply Z.leb_le in Hlo. apply Z.leb_le in Hhi.
      unfold Client.minBioGuidanceLength in Hlo.
      unfold Client.maxBioGuidanceLength in Hhi.
      pose proof (normalizeLineBreaks_length (Client.trimmedGuidance st)) as Hge.
      fold wired in Hge.
      assert (Hten : (minBioGuidanceLength <=? JsString.length wired)%Z = true).
      { apply Z.leb_le. unfold minBioGuidanceLength. lia. }
      rewrite Hten. cbn [andb].
      assert (Htone : noTone match Client.tone st with
                             | Client.unset => None
                             | t => match entryString
                                            (Some (Web.EntryString (Client.toneValue t)))
                                    with
                                    | Some toneRaw => Some (JsString.toLowerCase toneRaw)
                                    | None => None
                                    end
                             end
                      || toneAllowed match Client.tone st with
                                     | Client.unset => None
                                     | t => match entryString
                                                    (Some (Web.EntryString (Client.toneValue t)))
                                            with
                                            | Some toneRaw => Some (JsString.toLowerCase toneRaw)
                                            | None => None
                                            end
                                     end = true).
      { destruct (Client.tone st); reflexivity. }
      split.
      + destruct (Client.tone st); cbn [entryString];
          rewrite andb_true_r; reflexivity.
      + intros Hnl. subst wired. unfold Multipart.normalizeLineBreaks.
        rewrite (normalize_noLineBreak _ Hnl false).
        unfold maxBioGuidanceLength. exact Hhi. }
  destruct Hvalid as [Hvalid Hplain].
  split; [exact Hmode |]. split; [exact Hguid |]. split; [exact Hmax |].
  split; [rewrite Hvalid; apply Z.leb_le |].
  split; [| split; [| exact Hplain]].
  - intros Hfits key provider resp evs Hserve.
    apply Z.leb_le in Hfits. rewrite <- Hvalid in Hfits.
    rewrite serve_cases in Hserve. cbn [form] in Hserve.
    rewrite Hmode in Hserve.
    destruct (noApiKey key).
    { apply served_response in Hserve. subst resp. discriminate. }
    rewrite Hfits in Hserve.
    destruct (generationOutcome_response provider
                (Client.modeValue (Client.mode st))
                (originalMessages (Client.modeValue (Client.mode st)) fd))
      as (resp' & Hfst & Hcases).
    rewrite Hserve in Hfst. cbn [fst] in Hfst.
    assert (resp = resp') by congruence. subst resp'.
    destruct Hcases as [-> | (body & -> & _)]; discriminate.
  - intros Hlong key provider Hkey.
    apply Z.leb_gt in Hlong. rewrite <- Hvalid in Hlong.
    rewrite serve_cases. cbn [form]. rewrite Hmode, Hkey, Hlong. reflexivity.
Qed.

Lemma client_form_passes_validation_witness :
  modeOf (Multipart.delivered (Client.formOf Client.twoLines))
  = Some (Client.modeValue (Client.mode Client.twoLines))
  /\ guidanceOf (Multipart.delivered (Client.formOf Client.twoLines))
     = Multipart.normalizeLineBreaks (Client.trimmedGuidance Client.twoLines)
  /\ match Client.maxCharsValue Client.twoLines with
     | Some v =>
         exists q z,
           v = JsNumber.Finite q /\ q == inject_Z z
           /\ maxCharsOf (Multipart.delivered (Client.formOf Client.twoLines))
              = Some (JsNumber.Finite (inject_Z z))
     | None =>
         maxCharsOf (Multipart.delivered (Client.formOf Client.twoLines)) = None
     end
  /\ (validFor (Client.modeValue (Client.mode Client.twoLines))
               (Multipart.delivered (Client.formOf Client.twoLines)) = true
      <-> (JsString.length
             (Multipart.normalizeLineBreaks
                (Client.trimmedGuidance Client.twoLines))
           <= Multipart.guidanceBound (Client.mode Client.twoLines))%Z)
  /\ ((JsString.length
         (Multipart.normalizeLineBreaks (Client.trimmedGuidance Client.twoLines))
       <= Multipart.guidanceBound (Client.mode Client.twoLines))%Z ->
      forall key provider resp evs,
        serve key provider
              {| form := Some (Multipart.delivered
                                 (Client.formOf Client.twoLines)) |}
        = (Normal resp, evs) ->
        Web.status resp <> 400%Z)
  /\ ((Multipart.guidanceBound (Client.mode Client.twoLines)
       < JsString.length
           (Multipart.normalizeLineBreaks
              (Client.trimmedGuidance Client.twoLines)))%Z ->
      forall key provider,
        noApiKey key = false ->
        serve key provider
              {| form := Some (Multipart.delivered
                                 (Client.formOf Client.twoLines)) |}
        = (Normal {| Web.status := 400;
                     Web.body := JObject [(js "error",
                                           JString (js "Invalid input"))] |},
           []))
  /\ (Multipart.noLineBreak (Client.trimmedGuidance Client.twoLines) = true ->
      (JsString.length
         (Multipart.normalizeLineBreaks (Client.trimmedGuidance Client.twoLines))
       <= Multipart.guidanceBound (Client.mode Client.twoLines))%Z).
Proof.
  apply (client_form_passes_validation Client.twoLines).
  - vm_compute. split; [left; reflexivity | discriminate].
  - vm_compute. reflexivity.
Defined.

Lemma act_imageChecked render st a :
  Client.imageChecked st -> Client.imageChecked (Client.act render st a).
Proof.
  unfold Client.imageChecked. intros H.
  destruct a as [next | value | value | value | files | fetch];
    cbn [Client.act].
  - destruct next; cbn [Client.resetForMode Client.imageFile];
      [exact H | exact I].
  - exact H.
  - exact H.
  - unfold Client.onMaxCharsChange.
    destruct (negb (JsString.truthy value)); [exact H |].
    destruct (Client.isNaN (JsNumber.ofString value)); exact H.
  - unfold Client.onImageChange.
    destruct files as [[| file rest] |]; try exact I.
    destruct (JsString.includes [js "image/jpeg"; js "image/png"]
                                (Web.type file)) eqn:T;
      cbn [negb]; [| exact I].
    destruct (Web.size file >? 3 * 1024 * 1024)%Z eqn:S; [exact I |].
    cbn [Client.withImage Client.imageFile]. split.
    + apply includes_In in T. cbn [In] in T.
      destruct T as [T | [T | []]]; [right | left]; symmetry; exact T.
    + rewrite gtb_leb in S. apply negb_false_iff in S.
      now apply Z.leb_le in S.
  - unfold Client.handleSubmit.
    destruct (negb (Client.ctaEnabled st)); [exact H |].
    destruct (fetch (Client.formOf st)) as [response |]; [| exact H].
    destruct (negb (Client.responseOk response)); exact H.
Qed.

(** X15. Whatever the user does with the component (changes of mode,
    tone, guidance, limit and file, submissions and their answers), the
    file it holds, if any, is a PNG or a JPEG of at most 3 MiB: only
    [onImageChange] stores a file, and only after these two checks.  A
    file list whose first file fails a check leaves the component without
    a file and with the message of that check. *)
Theorem held_image_is_always_acceptable render actions :
  Client.imageChecked (Client.run render actions)
  /\ forall file rest,
       ~ acceptableImage file ->
       Client.imageFile
         (Client.onImageChange (Some (file :: rest)) (Client.run render actions))
       = None
       /\ exists message,
            Client.imageError
              (Client.onImageChange (Some (file :: rest))
                                    (Client.run render actions))
            = Some message
            /\ In message [js "Please upload a JPG or PNG image.";
                           js "Image must be 3MB or smaller."].
Proof.
  split.
  - unfold Client.run.
    assert (H : forall st, Client.imageChecked st ->
                           Client.imageChecked
                             (fold_left (Client.act render) actions st)).
    { induction actions as [| a actions IH]; intros st Hst; cbn [fold_left].
      - exact Hst.
      - apply IH. now apply act_imageChecked. }
    apply H. exact I.
  - intros file rest Hbad. unfold Client.onImageChange.
    destruct (JsString.includes [js "image/jpeg"; js "image/png"]
                                (Web.type file)) eqn:T;
      cbn [negb].
    + destruct (Web.size file >? 3 * 1024 * 1024)%Z eqn:S.
      * cbn [Client.withImage Client.imageFile Client.imageError].
        split; [reflexivity |]. eexists.
        split; [reflexivity | right; left; reflexivity].
      * exfalso. apply Hbad. split.
        -- apply includes_In in T. cbn [In] in T.
           destruct T as [T | [T | []]]; [right | left]; symmetry; exact T.
        -- rewrite gtb_leb in S. apply negb_false_iff in S.
           now apply Z.leb_le in S.
    + cbn [Client.withImage Client.imageFile Client.imageError].
      split; [reflexivity |]. eexists.
      split; [reflexivity | left; reflexivity].
Qed.

(** X16. The client shows what the route answered.  For every response
    of the route, a submission answered by it either stores the body of a
    200 response (which carries the mode and the items) and no error, or
    stores no result and, as its error, the [error] string of the body:
    [Invalid input], [Check your OpenAI credentials.] or
    [Something went wrong].  The message the client would make up from
    the status alone is never needed. *)
Theorem client_shows_route_message key provider request resp evs st :
  serve key provider request = (Normal resp, evs) ->
  Client.ctaEnabled st = true ->
  (Web.status resp = 200%Z
   /\ Client.results (Client.handleSubmit (fun _ => Some resp) st)
      = Some (Web.body resp)
   /\ Client.error (Client.handleSubmit (fun _ => Some resp) st) = None
   /\ exists mode0,
        JSON.get (Web.body resp) (js "mode") = Some (JString mode0)
        /\ (mode0 = js "captions" \/ mode0 = js "bio"))
  \/ (Client.results (Client.handleSubmit (fun _ => Some resp) st) = None
      /\ exists message,
           Client.error (Client.handleSubmit (fun _ => Some resp) st)
           = Some (JString message)
           /\ Web.body resp = JObject [(js "error", JString message)]
           /\ In message [js "Invalid input";
                          js "Check your OpenAI credentials.";
                          js "Something went wrong"]).
Proof.
  intros Hserve Hcta.
  unfold Client.handleSubmit. rewrite Hcta. cbn [negb].
  destruct (serve_response key provider request) as (resp' & Hfst & Hcases).
  rewrite Hserve in Hfst. cbn [fst] in Hfst.
  assert (resp = resp') by congruence. subst resp'.
  destruct Hcases
    as [[_ ->] | [(fd & _ & ->) | (fd & mode0 & Hform & Hmode & H)]].
  - right. split; [reflexivity |].
    exists (js "Something went wrong").
    split; [reflexivity | split; [reflexivity |]].
    right; right; left; reflexivity.
  - right. split; [reflexivity |].
    exists (js "Invalid input").
    split; [reflexivity | split; [reflexivity |]].
    left; reflexivity.
  - destruct H as [-> | (body & -> & Hsrc)].
    + right. split; [reflexivity |].
      exists (js "Check your OpenAI credentials.").
      split; [reflexivity | split; [reflexivity |]].
      right; left; reflexivity.
    + left. destruct (modeOf_cases _ _ Hmode) as [_ Hm].
      destruct (sourced_shape _ _ Hm Hsrc) as [Hget _].
      split; [reflexivity | split; [reflexivity | split; [reflexivity |]]].
      exists mode0. split; [exact Hget | exact Hm].
Qed.

Lemma client_shows_route_message_witness :
  (Web.status invalidInput = 200%Z
   /\ Client.results (Client.handleSubmit (fun _ => Some invalidInput)
                                          Client.filled)
      = Some (Web.body invalidInput)
   /\ Client.error (Client.handleSubmit (fun _ => Some invalidInput)
                                        Client.filled) = None
   /\ exists mode0,
        JSON.get (Web.body invalidInput) (js "mode") = Some (JString mode0)
        /\ (mode0 = js "captions" \/ mode0 = js "bio"))
  \/ (Client.results (Client.handleSubmit (fun _ => Some invalidInput)
                                          Client.filled) = None
      /\ exists message,
           Client.error (Client.handleSubmit (fun _ => Some invalidInput)
                                             Client.filled)
           = Some (JString message)
           /\ Web.body invalidInput = JObject [(js "error", JString message)]
           /\ In message [js "Invalid input";
                          js "Check your OpenAI credentials.";
                          js "Something went wrong"]).
Proof.
  apply (client_shows_route_message
           Example.apiKey Example.alwaysUnauthorized
           (Example.request Example.weatherForm) invalidInput []
           Client.filled).
  - vm_compute. reflexivity.
  - vm_compute. reflexivity.
Defined.

(* ================================================================== *)
(** * Part VII. The route as it is deployed: the module, then requests   *)
(* ================================================================== *)






(** Every run of the gateway starts with a provider call, and all its
    calls carry the messages it was given. *)
Lemma callOpenAI_head provider messages st c st' :
  callOpenAI provider messages st = (c, st') ->
  exists tail,
    events st' = events st ++ Create messages :: tail
    /\ forall m, In (Create m) tail -> m = messages.
Proof.
  intros Hrun.
  destruct (gateway_run _ _ _ _ _ Hrun) as (errs & _ & _ & -> & _).
  fold (runTrace messages errs).
  pose proof (allCarry_runTrace messages errs) as Hall.
  destruct (runTrace_head messages errs) as [tail Htail].
  rewrite Htail in *. exists tail. split; [reflexivity |].
  intros m Hin. apply (allCarry_In _ _ _ Hall). now right.
Qed.

(** Every generation starts with a provider call that carries the
    messages it was given, every later call extends them, and the
    response is never a 400. *)
Lemma generationOutcome_head provider mode0 messages :
  exists resp rest,
    generationOutcome provider mode0 messages
    = (Normal resp, Create messages :: rest)
    /\ Web.status resp <> 400%Z
    /\ forall m, In (Create m) rest -> exists extra, m = messages ++ extra.
Proof.
  unfold generationOutcome.
  destruct (callOpenAI provider messages (started mode0)) as [c1 st1] eqn:R1.
  destruct (callOpenAI_head _ _ _ _ _ R1) as (tail1 & E1 & H1).
  cbn [started events app] in E1.
  assert (Hsame : forall m, In (Create m) tail1 ->
                            exists extra, m = messages ++ extra).
  { intros m Hin. exists []. rewrite app_nil_r. now apply H1. }
  destruct c1 as [raw | e].
  - destruct (parsedBody mode0 raw) as [body |].
    + exists (ok body), tail1. rewrite E1.
      split; [reflexivity | split; [discriminate | exact Hsame]].
    + destruct (callOpenAI provider (retryMessages mode0 messages raw) st1)
        as [c2 st2] eqn:R2.
      destruct (callOpenAI_head _ _ _ _ _ R2) as (tail2 & E2 & H2).
      exists (afterRetry mode0 c2),
             (tail1 ++ Create (retryMessages mode0 messages raw) :: tail2).
      rewrite E2, E1. split; [reflexivity |]. split.
      * unfold afterRetry. destruct c2 as [raw2 | e2]; [| discriminate].
        destruct (parsedBody mode0 raw2); discriminate.
      * intros m Hin. apply in_app_or in Hin. destruct Hin as [Hin | Hin];
          [now apply Hsame |].
        assert (Hm : m = retryMessages mode0 messages raw).
        { destruct Hin as [Hin | Hin]; [congruence | now apply H2]. }
        rewrite Hm, retryMessages_unfold. eexists. reflexivity.
  - exists (afterFailure mode0 e), tail1. rewrite E1.
    split; [reflexivity | split; [| exact Hsame]].
    unfold afterFailure. destruct (authorizationFailure e); discriminate.
Qed.

Lemma join_app sep a b :
  a <> [] -> b <> [] ->
  JsString.join sep (a ++ b) = JsString.join sep a ++ sep ++ JsString.join sep b.
Proof.
  intros Ha Hb. induction a as [| x a IH]; [congruence |].
  destruct a as [| y a].
  - cbn [app JsString.join]. destruct b; [congruence | reflexivity].
  - change ((x :: y :: a) ++ b) with (x :: (y :: a) ++ b).
    change (JsString.join sep (x :: (y :: a) ++ b))
      with (x ++ sep ++ JsString.join sep ((y :: a) ++ b)).
    rewrite IH by discriminate.
    change (JsString.join sep (x :: y :: a))
      with (x ++ sep ++ JsString.join sep (y :: a)).
    now rewrite <- !app_assoc.
Qed.

Lemma join_around sep a x b :
  a <> [] -> b <> [] ->
  JsString.join sep (a ++ x :: b)
  = JsString.join sep a ++ sep ++ x ++ sep ++ JsString.join sep b.
Proof.
  intros Ha Hb.
  rewrite (join_app sep a (x :: b) Ha ltac:(discriminate)).
  change (x :: b) with ([x] ++ b).
  rewrite (join_app sep [x] b ltac:(discriminate) Hb).
  reflexivity.
Qed.

Lemma classy_tone_line :
  js "- Tone (optional): " ++ capitalized (js "classy")
  = js "- Tone (optional): Classy".
Proof. vm_compute. reflexivity. Qed.

(** C10. In bio mode a [tone] field that is present but empty behaves as
    an absent one.  The request is rejected exactly when its [maxChars]
    or its guidance breaks a rule, never on account of the tone; when it
    is not rejected the handler calls the provider, its first call
    carries the bio prompt for the tone [classy] (whose instruction has
    the line [- Tone (optional): Classy]), every later call extends these
    messages, and the response is not a 400; and a form that differs only
    in having no tone field gets the same response and the same provider
    calls. *)
Theorem empty_tone_is_absent_tone key provider fd :
  key <> [] ->
  Web.get fd (js "mode") = Some (Web.EntryString (js "bio")) ->
  Web.get fd (js "tone") = Some (Web.EntryString []) ->
  (serve (Some key) provider {| form := Some fd |}
   = (Normal {| Web.status := 400;
                Web.body := JObject [(js "error", JString (js "Invalid input"))] |},
      [])
   <-> (exists n, maxCharsOf fd = Some n /\ ~ integerInRange n)
       \/ (JsString.length (guidanceOf fd) < 10)%Z
       \/ (400 < JsString.length (guidanceOf fd))%Z)
  /\ (serve (Some key) provider {| form := Some fd |}
      <> (Normal {| Web.status := 400;
                    Web.body := JObject [(js "error",
                                          JString (js "Invalid input"))] |},
          []) ->
      exists resp rest,
        serve (Some key) provider {| form := Some fd |}
        = (Normal resp,
           Create (bioMessages (js "classy") (maxCharsOf fd) (guidanceOf fd))
             :: rest)
        /\ Web.status resp <> 400%Z
        /\ forall m,
             In (Create m) rest ->
             exists extra,
               m = bioMessages (js "classy") (maxCharsOf fd) (guidanceOf fd)
                   ++ extra)
  /\ (exists before after,
        bioMessages (js "classy") (maxCharsOf fd) (guidanceOf fd)
        = [ {| role := system; content := content_string systemPrompt |};
            {| role := user;
               content := content_string
                            (before ++ [10%Z]
                               ++ js "- Tone (optional): Classy" ++ [10%Z]
                               ++ after) |} ])
  /\ (forall fd2,
        Web.get fd2 (js "tone") = None ->
        sameExceptTone fd fd2 ->
        serve (Some key) provider {| form := Some fd2 |}
        = serve (Some key) provider {| form := Some fd |}).
Proof.
  intros Hkey Hmode Htone.
  change {| Web.status := 400;
            Web.body := JObject [(js "error", JString (js "Invalid input"))] |}
    with invalidInput.
  assert (T : toneOf fd = Some []) by (unfold toneOf; now rewrite Htone).
  assert (Hrejected :
    serve (Some key) provider {| form := Some fd |} = (Normal invalidInput, [])
    <-> validFor (js "bio") fd = false).
  { apply (rejected_iff_invalid key provider {| form := Some fd |} fd (js "bio"));
      auto. }
  assert (Hvalid :
    validFor (js "bio") fd = false
    <-> (exists n, maxCharsOf fd = Some n /\ ~ integerInRange n)
        \/ (JsString.length (guidanceOf fd) < 10)%Z
        \/ (400 < JsString.length (guidanceOf fd))%Z).
  { unfold validFor. rewrite bio_not_captions. unfold bioValid.
    rewrite T. cbn [noTone JsString.truthy negb orb]. rewrite andb_true_r.
    pose proof (maxCharsRejected_form fd) as Hmax.
    destruct (maxCharsRejected (maxCharsOf fd)); cbn [negb andb].
    - split; [intros _; left; now apply Hmax | reflexivity].
    - unfold minBioGuidanceLength, maxBioGuidanceLength.
      destruct (Z.leb_spec 10 (JsString.length (guidanceOf fd))) as [Lo | Lo];
        cbn [andb].
      + destruct (Z.leb_spec (JsString.length (guidanceOf fd)) 400) as [Hi | Hi].
        * split; [discriminate |].
          intros [H | [H | H]]; [| lia | lia].
          apply Hmax in H. discriminate H.
        * split; [intros _; right; right; exact Hi | reflexivity].
      + split; [intros _; right; left; exact Lo | reflexivity]. }
  split; [now rewrite Hrejected |].
  split; [| split].
  - intros Hnot.
    assert (V : validFor (js "bio") fd = true).
    { destruct (validFor (js "bio") fd) eqn:E; [reflexivity |].
      elim Hnot. now apply Hrejected. }
    rewrite serve_cases. cbn [form].
    rewrite (modeOf_known fd (js "bio") Hmode (or_intror eq_refl)).
    rewrite (noApiKey_configured _ Hkey), V.
    assert (O : originalMessages (js "bio") fd
                = bioMessages (js "classy") (maxCharsOf fd) (guidanceOf fd)).
    { unfold originalMessages. rewrite bio_not_captions, T. reflexivity. }
    rewrite O. apply generationOutcome_head.
  - unfold bioMessages, bioInstruction.
    match goal with
    | |- context [JsString.join ?sep (?l1 :: ?l2 :: ?l3 :: ?l4 :: ?l5 :: ?rest)] =>
        exists (JsString.join sep [l1; l2; l3; l4]), (JsString.join sep rest);
        pose proof (join_around sep [l1; l2; l3; l4] l5 rest
                                ltac:(discriminate) ltac:(discriminate)) as E
    end.
    rewrite classy_tone_line in E.
    exact (f_equal
             (fun text =>
                [ {| role := system; content := content_string systemPrompt |};
                  {| role := user; content := content_string text |} ])
             E).
  - intros fd2 Htone2 Hsame.
    destruct tone_name_distinct as (Nmode & Nguid & Nmax & Nimg).
    assert (T2 : toneOf fd2 = None) by (unfold toneOf; now rewrite Htone2).
    assert (G : guidanceOf fd = guidanceOf fd2)
      by (unfold guidanceOf; now rewrite (Hsame _ Nguid)).
    assert (X : maxCharsOf fd = maxCharsOf fd2)
      by (unfold maxCharsOf; now rewrite (Hsame _ Nmax)).
    assert (V : validFor (js "bio") fd = validFor (js "bio") fd2).
    { unfold validFor, bioValid. rewrite bio_not_captions, T, T2, G, X.
      reflexivity. }
    assert (O : originalMessages (js "bio") fd = originalMessages (js "bio") fd2).
    { unfold originalMessages. rewrite bio_not_captions, T, T2, G, X.
      reflexivity. }
    rewrite !serve_cases. cbn [form].
    assert (M2 : Web.get fd2 (js "mode") = Some (Web.EntryString (js "bio")))
      by (now rewrite <- (Hsame _ Nmode)).
    rewrite (modeOf_known fd (js "bio") Hmode (or_intror eq_refl)).
    rewrite (modeOf_known fd2 (js "bio") M2 (or_intror eq_refl)).
    now rewrite V, O.
Qed.

Lemma empty_tone_is_absent_tone_witness :
  (serve (Some (js "sk-test")) (Example.replying Example.blankBios)
         {| form := Some Sample.emptyToneForm |}
   = (Normal {| Web.status := 400;
                Web.body := JObject [(js "error", JString (js "Invalid input"))] |},
      [])
   <-> (exists n, maxCharsOf Sample.emptyToneForm = Some n /\ ~ integerInRange n)
       \/ (JsString.length (guidanceOf Sample.emptyToneForm) < 10)%Z
       \/ (400 < JsString.length (guidanceOf Sample.emptyToneForm))%Z)
  /\ (serve (Some (js "sk-test")) (Example.replying Example.blankBios)
            {| form := Some Sample.emptyToneForm |}
      <> (Normal {| Web.status := 400;
                    Web.body := JObject [(js "error",
                                          JString (js "Invalid input"))] |},
          []) ->
      exists resp rest,
        serve (Some (js "sk-test")) (Example.replying Example.blankBios)
              {| form := Some Sample.emptyToneForm |}
        = (Normal resp,
           Create (bioMessages (js "classy") (maxCharsOf Sample.emptyToneForm)
                               (guidanceOf Sample.emptyToneForm))
             :: rest)
        /\ Web.status resp <> 400%Z
        /\ forall m,
             In (Create m) rest ->
             exists extra,
               m = bioMessages (js "classy") (maxCharsOf Sample.emptyToneForm)
                               (guidanceOf Sample.emptyToneForm)
                   ++ extra)
  /\ (exists before after,
        bioMessages (js "classy") (maxCharsOf Sample.emptyToneForm)
                    (guidanceOf Sample.emptyToneForm)
        = [ {| role := system; content := content_string systemPrompt |};
            {| role := user;
               content := content_string
                            (before ++ [10%Z]
                               ++ js "- Tone (optional): Classy" ++ [10%Z]
                               ++ after) |} ])
  /\ (forall fd2,
        Web.get fd2 (js "tone") = None ->
        sameExceptTone Sample.emptyToneForm fd2 ->
        serve (Some (js "sk-test")) (Example.replying Example.blankBios)
              {| form := Some fd2 |}
        = serve (Some (js "sk-test")) (Example.replying Example.blankBios)
                {| form := Some Sample.emptyToneForm |}).
Proof.
  apply (empty_tone_is_absent_tone (js "sk-test")
           (Example.replying Example.blankBios) Sample.emptyToneForm).
  - vm_compute. discriminate.
  - reflexivity.
  - reflexivity.
Defined.
